(** * Editor: the edition-tools tab manager and the texture editor panel

    A shallow embedding of the two controllers of the repository:

    - [EditionTools]: [EditorEditionTools] of
      [src/editor/components/edition.ts] (tool registration, [setObject],
      [refresh], [changeTab]);
    - [TextureEditor]: [GUITextureEditor] (constructor, the grid's [onClick],
      [onAdd], the render-target preview and the file callback).

    The DOM, the tab widget and the 3D engine are modelled by the part of
    their state that the controllers read or write: which elements are
    displayed, which tabs are hidden, which callbacks are installed, and a log
    of the calls that have no other visible effect. *)

From Stdlib Require Import ZArith Lia Ascii String.
From Stdlib Require Strings.Byte.
From stdpp Require Import base option list gmap strings.

Set Default Proof Using "Type".

(** ** Writes to a map of flags

    [$('#id').show()], [$('#id').hide()], [tabs.show(id)] and [tabs.hide(id)]
    all set one flag of an element that is looked up by id, and do nothing
    when no element has that id. *)

Definition setFlag (id : string) (b : bool) (m : gmap string bool) : gmap string bool :=
  alter (λ _, b) id m.

Definition applyWrites (ws : list (string * bool)) (m : gmap string bool) : gmap string bool :=
  foldl (λ m w, setFlag w.1 w.2 m) m ws.

(** The value of the last write to [id] in [ws], if any. *)
Fixpoint lastWrite (id : string) (ws : list (string * bool)) : option bool :=
  match ws with
  | [] => None
  | w :: ws' =>
      match lastWrite id ws' with
      | Some b => Some b
      | None => if decide (w.1 = id) then Some w.2 else None
      end
  end.

(** ** The edition-tools manager ([EditorEditionTools]) *)

Module EditionTools.
Section manager.
(** [Obj] stands for the scene objects ([any] in the source, [None] is
    [null]); [Val] for the property values that the inspector widgets
    report. *)
Context {Obj Val : Type}.

(** [IEditionTool<any>], by the members that the manager uses.  The tool's
    [object] field and its [tool] (the widget panel) belong to the tool: the
    manager calls [update] and [onFinishChange] on them, which is recorded
    in the manager's log of calls. *)
Record IEditionTool := {
  divId : string;
  tabName : string;
  isSupported : option Obj → bool;
}.

(** The arrow function of [setObject] given to [t.tool.onFinishChange]: it
    is closed over the tool [t]. *)
Inductive FinishChangeCallback :=
  | UndoRedoPush (t : IEditionTool).

(** The argument of [UndoRedo.Push]. *)
Record UndoRedoEntry := {
  baseObject : option Obj;
  property : string;
  to : Val;
  from : Val;
  object : option Obj;
}.

Record EditorEditionTools := {
  tools : list IEditionTool;
  currentTools : list IEditionTool;
  currentObject : option Obj;
  lastTabName : option string;
  (** DOM: id of a tool container ↦ whether it is displayed. *)
  containers : gmap string bool;
  (** The tab widget: id of a tab ↦ its [hidden] flag. *)
  tabs : gmap string bool;
  (** Calls [t.update(object)], oldest first. *)
  updates : list (IEditionTool * option Obj);
  (** Calls [t.tool.onFinishChange(t.tool.element, callback)], oldest first. *)
  finishChange : list (IEditionTool * FinishChangeCallback);
  (** Number of [resize] events dispatched on [window]. *)
  resizes : nat;
}.

Definition set_currentTools (l : list IEditionTool) (this : EditorEditionTools) :=
  {| tools := tools this; currentTools := l; currentObject := currentObject this;
     lastTabName := lastTabName this; containers := containers this;
     tabs := tabs this; updates := updates this;
     finishChange := finishChange this; resizes := resizes this |}.

Definition set_tools (l : list IEditionTool) (this : EditorEditionTools) :=
  {| tools := l; currentTools := currentTools this; currentObject := currentObject this;
     lastTabName := lastTabName this; containers := containers this;
     tabs := tabs this; updates := updates this;
     finishChange := finishChange this; resizes := resizes this |}.

Definition set_currentObject (o : option Obj) (this : EditorEditionTools) :=
  {| tools := tools this; currentTools := currentTools this; currentObject := o;
     lastTabName := lastTabName this; containers := containers this;
     tabs := tabs this; updates := updates this;
     finishChange := finishChange this; resizes := resizes this |}.

Definition set_lastTabName (n : option string) (this : EditorEditionTools) :=
  {| tools := tools this; currentTools := currentTools this; currentObject := currentObject this;
     lastTabName := n; containers := containers this;
     tabs := tabs this; updates := updates this;
     finishChange := finishChange this; resizes := resizes this |}.

Definition set_containers (m : gmap string bool) (this : EditorEditionTools) :=
  {| tools := tools this; currentTools := currentTools this; currentObject := currentObject this;
     lastTabName := lastTabName this; containers := m;
     tabs := tabs this; updates := updates this;
     finishChange := finishChange this; resizes := resizes this |}.

Definition set_tabs (m : gmap string bool) (this : EditorEditionTools) :=
  {| tools := tools this; currentTools := currentTools this; currentObject := currentObject this;
     lastTabName := lastTabName this; containers := containers this;
     tabs := m; updates := updates this;
     finishChange := finishChange this; resizes := resizes this |}.

Definition set_updates (l : list (IEditionTool * option Obj)) (this : EditorEditionTools) :=
  {| tools := tools this; currentTools := currentTools this; currentObject := currentObject this;
     lastTabName := lastTabName this; containers := containers this;
     tabs := tabs this; updates := l;
     finishChange := finishChange this; resizes := resizes this |}.

Definition set_finishChange (l : list (IEditionTool * FinishChangeCallback))
    (this : EditorEditionTools) :=
  {| tools := tools this; currentTools := currentTools this; currentObject := currentObject this;
     lastTabName := lastTabName this; containers := containers this;
     tabs := tabs this; updates := updates this;
     finishChange := l; resizes := resizes this |}.

Definition set_resizes (n : nat) (this : EditorEditionTools) :=
  {| tools := tools this; currentTools := currentTools this; currentObject := currentObject this;
     lastTabName := lastTabName this; containers := containers this;
     tabs := tabs this; updates := updates this;
     finishChange := finishChange this; resizes := n |}.

(** *** The DOM and the tab widget *)

(** [$('#' + id).show()] and [$('#' + id).hide()]. *)
Definition show (id : string) (this : EditorEditionTools) :=
  set_containers (setFlag id true (containers this)) this.
Definition hide (id : string) (this : EditorEditionTools) :=
  set_containers (setFlag id false (containers this)) this.

(** [$('#' + root).append('<div id="..."></div>')]: a new element is
    displayed; when the id is taken, [$('#' + id)] goes on selecting the
    element that had it first. *)
Definition appendDiv (id : string) (this : EditorEditionTools) :=
  match containers this !! id with
  | Some _ => this
  | None => set_containers (<[id := true]> (containers this)) this
  end.

(** [tabs.add({ id: ... })]: the widget refuses an id that it already has. *)
Definition tabs_add (id : string) (this : EditorEditionTools) :=
  match tabs this !! id with
  | Some _ => this
  | None => set_tabs (<[id := false]> (tabs this)) this
  end.

(** [tabs.show(id)] and [tabs.hide(id)]. *)
Definition tabs_show (id : string) (this : EditorEditionTools) :=
  set_tabs (setFlag id false (tabs this)) this.
Definition tabs_hide (id : string) (this : EditorEditionTools) :=
  set_tabs (setFlag id true (tabs this)) this.

(** [window.dispatchEvent(new Event('resize'))]. *)
Definition dispatchResize (this : EditorEditionTools) :=
  set_resizes (S (resizes this)) this.

(** *** The methods *)

(** The state in which the constructor starts to add the tools. *)
Definition create : EditorEditionTools :=
  {| tools := []; currentTools := []; currentObject := None; lastTabName := None;
     containers := ∅; tabs := ∅; updates := []; finishChange := []; resizes := 0 |}.

(** [!this.lastTabName]: [null] and the empty string are falsy. *)
Definition falsy (n : option string) : bool :=
  match n with
  | None => true
  | Some s => bool_decide (s = "")
  end.

Definition addTool (tool : IEditionTool) (this : EditorEditionTools) : EditorEditionTools :=
  let this := appendDiv (divId tool) this in
  let this := hide (divId tool) this in
  let this := tabs_add (tabName tool) this in
  let this := tabs_hide (tabName tool) this in
  let this := set_tools (tools this ++ [tool]) this in
  if falsy (lastTabName this) then set_lastTabName (Some (tabName tool)) this else this.

(** The body of the [forEach] of [changeTab]. *)
Definition changeTab_each (target : string) (this : EditorEditionTools) (t : IEditionTool) :=
  if bool_decide (tabName t = target) then
    set_lastTabName (Some target) (show (divId t) this)
  else
    hide (divId t) this.

Definition changeTab (target : string) (this : EditorEditionTools) : EditorEditionTools :=
  dispatchResize (foldl (changeTab_each target) this (tools this)).

(** The body of the [forEach] of [setObject]; the local [firstTool] is
    threaded along with the manager. *)
Definition setObject_each (object : option Obj)
    (acc : EditorEditionTools * option IEditionTool) (t : IEditionTool)
    : EditorEditionTools * option IEditionTool :=
  let '(this, firstTool) := acc in
  if isSupported t object then
    let this := show (divId t) this in
    let this := tabs_show (tabName t) this in
    let this := set_updates (updates this ++ [(t, object)]) this in
    let firstTool :=
      if bool_decide (Some (tabName t) = lastTabName this) then Some t
      else match firstTool with
           | None => Some t
           | Some _ => firstTool
           end in
    let this := set_finishChange (finishChange this ++ [(t, UndoRedoPush t)]) this in
    let this := set_currentTools (currentTools this ++ [t]) this in
    (this, firstTool)
  else
    let this := hide (divId t) this in
    let this := tabs_hide (tabName t) this in
    (this, firstTool).

(** [setObject] up to the end of its [forEach]. *)
Definition setObject_loop (object : option Obj) (this : EditorEditionTools)
    : EditorEditionTools * option IEditionTool :=
  foldl (setObject_each object) (set_currentTools [] this, None) (tools this).

Definition setObject (object : option Obj) (this : EditorEditionTools) : EditorEditionTools :=
  let '(this, firstTool) := setObject_loop object this in
  let this :=
    match firstTool with
    | Some t => changeTab (tabName t) this
    | None => this
    end in
  set_currentObject object this.

Definition refresh (this : EditorEditionTools) : EditorEditionTools :=
  setObject (currentObject this) this.

(** What the callback installed by [setObject] does when the widget reports
    a finished change: one [UndoRedo.Push].  [objectOf t] is the value of
    [t.object] at that moment; [stack] is the undo/redo stack, oldest entry
    first. *)
Definition finishChange_call (cb : FinishChangeCallback)
    (objectOf : IEditionTool → option Obj)
    (property : string) (result : Val) (object : option Obj) (initialValue : Val)
    (stack : list UndoRedoEntry) : list UndoRedoEntry :=
  match cb with
  | UndoRedoPush t =>
      stack ++ [ {| baseObject := objectOf t; property := property; to := result;
                    from := initialValue; object := object |} ]
  end.

(** The constructor, for the tools [ts] that it registers: they are added
    one after the other. *)
Definition construct (ts : list IEditionTool) : EditorEditionTools :=
  foldl (λ this tool, addTool tool this) create ts.

(** *** Vocabulary of the properties *)

(** The tools that support [object], in registration order. *)
Definition supported (object : option Obj) (this : EditorEditionTools) : list IEditionTool :=
  filter (λ t, isSupported t object = true) (tools this).

(** The tab that [setObject] is to make active, in the words of the
    description: the tab named [lastTabName] when a tool with that tab
    supports the object, otherwise the tab of the first supported tool;
    none when no tool supports the object. *)
Definition activeTab (object : option Obj) (this : EditorEditionTools) : option string :=
  match lastTabName this with
  | Some l =>
      if bool_decide (l ∈ tabName <$> supported object this) then Some l
      else tabName <$> head (supported object this)
  | None => tabName <$> head (supported object this)
  end.

(** The writes of one [changeTab] to the containers. *)
Definition changeTabWrites (target : string) (ts : list IEditionTool)
    : list (string * bool) :=
  (λ t, (divId t, bool_decide (tabName t = target))) <$> ts.

(** The writes of the loop of [setObject] to the containers and the tabs. *)
Definition containerWrites (object : option Obj) (ts : list IEditionTool)
    : list (string * bool) :=
  (λ t, (divId t, isSupported t object)) <$> ts.
Definition tabWrites (object : option Obj) (ts : list IEditionTool)
    : list (string * bool) :=
  (λ t, (tabName t, negb (isSupported t object))) <$> ts.

Definition tabShown (this : EditorEditionTools) (t : IEditionTool) : Prop :=
  tabs this !! tabName t = Some false.
Definition tabHidden (this : EditorEditionTools) (t : IEditionTool) : Prop :=
  tabs this !! tabName t = Some true.
Definition containerVisible (this : EditorEditionTools) (t : IEditionTool) : Prop :=
  containers this !! divId t = Some true.
Definition containerHidden (this : EditorEditionTools) (t : IEditionTool) : Prop :=
  containers this !! divId t = Some false.

(** The registered tools have a container and a tab of their own, and
    [lastTabName] is [null] or the tab of a registered tool. *)
Record wf (this : EditorEditionTools) : Prop := {
  wf_tabNames : NoDup (tabName <$> tools this);
  wf_divIds : NoDup (divId <$> tools this);
  wf_containers : ∀ t, t ∈ tools this → is_Some (containers this !! divId t);
  wf_tabs : ∀ t, t ∈ tools this → is_Some (tabs this !! tabName t);
  wf_lastTabName :
    ∀ l, lastTabName this = Some l → l ∈ tabName <$> tools this;
}.

(** The states of a manager: the constructor registers tools whose ids are
    new, then objects are selected and tabs are clicked. *)
Inductive reachable : EditorEditionTools → Prop :=
  | reachable_create : reachable create
  | reachable_addTool tool this :
      reachable this →
      tabName tool ∉ tabName <$> tools this →
      divId tool ∉ divId <$> tools this →
      reachable (addTool tool this)
  | reachable_setObject object this :
      reachable this → reachable (setObject object this)
  | reachable_changeTab target this :
      reachable this → reachable (changeTab target this).

End manager.

Arguments IEditionTool : clear implicits.
Arguments FinishChangeCallback : clear implicits.
Arguments UndoRedoEntry : clear implicits.
Arguments EditorEditionTools : clear implicits.

(** *** A manager to try the methods on

    Objects are numbered by their kind: [0] a scene, [1] a mesh, [2] a
    light. *)

Definition sceneTool : IEditionTool nat :=
  {| divId := "SCENE-TOOL"; tabName := "Scene";
     isSupported := λ o, bool_decide (o = Some 0) |}.

Definition nodeTool : IEditionTool nat :=
  {| divId := "NODE-TOOL"; tabName := "Node";
     isSupported := λ o, bool_decide (o = Some 1 ∨ o = Some 2) |}.

Definition lightTool : IEditionTool nat :=
  {| divId := "LIGHT-TOOL"; tabName := "Light";
     isSupported := λ o, bool_decide (o = Some 2) |}.

Definition demo : EditorEditionTools nat :=
  addTool lightTool (addTool nodeTool (addTool sceneTool create)).

End EditionTools.

(** ** The texture editor panel ([GUITextureEditor]) *)

Module TextureEditor.

(** *** Strings *)

(** [String.prototype.toLowerCase] on the letters [A]-[Z]; the other
    characters are kept. *)
Definition lowerAscii (c : ascii) : ascii :=
  let n := nat_of_ascii c in
  if (65 <=? n) && (n <=? 90) then ascii_of_nat (n + 32) else c.

Fixpoint toLowerCase (s : string) : string :=
  match s with
  | EmptyString => EmptyString
  | String c s' => String (lowerAscii c) (toLowerCase s')
  end.

(** [s.indexOf(searchString)]: the first position where [searchString]
    occurs in [s], [-1] when there is none. *)
Fixpoint indexOf (searchString s : string) : Z :=
  if String.prefix searchString s then 0%Z
  else match s with
       | EmptyString => (-1)%Z
       | String _ s' =>
           let r := indexOf searchString s' in
           if (r =? -1)%Z then (-1)%Z else (r + 1)%Z
       end.

Fixpoint dropString (n : nat) (s : string) : string :=
  match n, s with
  | O, _ => s
  | S _, EmptyString => EmptyString
  | S n', String _ s' => dropString n' s'
  end.

(** [s.replace(pattern, replacement)] with a string pattern and a
    replacement without [$]: the first occurrence is replaced. *)
Fixpoint replace (pattern replacement s : string) : string :=
  if String.prefix pattern s then
    replacement +:+ dropString (String.length pattern) s
  else match s with
       | EmptyString => EmptyString
       | String c s' => String c (replace pattern replacement s')
       end.

(** Truthiness of an optional string ([undefined], [null] and the empty
    string are falsy). *)
Definition truthy (s : option string) : bool :=
  match s with
  | None => false
  | Some s => negb (bool_decide (s = ""))
  end.

(** *** The engine's objects *)

(** A function value held by [onAfterRender]: a callback of other code, or
    the arrow function made by [_configureRenderTarget], closed over
    [width], [height] and its [imgData] (the position of that [ImageData]
    among those allocated). *)
Inductive Callback :=
  | Foreign (id : nat)
  | Preview (width height : nat) (imgData : nat).

(** The object returned by [serialize()], by the two members that the click
    handler writes; [ser_rest] stands for the others. *)
Record SerializationObject := {
  ser_name : string;
  ser_base64String : option string;
  ser_rest : nat;
}.

Record BaseTexture := {
  (** [null] for a texture that was given no name. *)
  name : option string;
  _buffer : option string;
  url : string;
  isCube : bool;
  isRenderTarget : bool;
  onAfterRender : option Callback;
  (** [getSize()]: width and height. *)
  getSize : nat * nat;
}.

Definition set_name (x : option string) (t : BaseTexture) : BaseTexture :=
  {| name := x; _buffer := _buffer t; url := url t; isCube := isCube t;
     isRenderTarget := isRenderTarget t; onAfterRender := onAfterRender t;
     getSize := getSize t |}.

Definition set_onAfterRender (x : option Callback) (t : BaseTexture) : BaseTexture :=
  {| name := name t; _buffer := _buffer t; url := url t; isCube := isCube t;
     isRenderTarget := isRenderTarget t; onAfterRender := x;
     getSize := getSize t |}.

(** [new DynamicTexture("RenderTargetTexture", { width, height }, ...)];
    [dyn_id] tells the textures made by different calls apart. *)
Record DynamicTexture := {
  dyn_id : nat;
  dyn_width : nat;
  dyn_height : nat;
}.

(** The textures of the editor's own preview scene. *)
Inductive TargetTexture :=
  | Parsed (serializationObject : SerializationObject)
  | Dynamic (d : DynamicTexture).

(** A value of a property of the edited object; a texture is a reference to
    an element of the current scene's texture list, by its position. *)
Inductive Value :=
  | VTexture (index : nat)
  | VOther.

(** A row of the grid, as it is given to [addRow]; its name is the one of a
    texture, which may be [null], or the one of a file. *)
Record ITextureRow := {
  row_name : option string;
  recid : Z;
}.

Record File := {
  file_name : string;
}.

(** The function returned by [_onReadFileCallback(name)]. *)
Inductive ReadCallback :=
  | OnReadFile (name : string).

(** Calls into the engine that leave no other trace in the model. *)
Inductive Effect :=
  | SetTexture (sampler : string) (t : TargetTexture)
  | Dispose (t : TargetTexture)
  | Call (cb : Callback) (faceIndex : nat)
  | ReadPixels (x y width height : nat)
  | PutImageData (d : DynamicTexture) (data : list Byte.byte) (dx dy : nat)
  | Update (d : DynamicTexture) (invertY : bool)
  | IsObjectSupported.

Record GUITextureEditor := {
  object : option (gmap string Value);
  propertyPath : option string;
  _objectName : option string;
  _targetObject : option Value;
  _targetTexture : option TargetTexture;
  (** A reference to a render target of the current scene, by position. *)
  _currentRenderTarget : option nat;
  _currentPixels : option (list Byte.byte);
  _currentOnAfterRender : option Callback;
  _dynamicTexture : option DynamicTexture;
  (** The rows of the grid. *)
  _texturesList : list ITextureRow;
  (** [_core.currentScene.textures]. *)
  textures : list BaseTexture;
  (** [FilesInput.FilesTextures], by the names under which a lookup gives a
      file. *)
  filesTextures : gmap string File;
  (** The [ImageData] buffers allocated so far. *)
  imageData : list (list Byte.byte);
  (** The number of dynamic textures created so far. *)
  dynamicTextures : nat;
  (** The file reads that have not completed yet. *)
  pendingReads : list (File * ReadCallback);
  log : list Effect;
}.

Definition set_object (x : option (gmap string Value)) (this : GUITextureEditor) : GUITextureEditor :=
  {| object := x; propertyPath := propertyPath this; _objectName := _objectName this;
     _targetObject := _targetObject this; _targetTexture := _targetTexture this;
     _currentRenderTarget := _currentRenderTarget this; _currentPixels := _currentPixels this;
     _currentOnAfterRender := _currentOnAfterRender this;
     _dynamicTexture := _dynamicTexture this; _texturesList := _texturesList this;
     textures := textures this; filesTextures := filesTextures this;
     imageData := imageData this; dynamicTextures := dynamicTextures this;
     pendingReads := pendingReads this; log := log this |}.

Definition set_targetTexture (x : option TargetTexture) (this : GUITextureEditor) : GUITextureEditor :=
  {| object := object this; propertyPath := propertyPath this; _objectName := _objectName this;
     _targetObject := _targetObject this; _targetTexture := x;
     _currentRenderTarget := _currentRenderTarget this; _currentPixels := _currentPixels this;
     _currentOnAfterRender := _currentOnAfterRender this;
     _dynamicTexture := _dynamicTexture this; _texturesList := _texturesList this;
     textures := textures this; filesTextures := filesTextures this;
     imageData := imageData this; dynamicTextures := dynamicTextures this;
     pendingReads := pendingReads this; log := log this |}.

Definition set_currentRenderTarget (x : option nat) (this : GUITextureEditor) : GUITextureEditor :=
  {| object := object this; propertyPath := propertyPath this; _objectName := _objectName this;
     _targetObject := _targetObject this; _targetTexture := _targetTexture this;
     _currentRenderTarget := x; _currentPixels := _currentPixels this;
     _currentOnAfterRender := _currentOnAfterRender this;
     _dynamicTexture := _dynamicTexture this; _texturesList := _texturesList this;
     textures := textures this; filesTextures := filesTextures this;
     imageData := imageData this; dynamicTextures := dynamicTextures this;
     pendingReads := pendingReads this; log := log this |}.

Definition set_currentPixels (x : option (list Byte.byte)) (this : GUITextureEditor) : GUITextureEditor :=
  {| object := object this; propertyPath := propertyPath this; _objectName := _objectName this;
     _targetObject := _targetObject this; _targetTexture := _targetTexture this;
     _currentRenderTarget := _currentRenderTarget this; _currentPixels := x;
     _currentOnAfterRender := _currentOnAfterRender this;
     _dynamicTexture := _dynamicTexture this; _texturesList := _texturesList this;
     textures := textures this; filesTextures := filesTextures this;
     imageData := imageData this; dynamicTextures := dynamicTextures this;
     pendingReads := pendingReads this; log := log this |}.

Definition set_currentOnAfterRender (x : option Callback) (this : GUITextureEditor) : GUITextureEditor :=
  {| object := object this; propertyPath := propertyPath this; _objectName := _objectName this;
     _targetObject := _targetObject this; _targetTexture := _targetTexture this;
     _currentRenderTarget := _currentRenderTarget this; _currentPixels := _currentPixels this;
     _currentOnAfterRender := x; _dynamicTexture := _dynamicTexture this;
     _texturesList := _texturesList this; textures := textures this;
     filesTextures := filesTextures this; imageData := imageData this;
     dynamicTextures := dynamicTextures this; pendingReads := pendingReads this;
     log := log this |}.

Definition set_dynamicTexture (x : option DynamicTexture) (this : GUITextureEditor) : GUITextureEditor :=
  {| object := object this; propertyPath := propertyPath this; _objectName := _objectName this;
     _targetObject := _targetObject this; _targetTexture := _targetTexture this;
     _currentRenderTarget := _currentRenderTarget this; _currentPixels := _currentPixels this;
     _currentOnAfterRender := _currentOnAfterRender this; _dynamicTexture := x;
     _texturesList := _texturesList this; textures := textures this;
     filesTextures := filesTextures this; imageData := imageData this;
     dynamicTextures := dynamicTextures this; pendingReads := pendingReads this;
     log := log this |}.

Definition set_texturesList (x : list ITextureRow) (this : GUITextureEditor) : GUITextureEditor :=
  {| object := object this; propertyPath := propertyPath this; _objectName := _objectName this;
     _targetObject := _targetObject this; _targetTexture := _targetTexture this;
     _currentRenderTarget := _currentRenderTarget this; _currentPixels := _currentPixels this;
     _currentOnAfterRender := _currentOnAfterRender this;
     _dynamicTexture := _dynamicTexture this; _texturesList := x; textures := textures this;
     filesTextures := filesTextures this; imageData := imageData this;
     dynamicTextures := dynamicTextures this; pendingReads := pendingReads this;
     log := log this |}.

Definition set_textures (x : list BaseTexture) (this : GUITextureEditor) : GUITextureEditor :=
  {| object := object this; propertyPath := propertyPath this; _objectName := _objectName this;
     _targetObject := _targetObject this; _targetTexture := _targetTexture this;
     _currentRenderTarget := _currentRenderTarget this; _currentPixels := _currentPixels this;
     _currentOnAfterRender := _currentOnAfterRender this;
     _dynamicTexture := _dynamicTexture this; _texturesList := _texturesList this;
     textures := x; filesTextures := filesTextures this; imageData := imageData this;
     dynamicTextures := dynamicTextures this; pendingReads := pendingReads this;
     log := log this |}.

Definition set_imageData (x : list (list Byte.byte)) (this : GUITextureEditor) : GUITextureEditor :=
  {| object := object this; propertyPath := propertyPath this; _objectName := _objectName this;
     _targetObject := _targetObject this; _targetTexture := _targetTexture this;
     _currentRenderTarget := _currentRenderTarget this; _currentPixels := _currentPixels this;
     _currentOnAfterRender := _currentOnAfterRender this;
     _dynamicTexture := _dynamicTexture this; _texturesList := _texturesList this;
     textures := textures this; filesTextures := filesTextures this; imageData := x;
     dynamicTextures := dynamicTextures this; pendingReads := pendingReads this;
     log := log this |}.

Definition set_dynamicTextures (x : nat) (this : GUITextureEditor) : GUITextureEditor :=
  {| object := object this; propertyPath := propertyPath this; _objectName := _objectName this;
     _targetObject := _targetObject this; _targetTexture := _targetTexture this;
     _currentRenderTarget := _currentRenderTarget this; _currentPixels := _currentPixels this;
     _currentOnAfterRender := _currentOnAfterRender this;
     _dynamicTexture := _dynamicTexture this; _texturesList := _texturesList this;
     textures := textures this; filesTextures := filesTextures this;
     imageData := imageData this; dynamicTextures := x; pendingReads := pendingReads this;
     log := log this |}.

Definition set_pendingReads (x : list (File * ReadCallback)) (this : GUITextureEditor) : GUITextureEditor :=
  {| object := object this; propertyPath := propertyPath this; _objectName := _objectName this;
     _targetObject := _targetObject this; _targetTexture := _targetTexture this;
     _currentRenderTarget := _currentRenderTarget this; _currentPixels := _currentPixels this;
     _currentOnAfterRender := _currentOnAfterRender this;
     _dynamicTexture := _dynamicTexture this; _texturesList := _texturesList this;
     textures := textures this; filesTextures := filesTextures this;
     imageData := imageData this; dynamicTextures := dynamicTextures this; pendingReads := x;
     log := log this |}.

Definition set_log (x : list Effect) (this : GUITextureEditor) : GUITextureEditor :=
  {| object := object this; propertyPath := propertyPath this; _objectName := _objectName this;
     _targetObject := _targetObject this; _targetTexture := _targetTexture this;
     _currentRenderTarget := _currentRenderTarget this; _currentPixels := _currentPixels this;
     _currentOnAfterRender := _currentOnAfterRender this;
     _dynamicTexture := _dynamicTexture this; _texturesList := _texturesList this;
     textures := textures this; filesTextures := filesTextures this;
     imageData := imageData this; dynamicTextures := dynamicTextures this;
     pendingReads := pendingReads this; log := x |}.

Definition emit (e : Effect) (this : GUITextureEditor) : GUITextureEditor :=
  set_log (log this ++ [e]) this.

(** A handler returns, or throws a [TypeError] on reading a member of
    [null] or [undefined]; either way the object is left as it then is. *)
Inductive Outcome :=
  | Returned (this : GUITextureEditor)
  | TypeError (this : GUITextureEditor).

Definition andThen (o : Outcome) (k : GUITextureEditor → Outcome) : Outcome :=
  match o with
  | Returned this => k this
  | TypeError this => TypeError this
  end.

Definition stateOf (o : Outcome) : GUITextureEditor :=
  match o with
  | Returned this => this
  | TypeError this => this
  end.

Definition returns (o : Outcome) : bool :=
  match o with
  | Returned _ => true
  | TypeError _ => false
  end.

(** What the "guess texture" step of the click handler comes to: the
    serialization object goes on to the next step, the handler returns, or
    a member of a serialization object that is [null] is written. *)
Inductive Guess :=
  | Guessed (serializationObject : option SerializationObject)
  | NotGuessed
  | GuessTypeError.

(** *** The methods *)

Section methods.
(** Two functions of the engine: [serialize()] of a texture, which gives
    an object or [null], and the texture made by
    [Texture.CreateFromBase64String(data, name, ...)], which the engine also
    adds to the scene. *)
Context (serialize : BaseTexture → option SerializationObject).
Context (CreateFromBase64String : string → string → BaseTexture).

Definition _fillTextureList (this : GUITextureEditor) : GUITextureEditor :=
  set_texturesList
    (imap (λ i t, {| row_name := name t; recid := Z.of_nat i |}) (textures this)) this.

(** The constructor, in a scene with the textures [sceneTextures]. *)
Definition create (objectName : option string) (object : option (gmap string Value))
    (propertyPath : option string) (sceneTextures : list BaseTexture)
    (files : gmap string File) : GUITextureEditor :=
  let targetObject :=
    match object with
    | Some o =>
        if truthy propertyPath then
          match o !! default "" propertyPath with
          | Some (VTexture i) => Some (VTexture i)
          | _ => None
          end
        else None
    | None => None
    end in
  _fillTextureList
    {| object := object; propertyPath := propertyPath; _objectName := objectName;
       _targetObject := targetObject; _targetTexture := None;
       _currentRenderTarget := None; _currentPixels := None;
       _currentOnAfterRender := None; _dynamicTexture := None; _texturesList := [];
       textures := sceneTextures; filesTextures := files; imageData := [];
       dynamicTextures := 0; pendingReads := []; log := [] |}.

(** [postProcess.onApply]. *)
Definition onApply (this : GUITextureEditor) : GUITextureEditor :=
  match _targetTexture this with
  | Some t => emit (SetTexture "textureSampler" t) this
  | None => this
  end.

Definition _restorRenderTarget (this : GUITextureEditor) : Outcome :=
  match _currentRenderTarget this with
  | None => TypeError this
  | Some i =>
      let this :=
        set_textures
          (alter (set_onAfterRender (_currentOnAfterRender this)) i (textures this)) this in
      match _dynamicTexture this with
      | None => TypeError this
      | Some d =>
          let this := emit (Dispose (Dynamic d)) this in
          let this := set_dynamicTexture None this in
          let this := set_currentPixels None this in
          Returned (set_currentRenderTarget None this)
      end
  end.

Definition _configureRenderTarget (this : GUITextureEditor) : Outcome :=
  match _currentRenderTarget this with
  | None => TypeError this
  | Some i =>
      match textures this !! i with
      | None => TypeError this
      | Some rt =>
          let '(width, height) := getSize rt in
          let imgData := length (imageData this) in
          let this :=
            set_imageData (imageData this ++ [replicate (4 * width * height) Byte.x00])
              this in
          let this := set_currentOnAfterRender (onAfterRender rt) this in
          let d := {| dyn_id := dynamicTextures this; dyn_width := width;
                      dyn_height := height |} in
          let this := set_dynamicTextures (S (dynamicTextures this)) this in
          let this := set_dynamicTexture (Some d) this in
          let this :=
            set_textures
              (alter (set_onAfterRender (Some (Preview width height imgData))) i
                 (textures this)) this in
          Returned (set_targetTexture (Some (Dynamic d)) this)
      end
  end.

(** The [for] loop of the replacement callback; a typed array ignores a
    write past its end. *)
Definition copyStep (pixels data : list Byte.byte) (i : nat) : list Byte.byte :=
  match pixels !! i with
  | Some b => <[i := b]> data
  | None => data
  end.

Definition copyPixels (pixels data : list Byte.byte) : list Byte.byte :=
  foldl (copyStep pixels) data (seq 0 (length pixels)).

(** The replacement [onAfterRender]; [pixels] is what
    [_core.engine.readPixels(0, 0, width, height)] returns this time. *)
Definition previewAfterRender (width height imgData : nat) (faceIndex : nat)
    (pixels : list Byte.byte) (this : GUITextureEditor) : Outcome :=
  let this :=
    match _currentOnAfterRender this with
    | Some cb => emit (Call cb faceIndex) this
    | None => this
    end in
  let this := emit (ReadPixels 0 0 width height) this in
  let this := set_currentPixels (Some pixels) this in
  let this := set_imageData (alter (copyPixels pixels) imgData (imageData this)) this in
  match _dynamicTexture this with
  | None => TypeError this
  | Some d =>
      let this :=
        emit (PutImageData d (default [] (imageData this !! imgData)) 0 0) this in
      Returned (emit (Update d false) this)
  end.

(** The engine has rendered the texture at position [i] and calls its
    [onAfterRender]. *)
Definition afterRender (i : nat) (faceIndex : nat) (pixels : list Byte.byte)
    (this : GUITextureEditor) : Outcome :=
  match textures this !! i with
  | Some rt =>
      match onAfterRender rt with
      | Some (Preview width height imgData) =>
          previewAfterRender width height imgData faceIndex pixels this
      | Some (Foreign id) => Returned (emit (Call (Foreign id) faceIndex) this)
      | None => Returned this
      end
  | None => Returned this
  end.

(** [_core.currentScene.textures[index]], with the position it has. *)
Definition textureAt (index : Z) (this : GUITextureEditor) : option (nat * BaseTexture) :=
  if (0 <=? index)%Z then
    (λ t, (Z.to_nat index, t)) <$> textures this !! Z.to_nat index
  else None.

(** The "guess texture" step of the click handler, for a texture whose
    name is [textureName]; the two assignments write a member of
    [serializationObject] and throw when it is [null]. *)
Definition guessTexture (selectedTexture : BaseTexture) (textureName : string)
    (serializationObject : option SerializationObject) (this : GUITextureEditor)
    : Guess :=
  if truthy (_buffer selectedTexture) then
    match serializationObject with
    | Some s =>
        Guessed (Some {| ser_name := ser_name s;
                         ser_base64String := _buffer selectedTexture;
                         ser_rest := ser_rest s |})
    | None => GuessTypeError
    end
  else if bool_decide (is_Some (filesTextures this !! textureName)) then
    match serializationObject with
    | Some s =>
        Guessed (Some {| ser_name := url selectedTexture;
                         ser_base64String := ser_base64String s;
                         ser_rest := ser_rest s |})
    | None => GuessTypeError
    end
  else if isCube selectedTexture then NotGuessed
  else Guessed serializationObject.

(** [this.object[this.propertyPath] = selectedTexture]. *)
Definition assignTexture (i : nat) (this : GUITextureEditor) : GUITextureEditor :=
  match object this with
  | Some o =>
      set_object (Some (<[default "undefined" (propertyPath this) := VTexture i]> o)) this
  | None => this
  end.

(** [if (this._targetTexture) this._targetTexture.dispose();] *)
Definition disposeTarget (this : GUITextureEditor) : GUITextureEditor :=
  match _targetTexture this with
  | Some t => emit (Dispose t) this
  | None => this
  end.

(** [Texture.Parse(serializationObject, this._scene, "")] reads members of
    the object that it is given: it throws on [null]. *)
Definition parseTarget (serializationObject : option SerializationObject)
    (this : GUITextureEditor) : Outcome :=
  match serializationObject with
  | Some s => Returned (set_targetTexture (Some (Parsed s)) this)
  | None => TypeError this
  end.

(** [_texturesList.onClick], from the read of the selected texture on:
    [selectedTexture.name.toLowerCase()] throws when there is no texture at
    the selected position, and when the texture's name is [null]. *)
Definition onClick_selected (index : Z) (this : GUITextureEditor) : Outcome :=
  match textureAt index this with
  | None => TypeError this
  | Some (i, selectedTexture) =>
      match name selectedTexture with
      | None => TypeError this
      | Some textureName =>
          if negb (indexOf ".hdr" (toLowerCase textureName) =? -1)%Z
          then Returned this
          else
            let serializationObject := serialize selectedTexture in
            let this := disposeTarget this in
            match guessTexture selectedTexture textureName serializationObject this with
            | GuessTypeError => TypeError this
            | NotGuessed => Returned this
            | Guessed serializationObject =>
                andThen
                  (if isRenderTarget selectedTexture then
                     _configureRenderTarget (set_currentRenderTarget (Some i) this)
                   else parseTarget serializationObject this)
                  (λ this, Returned (assignTexture i this))
            end
      end
  end.

(** [if (this._currentRenderTarget) this._restorRenderTarget();] *)
Definition restoreIfPreviewing (this : GUITextureEditor) : Outcome :=
  match _currentRenderTarget this with
  | Some _ => _restorRenderTarget this
  | None => Returned this
  end.

(** [_texturesList.onClick]. *)
Definition onClick (selected : list Z) (this : GUITextureEditor) : Outcome :=
  match selected with
  | [] => Returned this
  | index :: _ => andThen (restoreIfPreviewing this) (onClick_selected index)
  end.

(** [inputFiles[0].onchange], installed by [_texturesList.onAdd]: one
    asynchronous read per file. *)
Definition onchange (files : list File) (this : GUITextureEditor) : GUITextureEditor :=
  set_pendingReads
    (pendingReads this ++ ((λ f, (f, OnReadFile (file_name f))) <$> files)) this.

(** [texture.name.replace("data:", "")] as the new name of the texture;
    there is none when the name is [null]. *)
Definition stripData (t : BaseTexture) : option BaseTexture :=
  (λ n, set_name (Some (replace "data:" "" n)) t) <$> name t.

(** The function returned by [_onReadFileCallback(name)], called with the
    [data] that was read; it throws when the texture that the engine made
    has no name. *)
Definition _onReadFileCallback (name : string) (data : string)
    (this : GUITextureEditor) : Outcome :=
  let texture := length (textures this) in
  let this := set_textures (textures this ++ [CreateFromBase64String data name]) this in
  match stripData (CreateFromBase64String data name) with
  | None => TypeError this
  | Some stripped =>
      let this := set_textures (<[texture := stripped]> (textures this)) this in
      let this :=
        set_texturesList
          (_texturesList this ++
             [{| row_name := Some name;
                 recid := (Z.of_nat (length (_texturesList this)) - 1)%Z |}]) this in
      Returned (emit IsObjectSupported this)
  end.

(** The read at position [k] of the pending ones completes with [data]. *)
Definition readFinished (k : nat) (data : string) (this : GUITextureEditor)
    : Outcome :=
  match pendingReads this !! k with
  | Some (_, OnReadFile name) =>
      _onReadFileCallback name data
        (set_pendingReads (delete k (pendingReads this)) this)
  | None => Returned this
  end.

(** The engine renders the texture at position [i] once for each element
    of [frames] (a face index and the pixels read back), until a callback
    throws. *)
Definition renders (i : nat) (frames : list (nat * list Byte.byte))
    (this : GUITextureEditor) : Outcome :=
  foldl (λ o frame, andThen o (afterRender i frame.1 frame.2)) (Returned this) frames.

(** The events that the editor's core sends to its receivers, by the kinds
    that [onEvent] tells apart. *)
Inductive SceneEventType :=
  | OBJECT_ADDED
  | OBJECT_REMOVED
  | OtherSceneEvent (code : nat).

Inductive GUIEventType :=
  | LAYOUT_CHANGED
  | OtherGUIEvent (code : nat).

Inductive Event :=
  | SCENE_EVENT (eventType : SceneEventType)
  | GUI_EVENT (eventType : GUIEventType)
  | OtherEvent (code : nat).

(** What [onEvent] returns, the number of calls of [_engine.resize()] that it
    made, and the editor after it. *)
Record EventResult := {
  handled : bool;
  engineResizes : nat;
  after : GUITextureEditor;
}.

Definition onEvent (ev : Event) (this : GUITextureEditor) : EventResult :=
  match ev with
  | SCENE_EVENT OBJECT_ADDED | SCENE_EVENT OBJECT_REMOVED =>
      {| handled := false; engineResizes := 0; after := _fillTextureList this |}
  | GUI_EVENT LAYOUT_CHANGED =>
      {| handled := false; engineResizes := 1; after := this |}
  | _ => {| handled := false; engineResizes := 0; after := this |}
  end.

(** [_texturesList.onReload]. *)
Definition onReload (this : GUITextureEditor) : GUITextureEditor :=
  _fillTextureList this.

(** The pending reads complete one after the other, the oldest first, with
    the data [datas]; the callback of a read is called whether or not the
    callback of a read before it threw. *)
Fixpoint readAll (datas : list string) (this : GUITextureEditor) : GUITextureEditor :=
  match datas with
  | [] => this
  | data :: datas' => readAll datas' (stateOf (readFinished 0 data this))
  end.

(** *** Vocabulary of the properties *)

Definition isPreview (cb : option Callback) : Prop :=
  match cb with
  | Some (Preview _ _ _) => True
  | _ => False
  end.

(** What holds of an editor between two handlers: the render target that
    is previewed is a texture of the scene and has a dynamic texture; the
    replacement callback is installed on that render target only; the
    callback that was saved is not a replacement callback. *)
Record consistent (this : GUITextureEditor) : Prop := {
  consistent_current :
    ∀ i, _currentRenderTarget this = Some i →
      i < length (textures this) ∧ is_Some (_dynamicTexture this);
  consistent_preview :
    ∀ j rt, textures this !! j = Some rt → isPreview (onAfterRender rt) →
      _currentRenderTarget this = Some j;
  consistent_saved : ¬ isPreview (_currentOnAfterRender this);
}.

(** No render target is previewed. *)
Record idle (this : GUITextureEditor) : Prop := {
  idle_current : _currentRenderTarget this = None;
  idle_preview :
    ∀ j rt, textures this !! j = Some rt → ¬ isPreview (onAfterRender rt);
  idle_saved : ¬ isPreview (_currentOnAfterRender this);
}.

(** The editors that the handlers can make of a new one, in a scene whose
    textures have callbacks of other code only. *)
Inductive reachable : GUITextureEditor → Prop :=
  | reachable_create objectName object propertyPath sceneTextures files :
      Forall (λ t, ¬ isPreview (onAfterRender t)) sceneTextures →
      reachable (create objectName object propertyPath sceneTextures files)
  | reachable_onClick selected this :
      reachable this → reachable (stateOf (onClick selected this))
  | reachable_afterRender i faceIndex pixels this :
      reachable this → reachable (stateOf (afterRender i faceIndex pixels this))
  | reachable_onApply this :
      reachable this → reachable (onApply this)
  | reachable_onchange files this :
      reachable this → reachable (onchange files this)
  | reachable_readFinished k data this :
      reachable this → reachable (stateOf (readFinished k data this))
  | reachable_onEvent ev this :
      reachable this → reachable (after (onEvent ev this))
  | reachable_onReload this :
      reachable this → reachable (onReload this).

(** The rows of the grid are those that [_fillTextureList] makes of the
    scene's textures. *)
Definition mirrored (this : GUITextureEditor) : Prop :=
  _texturesList this =
  imap (λ i t, {| row_name := name t; recid := Z.of_nat i |}) (textures this).

(** [selected[0]] is a position in the scene's texture list. *)
Definition inRange (selected : list Z) (this : GUITextureEditor) : Prop :=
  match selected with
  | [] => True
  | index :: _ => (0 ≤ index < Z.of_nat (length (textures this)))%Z
  end.

(** The texture is in [FilesInput.FilesTextures] under its name. *)
Definition inFilesTextures (selectedTexture : BaseTexture) (this : GUITextureEditor)
    : bool :=
  match name selectedTexture with
  | Some textureName => bool_decide (is_Some (filesTextures this !! textureName))
  | None => false
  end.

(** The two early returns of the click handler that come before the
    assignment, on a texture that has a name. *)
Definition skipped (selectedTexture : BaseTexture) (this : GUITextureEditor) : bool :=
  match name selectedTexture with
  | Some textureName =>
      negb (indexOf ".hdr" (toLowerCase textureName) =? -1)%Z
      || (negb (truthy (_buffer selectedTexture))
          && negb (bool_decide (is_Some (filesTextures this !! textureName)))
          && isCube selectedTexture)
  | None => false
  end.

(** Where the click handler uses the serialization object: it writes a
    member of it for a texture with a [_buffer] or an entry in
    [FilesInput.FilesTextures], and else gives it to [Texture.Parse] for a
    texture that is neither a cube texture nor a render target. *)
Definition needsSerialization (selectedTexture : BaseTexture) (this : GUITextureEditor)
    : bool :=
  truthy (_buffer selectedTexture)
  || inFilesTextures selectedTexture this
  || (negb (isCube selectedTexture) && negb (isRenderTarget selectedTexture)).

(** [serialize()] gives an object for the texture, whatever callback is
    installed on it. *)
Definition serializable (selectedTexture : BaseTexture) : Prop :=
  ∀ cb, is_Some (serialize (set_onAfterRender cb selectedTexture)).

End methods.

(** *** A scene to try the editor on *)

(** A [serialize] that gives [null] for a texture without a name, as the
    engine's does. *)
Definition demoSerialize (t : BaseTexture) : option SerializationObject :=
  if truthy (name t) then
    Some {| ser_name := default "" (name t); ser_base64String := None; ser_rest := 0 |}
  else None.

Definition demoCreate (data name : string) : BaseTexture :=
  {| name := Some ("data:" +:+ name); _buffer := Some data; url := "data:" +:+ name;
     isCube := false; isRenderTarget := false; onAfterRender := None;
     getSize := (0, 0) |}.

Definition wood : BaseTexture :=
  {| name := Some "wood.png"; _buffer := None; url := "textures/wood.png";
     isCube := false; isRenderTarget := false; onAfterRender := None;
     getSize := (4, 4) |}.

Definition sky : BaseTexture :=
  {| name := Some "sky.HDR"; _buffer := None; url := "textures/sky.HDR";
     isCube := true; isRenderTarget := false; onAfterRender := None;
     getSize := (8, 8) |}.

Definition mirror : BaseTexture :=
  {| name := Some "mirror"; _buffer := None; url := "";
     isCube := false; isRenderTarget := true; onAfterRender := Some (Foreign 7);
     getSize := (2, 1) |}.

Definition demoObject : gmap string Value := {[ "diffuseTexture" := VOther ]}.

Definition demoEditor : GUITextureEditor :=
  create (Some "material") (Some demoObject) (Some "diffuseTexture")
    [wood; sky; mirror] ∅.

Definition demoPixels : list Byte.byte :=
  [Byte.x01; Byte.x02; Byte.x03; Byte.xff; Byte.x05; Byte.x06; Byte.x07; Byte.xff].

Definition demoFile : File := {| file_name := "brick.png" |}.

Definition demoData : string := "data:image/png;base64,iVBORw0KGgo=".

Definition skybox : BaseTexture :=
  {| name := Some "skybox"; _buffer := None; url := "textures/skybox";
     isCube := true; isRenderTarget := false; onAfterRender := None;
     getSize := (16, 16) |}.

(** A texture made of raw data, which has no name, and a texture with a
    buffer and an empty name. *)
Definition noise : BaseTexture :=
  {| name := None; _buffer := None; url := "";
     isCube := false; isRenderTarget := false; onAfterRender := None;
     getSize := (2, 2) |}.

Definition blank : BaseTexture :=
  {| name := Some ""; _buffer := Some "data:image/png;base64,AAAA"; url := "";
     isCube := false; isRenderTarget := false; onAfterRender := None;
     getSize := (1, 1) |}.

(** An editor on a scene with these two. *)
Definition rawEditor : GUITextureEditor :=
  create None (Some demoObject) (Some "diffuseTexture") [wood; noise; blank] ∅.

(** An editor on a material with two texture properties. *)
Definition materialEditor : GUITextureEditor :=
  create (Some "material")
    (Some (<["emissiveTexture" := VTexture 1]> demoObject))
    (Some "diffuseTexture") [wood; sky; mirror] ∅.

(** An editor on a scene with a cube texture. *)
Definition cubeEditor : GUITextureEditor :=
  create None (Some demoObject) (Some "diffuseTexture") [wood; skybox] ∅.

(** The editor while it previews [mirror]. *)
Definition demoPreview : GUITextureEditor :=
  stateOf (onClick demoSerialize [2%Z] demoEditor).

End TextureEditor.

(** * Properties *)

(** ** Writes to a map of flags *)

Lemma applyWrites_cons id b ws m :
  applyWrites ((id, b) :: ws) m = applyWrites ws (setFlag id b m).
Proof. done. Qed.

Lemma lookup_setFlag id b m k :
  setFlag id b m !! k = if decide (id = k) then (λ _, b) <$> m !! k else m !! k.
Proof. unfold setFlag. rewrite lookup_alter. case_decide; by subst. Qed.

Lemma lookup_applyWrites ws : ∀ m k,
  applyWrites ws m !! k =
  match lastWrite k ws with
  | Some b => (λ _, b) <$> m !! k
  | None => m !! k
  end.
Proof.
  induction ws as [|[id b] ws IH]; intros m k; [done|].
  change (applyWrites ((id, b) :: ws) m) with (applyWrites ws (setFlag id b m)).
  rewrite IH. simpl. destruct (lastWrite k ws) as [b'|].
  - rewrite lookup_setFlag. case_decide; [|done].
    by destruct (m !! k).
  - rewrite lookup_setFlag. by repeat case_decide.
Qed.

Lemma applyWrites_app ws1 ws2 m :
  applyWrites (ws1 ++ ws2) m = applyWrites ws2 (applyWrites ws1 m).
Proof. unfold applyWrites. by rewrite foldl_app. Qed.

Lemma lastWrite_app id ws1 ws2 :
  lastWrite id (ws1 ++ ws2) =
  match lastWrite id ws2 with Some b => Some b | None => lastWrite id ws1 end.
Proof.
  induction ws1 as [|w ws1 IH]; simpl.
  - by destruct (lastWrite id ws2).
  - rewrite IH. by destruct (lastWrite id ws2).
Qed.

(** Replaying the same writes changes nothing. *)
Lemma applyWrites_idemp ws m : applyWrites ws (applyWrites ws m) = applyWrites ws m.
Proof.
  apply map_eq; intros k. rewrite !lookup_applyWrites.
  destruct (lastWrite k ws); [|done]. by destruct (m !! k).
Qed.

(** When the ids written are pairwise distinct, the write to [id] decides. *)
Lemma lastWrite_NoDup id b ws :
  NoDup ws.*1 → (id, b) ∈ ws → lastWrite id ws = Some b.
Proof.
  induction ws as [|[id' b'] ws IH]; intros Hnd Hin; [by apply elem_of_nil in Hin|].
  apply NoDup_cons in Hnd as [Hni Hnd]. simpl in *.
  apply elem_of_cons in Hin as [Heq|Hin].
  - inversion Heq; subst id' b'.
    destruct (lastWrite id ws) as [b0|] eqn:E.
    + exfalso. apply Hni. clear -E.
      induction ws as [|[i c] ws IH]; [done|]. simpl in *.
      destruct (lastWrite id ws); [right; by apply IH|].
      case_decide; [|done]. subst. by left.
    + by rewrite decide_True.
  - by rewrite (IH Hnd Hin).
Qed.

Lemma lastWrite_None id ws : id ∉ ws.*1 → lastWrite id ws = None.
Proof.
  induction ws as [|[i c] ws IH]; intros Hni; [done|]. simpl in *.
  apply not_elem_of_cons in Hni as [Hne Hni].
  rewrite (IH Hni). by rewrite decide_False.
Qed.

Lemma lastWrite_is_Some id ws : id ∈ ws.*1 → is_Some (lastWrite id ws).
Proof.
  induction ws as [|[i c] ws IH]; intros Hin; [by apply elem_of_nil in Hin|]. cbn in *.
  destruct (lastWrite id ws); [done|].
  apply elem_of_cons in Hin as [->|Hin]; [by rewrite decide_True|].
  by destruct (IH Hin).
Qed.

(** Writes to the same ids: the later ones decide. *)
Lemma applyWrites_overwrite ws1 ws2 m :
  ws1.*1 = ws2.*1 → applyWrites ws2 (applyWrites ws1 m) = applyWrites ws2 m.
Proof.
  intros Hkeys. apply map_eq; intros k. rewrite !lookup_applyWrites.
  destruct (lastWrite k ws2) as [b|] eqn:E2.
  - destruct (lastWrite k ws1); [|done]. by destruct (m !! k).
  - destruct (lastWrite k ws1) as [b|] eqn:E1; [|done]. exfalso.
    destruct (decide (k ∈ ws2.*1)) as [Hin|Hni].
    + apply lastWrite_is_Some in Hin as [? Hin]. congruence.
    + rewrite <- Hkeys in Hni. apply lastWrite_None in Hni. congruence.
Qed.

Lemma is_Some_applyWrites ws m k :
  is_Some (applyWrites ws m !! k) ↔ is_Some (m !! k).
Proof.
  rewrite lookup_applyWrites. destruct (lastWrite k ws); [|done].
  by rewrite fmap_is_Some.
Qed.

(** The write of [x], among writes computed from a list without two elements
    of the same key. *)
Lemma lookup_applyWrites_fmap {A} (key : A → string) (flag : A → bool)
    (l : list A) (x : A) (m : gmap string bool) :
  NoDup (key <$> l) → x ∈ l → is_Some (m !! key x) →
  applyWrites ((λ a, (key a, flag a)) <$> l) m !! key x = Some (flag x).
Proof.
  intros Hnd Hin [b Hb]. rewrite lookup_applyWrites.
  rewrite (lastWrite_NoDup (key x) (flag x)).
  - by rewrite Hb.
  - by rewrite <- list_fmap_compose.
  - apply list_elem_of_fmap. by exists x.
Qed.

Lemma NoDup_fmap_inj_on {A B} (f : A → B) (l : list A) (x y : A) :
  NoDup (f <$> l) → x ∈ l → y ∈ l → f x = f y → x = y.
Proof.
  induction l as [|a l IH]; intros Hnd Hx Hy Hf; [by apply elem_of_nil in Hx|].
  rewrite fmap_cons in Hnd. apply NoDup_cons in Hnd as [Hni Hnd].
  apply elem_of_cons in Hx as [->|Hx]; apply elem_of_cons in Hy as [->|Hy]; auto.
  - exfalso. apply Hni. rewrite Hf. apply list_elem_of_fmap. by exists y.
  - exfalso. apply Hni. rewrite <- Hf. apply list_elem_of_fmap. by exists x.
Qed.

(** ** The edition-tools manager *)

Module EditionToolsSpec.
Import EditionTools.

Section manager.
Context {Obj Val : Type}.
Implicit Types (this : EditorEditionTools Obj) (t : IEditionTool Obj).
Implicit Types (object : option Obj) (target : string).

Lemma changeTab_fold target ts : ∀ this,
  foldl (changeTab_each target) this ts =
  set_lastTabName
    (if bool_decide (target ∈ tabName <$> ts) then Some target else lastTabName this)
    (set_containers (applyWrites (changeTabWrites target ts) (containers this)) this).
Proof.
  induction ts as [|t ts IH]; intros this.
  - by destruct this.
  - cbn [foldl]. rewrite IH. unfold changeTab_each. rewrite fmap_cons.
    destruct (decide (tabName t = target)) as [Heq|Hne].
    + rewrite (bool_decide_eq_true_2 _ Heq).
      rewrite (bool_decide_eq_true_2 (target ∈ tabName t :: _)) by (rewrite Heq; left).
      unfold changeTabWrites. rewrite fmap_cons, applyWrites_cons.
      rewrite (bool_decide_eq_true_2 _ Heq).
      destruct this; unfold set_lastTabName, set_containers, show; cbn [lastTabName containers
        tools currentTools currentObject tabs updates finishChange resizes]. f_equal.
      by case_bool_decide.
    + rewrite (bool_decide_eq_false_2 _ Hne).
      assert (bool_decide (target ∈ tabName t :: (tabName <$> ts))
              = bool_decide (target ∈ tabName <$> ts)) as ->.
      { apply bool_decide_ext. rewrite elem_of_cons.
        split; [intros [?|?]; [congruence|done]|by right]. }
      unfold changeTabWrites. rewrite fmap_cons, applyWrites_cons.
      rewrite (bool_decide_eq_false_2 _ Hne).
      by destruct this.
Qed.

Lemma changeTab_eq target this :
  changeTab target this =
  dispatchResize
    (set_lastTabName
       (if bool_decide (target ∈ tabName <$> tools this) then Some target
        else lastTabName this)
       (set_containers
          (applyWrites (changeTabWrites target (tools this)) (containers this)) this)).
Proof. unfold changeTab. by rewrite changeTab_fold. Qed.

Lemma lastTabName_changeTab target this :
  lastTabName (changeTab target this) =
  if bool_decide (target ∈ tabName <$> tools this) then Some target else lastTabName this.
Proof. by rewrite changeTab_eq. Qed.

Lemma containers_changeTab target this :
  containers (changeTab target this) =
  applyWrites (changeTabWrites target (tools this)) (containers this).
Proof. by rewrite changeTab_eq. Qed.

(** The manager at the end of the loop of [setObject]. *)
Lemma setObject_fold object ts : ∀ this ft,
  (foldl (setObject_each object) (this, ft) ts).1 =
  {| tools := tools this;
     currentTools := currentTools this ++ filter (λ t, isSupported t object = true) ts;
     currentObject := currentObject this;
     lastTabName := lastTabName this;
     containers := applyWrites (containerWrites object ts) (containers this);
     tabs := applyWrites (tabWrites object ts) (tabs this);
     updates :=
       updates this ++ ((λ t, (t, object)) <$> filter (λ t, isSupported t object = true) ts);
     finishChange :=
       finishChange this ++
       ((λ t, (t, UndoRedoPush t)) <$> filter (λ t, isSupported t object = true) ts);
     resizes := resizes this |}.
Proof.
  induction ts as [|t ts IH]; intros this ft.
  - destruct this; cbn. by rewrite !app_nil_r.
  - cbn [foldl]. unfold setObject_each at 2.
    unfold containerWrites, tabWrites. rewrite !fmap_cons, !applyWrites_cons.
    destruct (isSupported t object) eqn:E.
    + rewrite IH, filter_cons_True by done.
      destruct this; cbn. by rewrite <- !app_assoc.
    + rewrite IH, filter_cons_False by (by rewrite E).
      by destruct this.
Qed.

(** The tab of [firstTool] at the end of the loop of [setObject]. *)
Lemma setObject_fold_first object ts : ∀ this ft,
  tabName <$> (foldl (setObject_each object) (this, ft) ts).2 =
  let names := tabName <$> filter (λ t, isSupported t object = true) ts in
  let other := match ft with Some f => Some (tabName f) | None => head names end in
  match lastTabName this with
  | Some l => if bool_decide (l ∈ names) then Some l else other
  | None => other
  end.
Proof.
  induction ts as [|t ts IH]; intros this ft.
  - cbn. destruct (lastTabName this), ft; done.
  - cbn [foldl]. unfold setObject_each at 2.
    destruct (isSupported t object) eqn:E.
    + rewrite IH, filter_cons_True by done. rewrite fmap_cons. cbn zeta.
      assert (∀ u r c, lastTabName (set_currentTools c (set_finishChange r
        (set_updates u (tabs_show (tabName t) (show (divId t) this)))))
        = lastTabName this) as -> by done.
      assert (∀ u, lastTabName
        (set_updates u (tabs_show (tabName t) (show (divId t) this)))
        = lastTabName this) as -> by done.
      destruct (lastTabName this) as [l|]; cbn [head].
      * destruct (decide (l ∈ tabName <$> filter (λ t, isSupported t object = true) ts))
          as [Hin|Hni].
        { rewrite !bool_decide_eq_true_2; [done| by right |done]. }
        rewrite (bool_decide_eq_false_2 _ Hni).
        destruct (decide (tabName t = l)) as [Heq|Hne].
        { rewrite !bool_decide_eq_true_2;
            [by rewrite Heq|rewrite Heq; by left|by rewrite Heq]. }
        rewrite !bool_decide_eq_false_2; [by destruct ft| |congruence].
        rewrite elem_of_cons. intros [?|?]; [congruence|done].
      * rewrite bool_decide_eq_false_2 by done. by destruct ft.
    + rewrite IH, filter_cons_False by (by rewrite E).
      by assert (lastTabName (tabs_hide (tabName t) (hide (divId t) this))
        = lastTabName this) as -> by done.
Qed.

Lemma setObject_loop_state object this :
  (setObject_loop object this).1 =
  {| tools := tools this;
     currentTools := supported object this;
     currentObject := currentObject this;
     lastTabName := lastTabName this;
     containers := applyWrites (containerWrites object (tools this)) (containers this);
     tabs := applyWrites (tabWrites object (tools this)) (tabs this);
     updates := updates this ++ ((λ t, (t, object)) <$> supported object this);
     finishChange :=
       finishChange this ++ ((λ t, (t, UndoRedoPush t)) <$> supported object this);
     resizes := resizes this |}.
Proof. unfold setObject_loop. rewrite setObject_fold. by destruct this. Qed.

Lemma setObject_loop_first object this :
  tabName <$> (setObject_loop object this).2 = activeTab object this.
Proof.
  unfold setObject_loop. rewrite setObject_fold_first. unfold activeTab, supported.
  cbn zeta. change (lastTabName (set_currentTools [] this)) with (lastTabName this).
  by assert (∀ l : list (IEditionTool Obj), head (tabName <$> l) = tabName <$> head l)
    as -> by (by intros [|??]).
Qed.

Lemma activeTab_supported object this target :
  activeTab object this = Some target → target ∈ tabName <$> supported object this.
Proof.
  unfold activeTab. intros H.
  assert (tabName <$> head (supported object this) = Some target →
          target ∈ tabName <$> supported object this) as Hhead.
  { destruct (supported object this) as [|t0 l]; [done|].
    cbn. intros [= <-]. by left. }
  destruct (lastTabName this) as [l|]; [|by apply Hhead].
  case_bool_decide; [|by apply Hhead]. by injection H as <-.
Qed.

Lemma activeTab_None object this :
  activeTab object this = None ↔ supported object this = [].
Proof.
  unfold activeTab. split.
  - intros H. destruct (supported object this) as [|t0 l]; [done|]. exfalso.
    destruct (lastTabName this); [case_bool_decide|]; done.
  - intros ->. cbn. destruct (lastTabName this); [|done].
    rewrite bool_decide_eq_false_2; [done|]. by intros ?%elem_of_nil.
Qed.

Lemma supported_tools object this t :
  t ∈ supported object this ↔ t ∈ tools this ∧ isSupported t object = true.
Proof. unfold supported. rewrite list_elem_of_filter. tauto. Qed.

Lemma activeTab_tools object this target :
  activeTab object this = Some target → target ∈ tabName <$> tools this.
Proof.
  intros H%activeTab_supported. apply list_elem_of_fmap in H as (t & -> & Ht).
  apply supported_tools in Ht as [Ht _]. apply list_elem_of_fmap. by exists t.
Qed.

(** [setObject] is its loop, then the change to [activeTab], then the
    assignment of [currentObject]. *)
Lemma setObject_eq object this :
  setObject object this =
  set_currentObject object
    match activeTab object this with
    | Some target => changeTab target (setObject_loop object this).1
    | None => (setObject_loop object this).1
    end.
Proof.
  unfold setObject. rewrite <- setObject_loop_first.
  by destruct (setObject_loop object this) as [st [ft|]].
Qed.

(** The manager after [setObject], member by member. *)
Lemma setObject_state object this :
  setObject object this =
  {| tools := tools this;
     currentTools := supported object this;
     currentObject := object;
     lastTabName :=
       match activeTab object this with
       | Some target => Some target
       | None => lastTabName this
       end;
     containers :=
       match activeTab object this with
       | Some target =>
           applyWrites (containerWrites object (tools this) ++
                        changeTabWrites target (tools this)) (containers this)
       | None => applyWrites (containerWrites object (tools this)) (containers this)
       end;
     tabs := applyWrites (tabWrites object (tools this)) (tabs this);
     updates := updates this ++ ((λ t, (t, object)) <$> supported object this);
     finishChange :=
       finishChange this ++ ((λ t, (t, UndoRedoPush t)) <$> supported object this);
     resizes :=
       match activeTab object this with
       | Some _ => S (resizes this)
       | None => resizes this
       end |}.
Proof.
  rewrite setObject_eq. destruct (activeTab object this) as [target|] eqn:E.
  - rewrite changeTab_eq, setObject_loop_state. cbn.
    rewrite bool_decide_eq_true_2 by (by eapply activeTab_tools).
    by rewrite applyWrites_app.
  - by rewrite setObject_loop_state.
Qed.

(** C1: [setObject] activates, through [changeTab], the tab named
    [lastTabName] when a tool with that tab supports the object, and
    otherwise the tab of the first supported tool in registration order
    ([activeTab]); when no tool supports the object there is no call of
    [changeTab]: [lastTabName] stays and no [resize] event is dispatched. *)
Theorem C1_setObject_activates_tab object this :
  setObject object this =
    set_currentObject object
      match activeTab object this with
      | Some target => changeTab target (setObject_loop object this).1
      | None => (setObject_loop object this).1
      end
  ∧ lastTabName (setObject object this) =
      match activeTab object this with
      | Some target => Some target
      | None => lastTabName this
      end
  ∧ resizes (setObject object this) =
      match activeTab object this with
      | Some _ => S (resizes this)
      | None => resizes this
      end
  ∧ (activeTab object this = None ↔ supported object this = [])
  ∧ (∀ target, activeTab object this = Some target →
       target ∈ tabName <$> supported object this).
Proof.
  split; [apply setObject_eq|]. rewrite setObject_state. cbn.
  repeat split; try apply activeTab_None. apply activeTab_supported.
Qed.

Lemma containers_after_changeTab target this t :
  wf this → t ∈ tools this →
  containers (changeTab target this) !! divId t = Some (bool_decide (tabName t = target)).
Proof.
  intros Hwf Ht. rewrite containers_changeTab. unfold changeTabWrites.
  apply (lookup_applyWrites_fmap divId (λ t, bool_decide (tabName t = target)));
    [apply Hwf|done|by apply Hwf].
Qed.

(** C5: after [changeTab(target)] the container of a registered tool is
    displayed exactly when the tool's tab is [target], so at most one tool
    container is displayed and all the others are hidden; [lastTabName] is
    [target] exactly when a registered tool has that tab, and is unchanged
    otherwise. *)
Theorem C5_changeTab_one_container target this :
  wf this →
  (∀ t, t ∈ tools this →
     if bool_decide (tabName t = target) then containerVisible (changeTab target this) t
     else containerHidden (changeTab target this) t)
  ∧ (∀ t1 t2, t1 ∈ tools this → t2 ∈ tools this →
       containerVisible (changeTab target this) t1 →
       containerVisible (changeTab target this) t2 → t1 = t2)
  ∧ (lastTabName (changeTab target this) = Some target ↔
       target ∈ tabName <$> tools this)
  ∧ (target ∉ tabName <$> tools this →
       lastTabName (changeTab target this) = lastTabName this)
  ∧ tools (changeTab target this) = tools this.
Proof.
  intros Hwf. unfold containerVisible, containerHidden.
  split; [|split; [|split; [|split]]].
  - intros t Ht. rewrite (containers_after_changeTab _ _ _ Hwf Ht).
    by case_bool_decide.
  - intros t1 t2 Ht1 Ht2.
    rewrite !containers_after_changeTab by done.
    intros [= H1%bool_decide_eq_true] [= H2%bool_decide_eq_true].
    apply (NoDup_fmap_inj_on tabName (tools this)); [apply Hwf|done..|congruence].
  - rewrite lastTabName_changeTab. case_bool_decide as Hin; [done|].
    split; [|done]. intros Hl. exfalso. apply Hin. by apply Hwf.
  - intros Hni. rewrite lastTabName_changeTab. by rewrite bool_decide_eq_false_2.
  - by rewrite changeTab_eq.
Qed.

Lemma activeTab_not_unsupported object this t :
  wf this → t ∈ tools this → isSupported t object = false →
  activeTab object this ≠ Some (tabName t).
Proof.
  intros Hwf Ht Hns H%activeTab_supported.
  apply list_elem_of_fmap in H as (t' & Heq & [Ht' Hs]%supported_tools).
  assert (t = t') as <-; [|congruence].
  by apply (NoDup_fmap_inj_on tabName (tools this)); [apply Hwf|..].
Qed.

(** C2: after [setObject(object)] the tab of a registered tool is shown and
    the tool is in [currentTools] exactly when the tool supports the object;
    [currentTools] is the list of the supported tools in registration
    order; the tab and the container of an unsupported tool are hidden. *)
Theorem C2_setObject_shows_supported object this t :
  wf this → t ∈ tools this →
  (tabShown (setObject object this) t ↔ isSupported t object = true)
  ∧ (t ∈ currentTools (setObject object this) ↔ isSupported t object = true)
  ∧ currentTools (setObject object this) =
      filter (λ t, isSupported t object = true) (tools this)
  ∧ (isSupported t object = false →
       tabHidden (setObject object this) t ∧ containerHidden (setObject object this) t).
Proof.
  intros Hwf Ht. rewrite setObject_state. unfold tabShown, tabHidden, containerHidden.
  cbn [tabs currentTools containers].
  assert (applyWrites (tabWrites object (tools this)) (tabs this) !! tabName t
          = Some (negb (isSupported t object))) as Htab.
  { apply (lookup_applyWrites_fmap tabName (λ t, negb (isSupported t object)));
      [apply Hwf|done|by apply Hwf]. }
  rewrite Htab. split; [|split; [|split]].
  - destruct (isSupported t object); naive_solver.
  - rewrite supported_tools. tauto.
  - done.
  - intros Hns. rewrite Hns. split; [done|]. unfold containerWrites, changeTabWrites.
    destruct (activeTab object this) as [target|] eqn:E.
    + rewrite applyWrites_app.
      rewrite (lookup_applyWrites_fmap divId (λ t, bool_decide (tabName t = target)));
        [|apply Hwf|done|apply is_Some_applyWrites; by apply Hwf].
      rewrite bool_decide_eq_false_2; [done|]. intros Heq.
      apply (activeTab_not_unsupported object this t); congruence.
    + rewrite (lookup_applyWrites_fmap divId (λ t, isSupported t object));
        [by rewrite Hns|apply Hwf|done|by apply Hwf].
Qed.

(** C6: during [setObject(object)] one callback is installed for each
    supported tool, in registration order; called with a finished change it
    pushes exactly one undo/redo entry, whose [baseObject] is the tool's
    object, whose [from] is the initial value and whose [to] is the
    result. *)
Theorem C6_setObject_installs_undo (object : option Obj) this t
    (objectOf : IEditionTool Obj → option Obj) (property : string)
    (result initialValue : Val) (changed : option Obj)
    (stack : list (UndoRedoEntry Obj Val)) :
  t ∈ tools this → isSupported t object = true →
  finishChange (setObject object this) =
    finishChange this ++ ((λ t, (t, UndoRedoPush t)) <$> supported object this)
  ∧ (t, UndoRedoPush t) ∈ ((λ t, (t, UndoRedoPush t)) <$> supported object this)
  ∧ finishChange_call (UndoRedoPush t) objectOf property result changed initialValue stack =
      stack ++ [ {| baseObject := objectOf t; property := property; to := result;
                    from := initialValue; EditionTools.object := changed |} ].
Proof.
  intros Ht Hs. rewrite setObject_state. split; [done|]. split; [|done].
  apply list_elem_of_fmap. exists t. split; [done|]. by apply supported_tools.
Qed.

Lemma activeTab_setObject object this :
  activeTab object (setObject object this) = activeTab object this.
Proof.
  destruct (activeTab object this) as [target|] eqn:E.
  - pose proof (activeTab_supported _ _ _ E) as Hin.
    unfold activeTab, supported. rewrite setObject_state. cbn [lastTabName tools].
    rewrite E. fold (supported object this). by rewrite bool_decide_eq_true_2.
  - apply activeTab_None. apply activeTab_None in E.
    unfold supported in *. by rewrite setObject_state.
Qed.

Lemma supported_setObject object object' this :
  supported object' (setObject object this) = supported object' this.
Proof. unfold supported. by rewrite setObject_state. Qed.

(** C10: a second [setObject(object)] changes neither [currentTools], nor
    the tabs and containers that are shown, nor [lastTabName], nor
    [currentObject]; so [refresh()] after [setObject(object)] keeps the
    active tab. *)
Theorem C10_setObject_idempotent object this :
  tools (setObject object (setObject object this)) = tools (setObject object this)
  ∧ currentTools (setObject object (setObject object this)) =
      currentTools (setObject object this)
  ∧ tabs (setObject object (setObject object this)) = tabs (setObject object this)
  ∧ containers (setObject object (setObject object this)) =
      containers (setObject object this)
  ∧ lastTabName (setObject object (setObject object this)) =
      lastTabName (setObject object this)
  ∧ currentObject (setObject object (setObject object this)) = object
  ∧ currentObject (setObject object this) = object
  ∧ refresh (setObject object this) = setObject object (setObject object this).
Proof.
  assert (currentObject (setObject object this) = object) as Hcur
    by (by rewrite setObject_state).
  rewrite (setObject_state object (setObject object this)).
  rewrite activeTab_setObject, supported_setObject.
  cbn [tools currentTools tabs containers lastTabName currentObject].
  unfold refresh. rewrite Hcur.
  rewrite (setObject_state object (setObject object this)).
  rewrite activeTab_setObject, supported_setObject.
  rewrite (setObject_state object this).
  cbn [tools currentTools tabs containers lastTabName currentObject].
  repeat split.
  - apply applyWrites_idemp.
  - destruct (activeTab object this); apply applyWrites_idemp.
  - by destruct (activeTab object this).
Qed.

(** *** The states of a manager are well formed *)

Lemma wf_create : wf (create (Obj := Obj)).
Proof.
  split; cbn; try apply NoDup_nil_2; try (by intros ? ?%elem_of_nil); done.
Qed.

Lemma wf_changeTab target this : wf this → wf (changeTab target this).
Proof.
  intros Hwf. rewrite changeTab_eq. split; cbn; try apply Hwf.
  - intros t Ht. apply is_Some_applyWrites. by apply Hwf.
  - intros l. case_bool_decide; [by intros [= <-]|apply Hwf].
Qed.

Lemma wf_setObject object this : wf this → wf (setObject object this).
Proof.
  intros Hwf. rewrite setObject_state. split; cbn; try apply Hwf.
  - intros t Ht. destruct (activeTab object this);
      apply is_Some_applyWrites; by apply Hwf.
  - intros t Ht. apply is_Some_applyWrites. by apply Hwf.
  - intros l. destruct (activeTab object this) as [target|] eqn:E; [|apply Hwf].
    intros [= <-]. by eapply activeTab_tools.
Qed.

Lemma addTool_state tool this :
  addTool tool this =
  {| tools := tools this ++ [tool];
     currentTools := currentTools this;
     currentObject := currentObject this;
     lastTabName :=
       if falsy (lastTabName this) then Some (tabName tool) else lastTabName this;
     containers :=
       setFlag (divId tool) false
         match containers this !! divId tool with
         | Some _ => containers this
         | None => <[divId tool := true]> (containers this)
         end;
     tabs :=
       setFlag (tabName tool) true
         match tabs this !! tabName tool with
         | Some _ => tabs this
         | None => <[tabName tool := false]> (tabs this)
         end;
     updates := updates this;
     finishChange := finishChange this;
     resizes := resizes this |}.
Proof.
  unfold addTool, appendDiv, tabs_add, tabs_hide, hide. destruct this; cbn.
  destruct (containers0 !! divId tool); cbn;
    destruct (tabs0 !! tabName tool); cbn;
    by destruct (falsy lastTabName0).
Qed.

Lemma wf_addTool tool this :
  wf this →
  tabName tool ∉ tabName <$> tools this →
  divId tool ∉ divId <$> tools this →
  wf (addTool tool this).
Proof.
  intros Hwf Htab Hdiv. rewrite addTool_state. split; cbn.
  - rewrite fmap_app. apply NoDup_app. split; [apply Hwf|]. split.
    + intros x Hx [->|?%elem_of_nil]%elem_of_cons; done.
    + apply NoDup_singleton.
  - rewrite fmap_app. apply NoDup_app. split; [apply Hwf|]. split.
    + intros x Hx [->|?%elem_of_nil]%elem_of_cons; done.
    + apply NoDup_singleton.
  - intros t Ht. rewrite lookup_setFlag. case_decide as Hd.
    + rewrite <- Hd. apply fmap_is_Some.
      destruct (containers this !! divId tool) eqn:E; [by rewrite E|].
      by rewrite lookup_insert_eq.
    + apply elem_of_app in Ht as [Ht|[->|?%elem_of_nil]%elem_of_cons]; try done.
      destruct (containers this !! divId tool) eqn:E; [by apply Hwf|].
      rewrite lookup_insert_ne by done. by apply Hwf.
  - intros t Ht. rewrite lookup_setFlag. case_decide as Hd.
    + rewrite <- Hd. apply fmap_is_Some.
      destruct (tabs this !! tabName tool) eqn:E; [by rewrite E|].
      by rewrite lookup_insert_eq.
    + apply elem_of_app in Ht as [Ht|[->|?%elem_of_nil]%elem_of_cons]; try done.
      destruct (tabs this !! tabName tool) eqn:E; [by apply Hwf|].
      rewrite lookup_insert_ne by done. by apply Hwf.
  - intros l. rewrite fmap_app. destruct (falsy (lastTabName this)).
    + intros [= <-]. apply elem_of_app. right. by left.
    + intros Hl. apply elem_of_app. left. by apply Hwf.
Qed.

Lemma reachable_wf this : reachable this → wf this.
Proof.
  induction 1; auto using wf_create, wf_addTool, wf_setObject, wf_changeTab.
Qed.

End manager.

Lemma tools_demo : tools demo = [sceneTool; nodeTool; lightTool].
Proof. unfold demo. by rewrite !addTool_state. Qed.

Lemma wf_demo : wf demo.
Proof.
  apply reachable_wf. unfold demo.
  repeat apply reachable_addTool; try apply reachable_create.
  all: rewrite ?addTool_state; cbn; rewrite ?not_elem_of_cons.
  all: repeat split; (done || apply not_elem_of_nil).
Qed.

(** Selecting a light when the last tab is [Scene]: the first supported tool
    is the node tool. *)
Example setObject_first_supported :
  lastTabName demo = Some "Scene"
  ∧ activeTab (Some 2) demo = Some "Node"
  ∧ lastTabName (setObject (Some 2) demo) = Some "Node"
  ∧ tabName <$> currentTools (setObject (Some 2) demo) = ["Node"; "Light"].
Proof. by vm_compute. Qed.

(** Selecting a light when the last tab is [Light]: the tab stays. *)
Example setObject_keeps_last_tab :
  lastTabName (setObject (Some 2) (changeTab "Light" demo)) = Some "Light"
  ∧ containers (setObject (Some 2) (changeTab "Light" demo)) !! "LIGHT-TOOL" = Some true
  ∧ containers (setObject (Some 2) (changeTab "Light" demo)) !! "NODE-TOOL" = Some false.
Proof. by vm_compute. Qed.

(** Selecting an object that no tool supports: no tab change. *)
Example setObject_unsupported :
  activeTab (Some 9) demo = None
  ∧ lastTabName (setObject (Some 9) demo) = Some "Scene"
  ∧ resizes (setObject (Some 9) demo) = 0
  ∧ currentTools (setObject (Some 9) demo) = [].
Proof. by vm_compute. Qed.

Lemma C2_setObject_shows_supported_witness :
  wf demo ∧ nodeTool ∈ tools demo
  ∧ ((tabShown (setObject (Some 2) demo) nodeTool ↔ isSupported nodeTool (Some 2) = true)
     ∧ (nodeTool ∈ currentTools (setObject (Some 2) demo) ↔
          isSupported nodeTool (Some 2) = true)
     ∧ currentTools (setObject (Some 2) demo) =
         filter (λ t, isSupported t (Some 2) = true) (tools demo)
     ∧ (isSupported nodeTool (Some 2) = false →
          tabHidden (setObject (Some 2) demo) nodeTool
          ∧ containerHidden (setObject (Some 2) demo) nodeTool)).
Proof.
  assert (nodeTool ∈ tools demo) as Hin by (rewrite tools_demo; right; left).
  split; [exact wf_demo|]. split; [exact Hin|].
  exact (C2_setObject_shows_supported (Some 2) demo nodeTool wf_demo Hin).
Defined.

Lemma C5_changeTab_one_container_witness :
  wf demo
  ∧ (∀ t, t ∈ tools demo →
       if bool_decide (tabName t = "Node") then containerVisible (changeTab "Node" demo) t
       else containerHidden (changeTab "Node" demo) t)
  ∧ lastTabName (changeTab "Node" demo) = Some "Node".
Proof.
  split; [exact wf_demo|].
  destruct (C5_changeTab_one_container "Node" demo wf_demo) as (Hc & _ & Hl & _).
  split; [exact Hc|]. apply Hl. rewrite tools_demo. right; left.
Defined.

Lemma C6_setObject_installs_undo_witness :
  lightTool ∈ tools demo ∧ isSupported lightTool (Some 2) = true
  ∧ finishChange (setObject (Some 2) demo) =
      [(nodeTool, UndoRedoPush nodeTool); (lightTool, UndoRedoPush lightTool)]
  ∧ finishChange_call (UndoRedoPush lightTool) (λ _, Some 2) "intensity" 5 (Some 2) 3 [] =
      [ {| baseObject := Some 2; property := "intensity"; to := 5; from := 3;
           EditionTools.object := Some 2 |} ].
Proof.
  assert (lightTool ∈ tools demo) as Hin by (rewrite tools_demo; right; right; left).
  split; [exact Hin|]. split; [reflexivity|].
  destruct (C6_setObject_installs_undo (Val := nat) (Some 2) demo lightTool (λ _, Some 2)
              "intensity" 5 3 (Some 2) [] Hin eq_refl) as (Hf & _ & Hc).
  split; [|exact Hc]. rewrite Hf. unfold supported. rewrite tools_demo. reflexivity.
Defined.

(** *** Registration, tab changes and selections together *)

Section registration.
Context {Obj : Type}.
Implicit Types (this : EditorEditionTools Obj) (t tool : IEditionTool Obj).
Implicit Types (object : option Obj) (target : string).

Lemma tabs_addTool tool this (k : string) :
  tabs (addTool tool this) !! k =
  if decide (k = tabName tool) then Some true else tabs this !! k.
Proof.
  rewrite addTool_state. cbn. rewrite lookup_setFlag.
  destruct (decide (tabName tool = k)) as [<-|Hne].
  - rewrite decide_True by done.
    destruct (tabs this !! tabName tool) eqn:E; [by rewrite E|].
    by rewrite lookup_insert_eq.
  - rewrite decide_False by done.
    destruct (tabs this !! tabName tool); [done|]. by rewrite lookup_insert_ne.
Qed.

Lemma containers_addTool tool this (k : string) :
  containers (addTool tool this) !! k =
  if decide (k = divId tool) then Some false else containers this !! k.
Proof.
  rewrite addTool_state. cbn. rewrite lookup_setFlag.
  destruct (decide (divId tool = k)) as [<-|Hne].
  - rewrite decide_True by done.
    destruct (containers this !! divId tool) eqn:E; [by rewrite E|].
    by rewrite lookup_insert_eq.
  - rewrite decide_False by done.
    destruct (containers this !! divId tool); [done|]. by rewrite lookup_insert_ne.
Qed.

Lemma construct_snoc (ts : list (IEditionTool Obj)) tool :
  construct (ts ++ [tool]) = addTool tool (construct ts).
Proof. unfold construct. by rewrite foldl_app. Qed.

Lemma construct_state (ts : list (IEditionTool Obj)) :
  tools (construct ts) = ts
  ∧ currentTools (construct ts) = []
  ∧ currentObject (construct ts) = None
  ∧ updates (construct ts) = []
  ∧ finishChange (construct ts) = []
  ∧ resizes (construct ts) = 0.
Proof.
  induction ts as [|tool ts IH] using rev_ind; [done|].
  rewrite construct_snoc, addTool_state. cbn.
  by destruct IH as (-> & -> & -> & -> & -> & ->).
Qed.

Lemma construct_wf (ts : list (IEditionTool Obj)) :
  NoDup (tabName <$> ts) → NoDup (divId <$> ts) → wf (construct ts).
Proof.
  induction ts as [|tool ts IH] using rev_ind; intros Ht Hd; [apply wf_create|].
  rewrite fmap_app in Ht, Hd.
  apply NoDup_app in Ht as (Ht & Hti & _). apply NoDup_app in Hd as (Hd & Hdi & _).
  rewrite construct_snoc. apply wf_addTool; [by apply IH|..].
  - destruct (construct_state ts) as (-> & _). intros Hin.
    apply (Hti _ Hin). by left.
  - destruct (construct_state ts) as (-> & _). intros Hin.
    apply (Hdi _ Hin). by left.
Qed.

(** The first tab name that is not empty, or the empty name of the tools
    when all are empty. *)
Lemma construct_lastTabName (ts : list (IEditionTool Obj)) :
  lastTabName (construct ts) =
  match head (filter (λ n, n ≠ "") (tabName <$> ts)) with
  | Some n => Some n
  | None => (λ _, "") <$> head ts
  end.
Proof.
  induction ts as [|tool ts IH] using rev_ind; [done|].
  rewrite construct_snoc, addTool_state. cbn [lastTabName]. rewrite IH.
  rewrite fmap_app, filter_app. cbn [fmap list_fmap].
  destruct (filter (λ n, n ≠ "") (tabName <$> ts)) as [|n l] eqn:E; cbn [head app].
  - destruct (decide (tabName tool = "")) as [Hempty|Hne].
    + rewrite filter_cons_False by naive_solver. cbn.
      destruct ts; cbn; by rewrite ?Hempty.
    + rewrite filter_cons_True by done. cbn. by destruct ts.
  - assert (n ≠ "") as Hn.
    { assert (n ∈ filter (λ n, n ≠ "") (tabName <$> ts)) as Hin by (rewrite E; left).
      by apply list_elem_of_filter in Hin as [? _]. }
    cbn. by rewrite bool_decide_eq_false_2.
Qed.

(** X1: the constructor, for tools with pairwise distinct tab names and div
    ids: the tools are registered in the order given, none is current, the
    tab and the container of each are hidden, and [lastTabName] is the first
    tab name that is not empty. *)
Theorem X1_constructor_hides_all (ts : list (IEditionTool Obj)) :
  NoDup (tabName <$> ts) →
  NoDup (divId <$> ts) →
  tools (construct ts) = ts
  ∧ currentTools (construct ts) = []
  ∧ currentObject (construct ts) = None
  ∧ (∀ t, t ∈ ts → tabHidden (construct ts) t ∧ containerHidden (construct ts) t)
  ∧ lastTabName (construct ts) =
      match head (filter (λ n, n ≠ "") (tabName <$> ts)) with
      | Some n => Some n
      | None => (λ _, "") <$> head ts
      end
  ∧ wf (construct ts).
Proof.
  intros Ht Hd. destruct (construct_state ts) as (Htools & Hcur & Hobj & _).
  do 3 (split; [done|]). split; [|split; [apply construct_lastTabName|by apply construct_wf]].
  clear Htools Hcur Hobj. unfold tabHidden, containerHidden.
  induction ts as [|tool ts IH] using rev_ind; intros t Hin; [by apply elem_of_nil in Hin|].
  rewrite fmap_app in Ht, Hd.
  apply NoDup_app in Ht as (Ht & Hti & _). apply NoDup_app in Hd as (Hd & Hdi & _).
  rewrite construct_snoc, tabs_addTool, containers_addTool.
  apply elem_of_app in Hin as [Hin|[->|?%elem_of_nil]%elem_of_cons]; [|by rewrite !decide_True|done].
  rewrite !decide_False; [by apply IH| |].
  - intros Heq. apply (Hdi (divId t)); [apply list_elem_of_fmap; by exists t|].
    rewrite Heq. by left.
  - intros Heq. apply (Hti (tabName t)); [apply list_elem_of_fmap; by exists t|].
    rewrite Heq. by left.
Qed.

(** X2: [addTool] of a tool whose tab name and div id are new leaves the tab
    and the container of every registered tool as they are, and adds the tool
    last with its tab and its container hidden; a [lastTabName] that is not
    empty is kept. *)
Theorem X2_addTool_keeps_others tool this t :
  tabName tool ∉ tabName <$> tools this →
  divId tool ∉ divId <$> tools this →
  t ∈ tools this →
  tools (addTool tool this) = tools this ++ [tool]
  ∧ currentTools (addTool tool this) = currentTools this
  ∧ tabs (addTool tool this) !! tabName t = tabs this !! tabName t
  ∧ containers (addTool tool this) !! divId t = containers this !! divId t
  ∧ tabHidden (addTool tool this) tool
  ∧ containerHidden (addTool tool this) tool
  ∧ (∀ l, lastTabName this = Some l → l ≠ "" → lastTabName (addTool tool this) = Some l).
Proof.
  intros Htab Hdiv Hin. unfold tabHidden, containerHidden.
  assert (tabName t ≠ tabName tool) as Hnt.
  { intros Heq. apply Htab. rewrite <- Heq. apply list_elem_of_fmap. by exists t. }
  assert (divId t ≠ divId tool) as Hnd.
  { intros Heq. apply Hdiv. rewrite <- Heq. apply list_elem_of_fmap. by exists t. }
  split; [by rewrite addTool_state|]. split; [by rewrite addTool_state|].
  split; [by rewrite tabs_addTool, decide_False|].
  split; [by rewrite containers_addTool, decide_False|].
  split; [by rewrite tabs_addTool, decide_True|].
  split; [by rewrite containers_addTool, decide_True|].
  intros l Hl Hne. rewrite addTool_state. cbn. rewrite Hl. cbn.
  by rewrite bool_decide_eq_false_2.
Qed.

End registration.

Lemma X1_constructor_hides_all_witness :
  NoDup (tabName <$> [sceneTool; nodeTool; lightTool])
  ∧ NoDup (divId <$> [sceneTool; nodeTool; lightTool])
  ∧ tools (construct [sceneTool; nodeTool; lightTool]) = [sceneTool; nodeTool; lightTool]
  ∧ (∀ t, t ∈ [sceneTool; nodeTool; lightTool] →
       tabHidden (construct [sceneTool; nodeTool; lightTool]) t
       ∧ containerHidden (construct [sceneTool; nodeTool; lightTool]) t)
  ∧ lastTabName (construct [sceneTool; nodeTool; lightTool]) = Some "Scene".
Proof.
  assert (NoDup (tabName <$> [sceneTool; nodeTool; lightTool])) as Ht
    by compute_done.
  assert (NoDup (divId <$> [sceneTool; nodeTool; lightTool])) as Hd
    by compute_done.
  destruct (X1_constructor_hides_all [sceneTool; nodeTool; lightTool] Ht Hd)
    as (H1 & _ & _ & H2 & H3 & _).
  exact (conj Ht (conj Hd (conj H1 (conj H2 H3)))).
Defined.

Lemma X2_addTool_keeps_others_witness :
  (tabName lightTool ∉ tabName <$> tools (construct [sceneTool; nodeTool]))
  ∧ (divId lightTool ∉ divId <$> tools (construct [sceneTool; nodeTool]))
  ∧ sceneTool ∈ tools (construct [sceneTool; nodeTool])
  ∧ tools (addTool lightTool (construct [sceneTool; nodeTool])) =
      [sceneTool; nodeTool; lightTool]
  ∧ tabHidden (addTool lightTool (construct [sceneTool; nodeTool])) lightTool.
Proof.
  assert (tools (construct [sceneTool; nodeTool]) = [sceneTool; nodeTool]) as Htools
    by (by destruct (construct_state (Obj := nat) [sceneTool; nodeTool]) as (-> & _)).
  assert (tabName lightTool ∉ tabName <$> tools (construct [sceneTool; nodeTool])) as Ht.
  { rewrite Htools. compute_done. }
  assert (divId lightTool ∉ divId <$> tools (construct [sceneTool; nodeTool])) as Hd.
  { rewrite Htools. compute_done. }
  assert (sceneTool ∈ tools (construct [sceneTool; nodeTool])) as Hin
    by (rewrite Htools; left).
  destruct (X2_addTool_keeps_others lightTool (construct [sceneTool; nodeTool]) sceneTool
              Ht Hd Hin) as (H1 & _ & _ & _ & H2 & _).
  rewrite Htools in H1.
  exact (conj Ht (conj Hd (conj Hin (conj H1 H2)))).
Defined.

(** *** Selections and tab changes *)

Section selection.
Context {Obj : Type}.
Implicit Types (this : EditorEditionTools Obj) (t tool : IEditionTool Obj).
Implicit Types (object : option Obj) (target : string).

Lemma tools_setObject object this : tools (setObject object this) = tools this.
Proof. by rewrite setObject_state. Qed.

Lemma currentObject_setObject object this : currentObject (setObject object this) = object.
Proof. by rewrite setObject_state. Qed.

Lemma tabs_setObject object this t :
  wf this → t ∈ tools this →
  tabs (setObject object this) !! tabName t = Some (negb (isSupported t object)).
Proof.
  intros Hwf Ht. rewrite setObject_state. cbn [tabs]. unfold tabWrites.
  apply (lookup_applyWrites_fmap tabName (λ t, negb (isSupported t object)));
    [apply Hwf|done|by apply Hwf].
Qed.

Lemma containers_setObject object this t :
  wf this → t ∈ tools this →
  containers (setObject object this) !! divId t =
  Some (bool_decide (activeTab object this = Some (tabName t))).
Proof.
  intros Hwf Ht. rewrite setObject_state. cbn [containers].
  unfold containerWrites, changeTabWrites.
  destruct (activeTab object this) as [target|] eqn:E.
  - rewrite applyWrites_app.
    rewrite (lookup_applyWrites_fmap divId (λ t, bool_decide (tabName t = target)));
      [|apply Hwf|done|apply is_Some_applyWrites; by apply Hwf].
    f_equal. apply bool_decide_ext. naive_solver.
  - rewrite (lookup_applyWrites_fmap divId (λ t, isSupported t object));
      [|apply Hwf|done|by apply Hwf].
    apply activeTab_None in E. rewrite bool_decide_eq_false_2 by done.
    destruct (isSupported t object) eqn:Hs; [|done].
    assert (t ∈ supported object this) as Hin by (by apply supported_tools).
    rewrite E in Hin. by apply elem_of_nil in Hin.
Qed.

(** X3: in every state that registrations of tools with new ids, selections
    and tab changes lead to, the registered tools have pairwise distinct tab
    names and div ids, each has its tab and its container, [lastTabName] is
    [null] or the tab of a registered tool, and [currentTools] is a sublist
    of [tools]. *)
Theorem X3_reachable_invariant this :
  reachable this → wf this ∧ currentTools this `sublist_of` tools this.
Proof.
  intros Hr. split; [by apply reachable_wf|].
  induction Hr as [|tool this _ IH _ _|object this _ _|target this _ IH].
  - done.
  - rewrite addTool_state. cbn. by apply sublist_inserts_r.
  - rewrite setObject_state. cbn. apply sublist_filter.
  - by rewrite changeTab_eq.
Qed.

(** X4: after [setObject(object)], the container of a registered tool is
    displayed exactly when the tool's tab is the active one; that tool
    supports the object, is in [currentTools] and has its tab shown; and when
    some tool supports the object, one container is displayed. *)
Theorem X4_setObject_displays_active object this t :
  wf this → t ∈ tools this →
  (containerVisible (setObject object this) t ↔ activeTab object this = Some (tabName t))
  ∧ (containerHidden (setObject object this) t ↔ activeTab object this ≠ Some (tabName t))
  ∧ (containerVisible (setObject object this) t →
       isSupported t object = true
       ∧ t ∈ currentTools (setObject object this)
       ∧ tabShown (setObject object this) t)
  ∧ (supported object this ≠ [] →
       ∃ t', t' ∈ tools this ∧ containerVisible (setObject object this) t').
Proof.
  intros Hwf Ht. unfold containerVisible, containerHidden, tabShown.
  rewrite (containers_setObject object this t Hwf Ht).
  split; [|split; [|split]].
  - case_bool_decide; naive_solver.
  - case_bool_decide; naive_solver.
  - intros [= Ha%bool_decide_eq_true].
    assert (isSupported t object = true) as Hs.
    { destruct (isSupported t object) eqn:Hs; [done|].
      by destruct (activeTab_not_unsupported object this t). }
    split; [done|]. split.
    + rewrite setObject_state. cbn. by apply supported_tools.
    + by rewrite tabs_setObject, Hs.
  - intros Hne. destruct (activeTab object this) as [target|] eqn:E;
      [|by apply activeTab_None in E].
    pose proof (activeTab_supported _ _ _ E) as Hin.
    apply list_elem_of_fmap in Hin as (t' & -> & [Ht' _]%supported_tools).
    exists t'. split; [done|].
    rewrite (containers_setObject object this t' Hwf Ht'), E.
    by rewrite bool_decide_eq_true_2.
Qed.

(** X5: the tab that was clicked is remembered: after [changeTab] to the tab
    of a registered tool, [setObject(object)] activates that tab when the
    tool supports the object, and the tab of the first supported tool when it
    does not; with no supported tool the clicked tab stays the last one. *)
Theorem X5_clicked_tab_remembered object this t :
  wf this → t ∈ tools this →
  lastTabName (changeTab (tabName t) this) = Some (tabName t)
  ∧ activeTab object (changeTab (tabName t) this) =
      (if isSupported t object then Some (tabName t)
       else tabName <$> head (supported object this))
  ∧ lastTabName (setObject object (changeTab (tabName t) this)) =
      (if isSupported t object then Some (tabName t)
       else match head (supported object this) with
            | Some t' => Some (tabName t')
            | None => Some (tabName t)
            end).
Proof.
  intros Hwf Ht.
  assert (lastTabName (changeTab (tabName t) this) = Some (tabName t)) as Hl.
  { rewrite lastTabName_changeTab, bool_decide_eq_true_2; [done|].
    apply list_elem_of_fmap. by exists t. }
  assert (supported object (changeTab (tabName t) this) = supported object this) as Hs
    by (unfold supported; by rewrite changeTab_eq).
  assert (activeTab object (changeTab (tabName t) this) =
          (if isSupported t object then Some (tabName t)
           else tabName <$> head (supported object this))) as Ha.
  { unfold activeTab. rewrite Hl, Hs. destruct (isSupported t object) eqn:E.
    - rewrite bool_decide_eq_true_2; [done|].
      apply list_elem_of_fmap. exists t. split; [done|]. by apply supported_tools.
    - rewrite bool_decide_eq_false_2; [done|].
      intros (t' & Heq & [Ht' Hs']%supported_tools)%list_elem_of_fmap.
      assert (t = t') as <-; [|congruence].
      by apply (NoDup_fmap_inj_on tabName (tools this)); [apply Hwf|..]. }
  split; [done|]. split; [done|].
  rewrite setObject_state. cbn [lastTabName]. rewrite Ha, Hl.
  destruct (isSupported t object); [done|]. by destruct (head (supported object this)).
Qed.

(** X6: a tab change touches the containers and [lastTabName] only and
    dispatches one [resize]; of two tab changes in a row the second decides
    which containers are displayed. *)
Theorem X6_changeTab_composes (a b : string) this :
  containers (changeTab b (changeTab a this)) = containers (changeTab b this)
  ∧ lastTabName (changeTab b (changeTab a this)) =
      (if bool_decide (b ∈ tabName <$> tools this) then Some b
       else lastTabName (changeTab a this))
  ∧ tools (changeTab a this) = tools this
  ∧ currentTools (changeTab a this) = currentTools this
  ∧ currentObject (changeTab a this) = currentObject this
  ∧ tabs (changeTab a this) = tabs this
  ∧ resizes (changeTab a this) = S (resizes this).
Proof.
  assert (tools (changeTab a this) = tools this) as Htools by (by rewrite changeTab_eq).
  split; [|split].
  - rewrite (containers_changeTab b (changeTab a this)), Htools.
    rewrite (containers_changeTab a this), (containers_changeTab b this).
    apply applyWrites_overwrite. unfold changeTabWrites.
    by rewrite <- !list_fmap_compose.
  - by rewrite (lastTabName_changeTab b (changeTab a this)), Htools.
  - by rewrite changeTab_eq.
Qed.

(** X7: a tool that is registered after a selection and supports the
    current object is hidden until the next [refresh()], which shows its tab
    and puts it in [currentTools]. *)
Theorem X7_refresh_shows_late_tool tool this :
  wf this →
  tabName tool ∉ tabName <$> tools this →
  divId tool ∉ divId <$> tools this →
  isSupported tool (currentObject this) = true →
  tabHidden (addTool tool this) tool
  ∧ currentTools (addTool tool this) = currentTools this
  ∧ tabShown (refresh (addTool tool this)) tool
  ∧ tool ∈ currentTools (refresh (addTool tool this))
  ∧ currentObject (refresh (addTool tool this)) = currentObject this.
Proof.
  intros Hwf Htab Hdiv Hs.
  pose proof (wf_addTool tool this Hwf Htab Hdiv) as Hwf'.
  assert (tools (addTool tool this) = tools this ++ [tool]) as Htools
    by (by rewrite addTool_state).
  assert (currentObject (addTool tool this) = currentObject this) as Hobj
    by (by rewrite addTool_state).
  assert (tool ∈ tools (addTool tool this)) as Hin
    by (rewrite Htools; apply elem_of_app; right; left).
  unfold tabHidden, tabShown, refresh.
  split; [by rewrite tabs_addTool, decide_True|].
  split; [by rewrite addTool_state|].
  rewrite tabs_setObject, Hobj, Hs by done. split; [done|].
  rewrite setObject_state. cbn. split; [|done].
  by apply supported_tools.
Qed.

(** X8: [setObject(object)] calls [update(object)] once on each tool that
    supports the object, in registration order, and on no other tool; a
    [refresh()] makes the same calls and installs the callbacks once more. *)
Theorem X8_setObject_updates_supported object this :
  updates (setObject object this) =
    updates this ++ ((λ t, (t, object)) <$> supported object this)
  ∧ (∀ t o, (t, o) ∈ ((λ t, (t, object)) <$> supported object this) →
       o = object ∧ t ∈ tools this ∧ isSupported t object = true)
  ∧ updates (refresh (setObject object this)) =
      updates this ++ ((λ t, (t, object)) <$> supported object this)
                   ++ ((λ t, (t, object)) <$> supported object this)
  ∧ finishChange (refresh (setObject object this)) =
      finishChange this ++ ((λ t, (t, UndoRedoPush t)) <$> supported object this)
                        ++ ((λ t, (t, UndoRedoPush t)) <$> supported object this).
Proof.
  split; [by rewrite setObject_state|]. split.
  - intros t o (t' & [= -> ->] & Hin)%list_elem_of_fmap.
    split; [done|]. by apply supported_tools.
  - unfold refresh.
    assert (currentObject (setObject object this) = object) as ->
      by (by rewrite setObject_state).
    rewrite (setObject_state object (setObject object this)), supported_setObject.
    cbn [updates finishChange]. rewrite (setObject_state object this). cbn.
    by rewrite <- !app_assoc.
Qed.

End selection.

Lemma reachable_demo : reachable demo.
Proof.
  unfold demo. repeat apply reachable_addTool; try apply reachable_create.
  all: rewrite ?addTool_state; cbn; rewrite ?not_elem_of_cons.
  all: repeat split; (done || apply not_elem_of_nil).
Qed.

Lemma X3_reachable_invariant_witness :
  reachable (setObject (Some 2) demo)
  ∧ wf (setObject (Some 2) demo)
  ∧ currentTools (setObject (Some 2) demo) `sublist_of` tools (setObject (Some 2) demo).
Proof.
  assert (reachable (setObject (Some 2) demo)) as Hr
    by (apply reachable_setObject, reachable_demo).
  exact (conj Hr (X3_reachable_invariant (setObject (Some 2) demo) Hr)).
Defined.

Lemma X4_setObject_displays_active_witness :
  wf demo ∧ nodeTool ∈ tools demo
  ∧ (containerVisible (setObject (Some 2) demo) nodeTool ↔
       activeTab (Some 2) demo = Some (tabName nodeTool))
  ∧ activeTab (Some 2) demo = Some "Node".
Proof.
  assert (nodeTool ∈ tools demo) as Hin by (rewrite tools_demo; right; left).
  destruct (X4_setObject_displays_active (Some 2) demo nodeTool wf_demo Hin) as (H & _).
  split; [exact wf_demo|]. split; [exact Hin|]. split; [exact H|]. by vm_compute.
Defined.

Lemma X5_clicked_tab_remembered_witness :
  wf demo ∧ lightTool ∈ tools demo
  ∧ lastTabName (setObject (Some 2) (changeTab (tabName lightTool) demo)) = Some "Light"
  ∧ lastTabName (setObject (Some 1) (changeTab (tabName lightTool) demo)) = Some "Node".
Proof.
  assert (lightTool ∈ tools demo) as Hin by (rewrite tools_demo; right; right; left).
  destruct (X5_clicked_tab_remembered (Some 2) demo lightTool wf_demo Hin) as (_ & _ & H2).
  destruct (X5_clicked_tab_remembered (Some 1) demo lightTool wf_demo Hin) as (_ & _ & H1).
  split; [exact wf_demo|]. split; [exact Hin|]. split; [exact H2|].
  rewrite H1. unfold supported. rewrite tools_demo. reflexivity.
Defined.

Lemma X7_refresh_shows_late_tool_witness :
  wf (setObject (Some 2) (construct [sceneTool; nodeTool]))
  ∧ (tabName lightTool ∉
       tabName <$> tools (setObject (Some 2) (construct [sceneTool; nodeTool])))
  ∧ (divId lightTool ∉
       divId <$> tools (setObject (Some 2) (construct [sceneTool; nodeTool])))
  ∧ isSupported lightTool
      (currentObject (setObject (Some 2) (construct [sceneTool; nodeTool]))) = true
  ∧ tabHidden (addTool lightTool (setObject (Some 2) (construct [sceneTool; nodeTool])))
      lightTool
  ∧ tabShown
      (refresh (addTool lightTool (setObject (Some 2) (construct [sceneTool; nodeTool]))))
      lightTool.
Proof.
  assert (wf (setObject (Some 2) (construct [sceneTool; nodeTool]))) as Hwf
    by (apply wf_setObject, construct_wf; compute_done).
  assert (tools (setObject (Some 2) (construct [sceneTool; nodeTool]))
          = [sceneTool; nodeTool]) as Htools.
  { rewrite tools_setObject.
    by destruct (construct_state (Obj := nat) [sceneTool; nodeTool]) as (-> & _). }
  assert (tabName lightTool ∉
            tabName <$> tools (setObject (Some 2) (construct [sceneTool; nodeTool]))) as Ht
    by (rewrite Htools; compute_done).
  assert (divId lightTool ∉
            divId <$> tools (setObject (Some 2) (construct [sceneTool; nodeTool]))) as Hd
    by (rewrite Htools; compute_done).
  assert (isSupported lightTool
            (currentObject (setObject (Some 2) (construct [sceneTool; nodeTool]))) = true)
    as Hs by (by rewrite currentObject_setObject).
  destruct (X7_refresh_shows_late_tool lightTool
              (setObject (Some 2) (construct [sceneTool; nodeTool])) Hwf Ht Hd Hs)
    as (H1 & _ & H2 & _).
  exact (conj Hwf (conj Ht (conj Hd (conj Hs (conj H1 H2))))).
Defined.

End EditionToolsSpec.

(** ** The texture editor panel *)

Module TextureEditorSpec.
Import TextureEditor.

(** *** Strings *)

Lemma prefix_append p s : String.prefix p (p +:+ s) = true.
Proof.
  induction p as [|a p IH]; [by destruct s|].
  change (String a p +:+ s) with (String a (p +:+ s)). cbn.
  by destruct (ascii_dec a a).
Qed.

Lemma dropString_append p s : dropString (String.length p) (p +:+ s) = s.
Proof.
  induction p as [|a p IH]; [by destruct s|].
  by change (String a p +:+ s) with (String a (p +:+ s)).
Qed.

(** A replacement at the start of the string. *)
Lemma replace_prefix p r s : replace p r (p +:+ s) = r +:+ s.
Proof.
  pose proof (prefix_append p s) as Hp. pose proof (dropString_append p s) as Hd.
  destruct (p +:+ s); cbn [replace]; by rewrite Hp, Hd.
Qed.

Example toLowerCase_HDR : toLowerCase "sky.HDR" = "sky.hdr".
Proof. reflexivity. Qed.

Example indexOf_hdr :
  indexOf ".hdr" "sky.hdr" = 3%Z ∧ indexOf ".hdr" "wood.png" = (-1)%Z.
Proof. split; reflexivity. Qed.

Example replace_first_only :
  replace "data:" "" "data:a-data:b" = "a-data:b"
  ∧ replace "data:" "" "x-data:b" = "x-b".
Proof. split; reflexivity. Qed.

(** *** The copy of the pixels *)

Lemma length_copy pixels (ixs : list nat) : ∀ data,
  length (foldl (copyStep pixels) data ixs) = length data.
Proof.
  induction ixs as [|i ixs IH]; intros data; [done|]. cbn [foldl]. rewrite IH.
  unfold copyStep. destruct (pixels !! i); [apply length_insert|done].
Qed.

(** After the first [n] rounds of the loop. *)
Lemma lookup_copy pixels data (k : nat) : ∀ n, n ≤ length pixels →
  foldl (copyStep pixels) data (seq 0 n) !! k =
  if decide (k < n) then (if decide (k < length data) then pixels !! k else None)
  else data !! k.
Proof.
  induction n as [|n IH]; intros Hn; [done|].
  rewrite seq_S, foldl_app. cbn [foldl Nat.add]. unfold copyStep at 1.
  destruct (lookup_lt_is_Some_2 pixels n) as [b Hb]; [lia|]. rewrite Hb.
  destruct (decide (k = n)) as [->|Hne].
  - rewrite decide_True by lia. destruct (decide (n < length data)) as [Hd|Hd].
    + rewrite list_lookup_insert_eq; [done|]. by rewrite length_copy.
    + rewrite list_insert_ge by (rewrite length_copy; lia).
      rewrite IH by lia. rewrite decide_False by lia.
      apply lookup_ge_None. lia.
  - rewrite list_lookup_insert_ne by done. rewrite IH by lia.
    destruct (decide (k < n)), (decide (k < S n)); (done || lia).
Qed.

Lemma copyPixels_length pixels data : length (copyPixels pixels data) = length data.
Proof. apply length_copy. Qed.

(** Byte [i] of the pixels is at [i] in the image data. *)
Lemma copyPixels_lookup pixels data (i : nat) :
  i < length pixels → i < length data → copyPixels pixels data !! i = pixels !! i.
Proof.
  intros Hp Hd. unfold copyPixels. rewrite lookup_copy by done.
  by rewrite !decide_True.
Qed.

Lemma copyPixels_all pixels data :
  length pixels = length data → copyPixels pixels data = pixels.
Proof.
  intros Hlen. apply list_eq. intros k. unfold copyPixels. rewrite lookup_copy by done.
  rewrite <- Hlen. case_decide; [done|].
  rewrite (proj2 (lookup_ge_None pixels k)) by lia. apply lookup_ge_None. lia.
Qed.

(** *** The render-target preview *)

Section preview.
Implicit Types (this : GUITextureEditor) (rt : BaseTexture).

(** C7: while a render target is previewed, the callback that replaces its
    [onAfterRender] first calls the callback that was there before (when
    there was one), then reads the pixels back, copies byte [k] of them to
    [imgData.data[k]], puts the image data on the canvas of the dynamic
    texture and updates it. *)
Theorem C7_preview_after_render (i faceIndex : nat) (pixels : list Byte.byte) this rt
    (width height imgData : nat) (d : DynamicTexture) (data : list Byte.byte) :
  textures this !! i = Some rt →
  onAfterRender rt = Some (Preview width height imgData) →
  _dynamicTexture this = Some d →
  imageData this !! imgData = Some data →
  ∃ this',
    afterRender i faceIndex pixels this = Returned this'
    ∧ log this' =
        log this ++
        match _currentOnAfterRender this with
        | Some cb => [Call cb faceIndex]
        | None => []
        end ++
        [ReadPixels 0 0 width height;
         PutImageData d (copyPixels pixels data) 0 0;
         Update d false]
    ∧ imageData this' !! imgData = Some (copyPixels pixels data)
    ∧ (∀ k, k < length pixels → k < length data →
         copyPixels pixels data !! k = pixels !! k)
    ∧ (length pixels = length data → copyPixels pixels data = pixels)
    ∧ _currentPixels this' = Some pixels.
Proof.
  intros Hrt Hcb Hd Hdata. unfold afterRender. rewrite Hrt, Hcb.
  unfold previewAfterRender. destruct this; cbn in *. subst.
  destruct _currentOnAfterRender0 as [cb|]; cbn;
    rewrite list_lookup_alter_eq, Hdata; cbn;
    (eexists; split; [done|]); cbn;
    rewrite list_lookup_alter_eq, Hdata, <- ?app_assoc;
    (split; [done|]); (split; [done|]);
    (split; [apply copyPixels_lookup|]); (split; [apply copyPixels_all|done]).
Qed.

Lemma renders_TypeError i frames this :
  foldl (λ o frame, andThen o (afterRender i frame.1 frame.2)) (TypeError this) frames
  = TypeError this.
Proof. by induction frames. Qed.

Lemma renders_cons i frame frames this :
  renders i (frame :: frames) this =
  andThen (afterRender i frame.1 frame.2 this) (renders i frames).
Proof.
  unfold renders. cbn. destruct (afterRender i frame.1 frame.2 this); [done|].
  apply renders_TypeError.
Qed.

(** A render while the preview is on changes neither the textures of the
    scene nor what the editor knows of the render target. *)
Lemma afterRender_preview i faceIndex pixels this rt width height imgData d :
  textures this !! i = Some rt →
  onAfterRender rt = Some (Preview width height imgData) →
  _dynamicTexture this = Some d →
  ∃ this',
    afterRender i faceIndex pixels this = Returned this'
    ∧ textures this' = textures this
    ∧ _dynamicTexture this' = Some d
    ∧ _currentRenderTarget this' = _currentRenderTarget this
    ∧ _currentOnAfterRender this' = _currentOnAfterRender this.
Proof.
  intros Hrt Hcb Hd. unfold afterRender. rewrite Hrt, Hcb.
  unfold previewAfterRender. destruct this; cbn in *. subst.
  by destruct _currentOnAfterRender0; cbn; eexists.
Qed.

Lemma renders_preview i frames : ∀ this rt width height imgData d,
  textures this !! i = Some rt →
  onAfterRender rt = Some (Preview width height imgData) →
  _dynamicTexture this = Some d →
  ∃ this',
    renders i frames this = Returned this'
    ∧ textures this' = textures this
    ∧ _dynamicTexture this' = Some d
    ∧ _currentRenderTarget this' = _currentRenderTarget this
    ∧ _currentOnAfterRender this' = _currentOnAfterRender this.
Proof.
  induction frames as [|frame frames IH]; intros this rt width height imgData d Hrt Hcb Hd.
  - by exists this.
  - rewrite renders_cons.
    destruct (afterRender_preview i frame.1 frame.2 this rt width height imgData d)
      as (this1 & -> & Ht & Hd1 & Hc & Hs); [done..|].
    cbn [andThen].
    destruct (IH this1 rt width height imgData d) as (this2 & -> & Ht2 & Hd2 & Hc2 & Hs2);
      [by rewrite Ht|done..|].
    exists this2. repeat split; congruence.
Qed.

Lemma set_onAfterRender_same rt cb :
  set_onAfterRender (onAfterRender rt) (set_onAfterRender cb rt) = rt.
Proof. by destruct rt. Qed.

Lemma configure_returns this (i : nat) rt :
  _currentRenderTarget this = Some i →
  textures this !! i = Some rt →
  ∃ configured,
    _configureRenderTarget this = Returned configured
    ∧ textures configured =
        alter (set_onAfterRender
                 (Some (Preview (getSize rt).1 (getSize rt).2 (length (imageData this)))))
          i (textures this)
    ∧ _currentOnAfterRender configured = onAfterRender rt
    ∧ _currentRenderTarget configured = Some i
    ∧ _dynamicTexture configured =
        Some {| dyn_id := dynamicTextures this; dyn_width := (getSize rt).1;
                dyn_height := (getSize rt).2 |}
    ∧ imageData configured =
        imageData this ++ [replicate (4 * (getSize rt).1 * (getSize rt).2) Byte.x00]
    ∧ object configured = object this
    ∧ propertyPath configured = propertyPath this
    ∧ log configured = log this.
Proof.
  intros Hcur Hrt. unfold _configureRenderTarget. rewrite Hcur, Hrt.
  destruct (getSize rt) as [width height]. by eexists.
Qed.

Lemma restor_returns this (i : nat) d :
  _currentRenderTarget this = Some i →
  _dynamicTexture this = Some d →
  ∃ restored,
    _restorRenderTarget this = Returned restored
    ∧ textures restored =
        alter (set_onAfterRender (_currentOnAfterRender this)) i (textures this)
    ∧ _currentOnAfterRender restored = _currentOnAfterRender this
    ∧ _dynamicTexture restored = None
    ∧ _currentPixels restored = None
    ∧ _currentRenderTarget restored = None
    ∧ _targetTexture restored = _targetTexture this
    ∧ filesTextures restored = filesTextures this
    ∧ object restored = object this
    ∧ propertyPath restored = propertyPath this
    ∧ log restored = log this ++ [Dispose (Dynamic d)].
Proof.
  intros Hcur Hd. unfold _restorRenderTarget. rewrite Hcur. cbn. rewrite Hd.
  by eexists.
Qed.

(** C9: [_configureRenderTarget], any number of renders, then
    [_restorRenderTarget]: the render target has the [onAfterRender] that it
    had before (the scene's textures are what they were), and
    [_dynamicTexture], [_currentPixels] and [_currentRenderTarget] are
    [null]. *)
Theorem C9_configure_restore_roundtrip this (i : nat) rt
    (frames : list (nat * list Byte.byte)) :
  _currentRenderTarget this = Some i →
  textures this !! i = Some rt →
  ∃ configured rendered restored,
    _configureRenderTarget this = Returned configured
    ∧ renders i frames configured = Returned rendered
    ∧ _restorRenderTarget rendered = Returned restored
    ∧ onAfterRender <$> textures restored !! i = Some (onAfterRender rt)
    ∧ textures restored = textures this
    ∧ _dynamicTexture restored = None
    ∧ _currentPixels restored = None
    ∧ _currentRenderTarget restored = None.
Proof.
  intros Hcur Hrt.
  destruct (configure_returns this i rt Hcur Hrt)
    as (configured & Hconf & Ht & Hs & Hc & Hd & _).
  destruct (renders_preview i frames configured
              (set_onAfterRender
                 (Some (Preview (getSize rt).1 (getSize rt).2 (length (imageData this))))
                 rt) _ _ _ _ ltac:(by rewrite Ht, list_lookup_alter_eq, Hrt)
              eq_refl Hd)
    as (rendered & Hr & Ht' & Hd' & Hc' & Hs').
  destruct (restor_returns rendered i _ ltac:(by rewrite Hc') Hd')
    as (restored & Hrest & Ht'' & _ & Hd'' & Hp'' & Hc'' & _).
  exists configured, rendered, restored.
  assert (textures restored = textures this) as Heq.
  { rewrite Ht'', Hs', Hs, Ht', Ht. apply list_eq. intros k.
    destruct (decide (k = i)) as [->|Hne].
    - rewrite !list_lookup_alter_eq, Hrt. cbn. by rewrite set_onAfterRender_same.
    - by rewrite !list_lookup_alter_ne. }
  repeat split; try done. by rewrite Heq, Hrt.
Qed.

End preview.

(** *** The handlers of the grid *)

Section handlers.
Context (serialize : BaseTexture → option SerializationObject).
Context (CreateFromBase64String : string → string → BaseTexture).
Implicit Types (this : GUITextureEditor) (t : BaseTexture).

Lemma insert_last {A} (l : list A) (x y : A) :
  <[length l := y]> (l ++ [x]) = l ++ [y].
Proof.
  rewrite <- (Nat.add_0_r (length l)) at 1. by rewrite insert_app_r.
Qed.

(** The file callback on a texture that the engine has named. *)
Lemma onReadFileCallback_state (name data n : string) this :
  TextureEditor.name (CreateFromBase64String data name) = Some n →
  ∃ this',
    _onReadFileCallback CreateFromBase64String name data this = Returned this'
    ∧ textures this' =
        textures this ++
        [set_name (Some (replace "data:" "" n)) (CreateFromBase64String data name)]
    ∧ _texturesList this' =
        _texturesList this ++
        [{| row_name := Some name;
            recid := (Z.of_nat (length (_texturesList this)) - 1)%Z |}]
    ∧ pendingReads this' = pendingReads this.
Proof.
  intros Hname. unfold _onReadFileCallback, stripData. rewrite Hname. cbn.
  eexists. split; [done|]. cbn. by rewrite insert_last.
Qed.

(** The file callback, whether it returns or throws: the texture that the
    engine made is in the scene, and the preview is as it was. *)
Lemma onReadFileCallback_stateOf (name data : string) this :
  ∃ t',
    textures (stateOf (_onReadFileCallback CreateFromBase64String name data this)) =
      textures this ++ [t']
    ∧ onAfterRender t' = onAfterRender (CreateFromBase64String data name)
    ∧ _currentRenderTarget
        (stateOf (_onReadFileCallback CreateFromBase64String name data this)) =
        _currentRenderTarget this
    ∧ _dynamicTexture
        (stateOf (_onReadFileCallback CreateFromBase64String name data this)) =
        _dynamicTexture this
    ∧ _currentOnAfterRender
        (stateOf (_onReadFileCallback CreateFromBase64String name data this)) =
        _currentOnAfterRender this.
Proof.
  unfold _onReadFileCallback, stripData.
  destruct (TextureEditor.name (CreateFromBase64String data name)) as [n|]; cbn.
  - eexists. rewrite insert_last. by repeat split.
  - eexists. by repeat split.
Qed.

(** C8: [onchange] starts one read per chosen file, with the callback made
    for the file's name; when the read of a file completes, the texture
    that the engine creates from the data is added to the current scene,
    the [data:] prefix is taken off its name, and one row with the file's
    name is added to the grid. *)
Theorem C8_file_read_adds_texture (files : list File) this0 this (k : nat) (f : File)
    (data n : string) :
  pendingReads this !! k = Some (f, OnReadFile (file_name f)) →
  name (CreateFromBase64String data (file_name f)) = Some ("data:" +:+ n) →
  pendingReads (onchange files this0) =
    pendingReads this0 ++ ((λ f, (f, OnReadFile (file_name f))) <$> files)
  ∧ ∃ this',
      readFinished CreateFromBase64String k data this = Returned this'
      ∧ textures this' =
          textures this ++ [set_name (Some n) (CreateFromBase64String data (file_name f))]
      ∧ _texturesList this' =
          _texturesList this ++
          [{| row_name := Some (file_name f);
              recid := (Z.of_nat (length (_texturesList this)) - 1)%Z |}]
      ∧ pendingReads this' = delete k (pendingReads this).
Proof.
  intros Hk Hname. split; [done|]. unfold readFinished. rewrite Hk.
  destruct (onReadFileCallback_state (file_name f) data ("data:" +:+ n)
              (set_pendingReads (delete k (pendingReads this)) this) Hname)
    as (this' & -> & Ht & Hr & Hp).
  exists this'. split; [done|]. rewrite Ht, Hr, Hp, replace_prefix.
  by destruct n.
Qed.

(** **** The click handler *)

Lemma textureAt_Some (index : Z) this (i : nat) t :
  textureAt index this = Some (i, t) ↔
  (0 ≤ index)%Z ∧ i = Z.to_nat index ∧ textures this !! i = Some t.
Proof.
  unfold textureAt. destruct (Z.leb_spec 0 index) as [Hle|Hlt].
  - destruct (textures this !! Z.to_nat index) as [t'|] eqn:E; cbn.
    + split; [intros [= <- <-]; done|]. intros (_ & -> & Ht). congruence.
    + split; [done|]. intros (_ & -> & Ht). congruence.
  - split; [done|]. lia.
Qed.

Lemma textureAt_is_Some (index : Z) this :
  is_Some (textureAt index this) ↔ (0 ≤ index < Z.of_nat (length (textures this)))%Z.
Proof.
  split.
  - intros [[i t] [Hle [-> Ht]]%textureAt_Some].
    apply lookup_lt_Some in Ht. lia.
  - intros [Hle Hlt].
    destruct (lookup_lt_is_Some_2 (textures this) (Z.to_nat index)) as [t Ht]; [lia|].
    exists (Z.to_nat index, t). by apply textureAt_Some.
Qed.

Lemma consistent_ext this this' :
  _currentRenderTarget this' = _currentRenderTarget this →
  textures this' = textures this →
  _dynamicTexture this' = _dynamicTexture this →
  _currentOnAfterRender this' = _currentOnAfterRender this →
  consistent this → consistent this'.
Proof.
  intros Hc Ht Hd Hs [H1 H2 H3]. split; rewrite ?Hc, ?Ht, ?Hd, ?Hs; done.
Qed.

Lemma idle_consistent this : idle this → consistent this.
Proof.
  intros [H1 H2 H3]. split; [by rewrite H1| |done].
  intros j rt Hj Hp. by destruct (H2 j rt Hj).
Qed.

(** After [if (this._currentRenderTarget) this._restorRenderTarget();] no
    render target is previewed, and the textures of the scene are what they
    were up to the [onAfterRender] of the one that was previewed. *)
Lemma restoreIfPreviewing_idle this :
  consistent this →
  ∃ this1,
    restoreIfPreviewing this = Returned this1
    ∧ idle this1
    ∧ (∀ k t, textures this !! k = Some t →
         ∃ cb, textures this1 !! k = Some (set_onAfterRender cb t))
    ∧ length (textures this1) = length (textures this)
    ∧ _targetTexture this1 = _targetTexture this
    ∧ filesTextures this1 = filesTextures this
    ∧ object this1 = object this
    ∧ propertyPath this1 = propertyPath this
    ∧ (_currentRenderTarget this = None → this1 = this).
Proof.
  intros [Hcur Hprev Hsaved]. unfold restoreIfPreviewing.
  destruct (_currentRenderTarget this) as [i|] eqn:Ei.
  - destruct (Hcur i eq_refl) as [Hi [d Hd]].
    destruct (restor_returns this i d Ei Hd)
      as (this1 & -> & Ht & Hs & Hd1 & _ & Hc1 & Htt & Hf & Ho & Hp & _).
    exists this1. split; [done|]. split; [|split; [|split]].
    + split; [done| |by rewrite Hs].
      intros j rt. rewrite Ht. destruct (decide (j = i)) as [->|Hne].
      * rewrite list_lookup_alter_eq. destruct (textures this !! i); [|done].
        cbn. intros [= <-]. cbn. done.
      * rewrite list_lookup_alter_ne by done. intros Hj Hp'.
        specialize (Hprev j rt Hj Hp'). congruence.
    + intros k t Hk. rewrite Ht. destruct (decide (k = i)) as [->|Hne].
      * rewrite list_lookup_alter_eq, Hk. by eexists.
      * rewrite list_lookup_alter_ne, Hk by done.
        exists (onAfterRender t). by destruct t.
    + by rewrite Ht, length_alter.
    + done.
  - exists this. split; [done|]. split; [|split; [|done]].
    + split; [done| |done]. intros j rt Hj Hp'.
      by specialize (Hprev j rt Hj Hp').
    + intros k t Hk. exists (onAfterRender t). by destruct t.
Qed.

Lemma disposeTarget_state this :
  textures (disposeTarget this) = textures this
  ∧ _currentRenderTarget (disposeTarget this) = _currentRenderTarget this
  ∧ _dynamicTexture (disposeTarget this) = _dynamicTexture this
  ∧ _currentOnAfterRender (disposeTarget this) = _currentOnAfterRender this
  ∧ filesTextures (disposeTarget this) = filesTextures this
  ∧ object (disposeTarget this) = object this
  ∧ propertyPath (disposeTarget this) = propertyPath this
  ∧ imageData (disposeTarget this) = imageData this
  ∧ dynamicTextures (disposeTarget this) = dynamicTextures this.
Proof. unfold disposeTarget. by destruct (_targetTexture this). Qed.

Lemma guessTexture_disposeTarget t n s this :
  guessTexture t n s (disposeTarget this) = guessTexture t n s this.
Proof. unfold guessTexture, disposeTarget. by destruct (_targetTexture this). Qed.

(** On a texture that has a name, that is not skipped, and that has a
    serialization object where the handler uses it, the handler goes on
    after the "guess texture" step, with a serialization object to parse
    unless the texture is a render target. *)
Lemma guessTexture_Guessed t n this :
  name t = Some n →
  skipped t this = false →
  (needsSerialization t this = true → is_Some (serialize t)) →
  indexOf ".hdr" (toLowerCase n) = (-1)%Z
  ∧ ∃ s, guessTexture t n (serialize t) this = Guessed s
         ∧ (isRenderTarget t = false → is_Some s).
Proof.
  unfold skipped, needsSerialization, inFilesTextures, guessTexture. intros -> Hskip Hser.
  destruct (Z.eqb_spec (indexOf ".hdr" (toLowerCase n)) (-1)) as [Hhdr|]; [|done].
  split; [done|]. cbn in Hskip.
  destruct (truthy (_buffer t)).
  { destruct Hser as [s ->]; [done|]. by eexists. }
  destruct (bool_decide (is_Some (filesTextures this !! n))).
  { destruct Hser as [s ->]; [done|]. by eexists. }
  cbn in Hskip, Hser. destruct (isCube t); [done|].
  exists (serialize t). split; [done|]. intros Hrt. rewrite Hrt in Hser. by apply Hser.
Qed.

(** From the read of the selected texture on, the handler throws when
    there is no texture at the selected position, and when the texture has no
    name. *)
Lemma onClick_selected_outside (index : Z) this :
  textureAt index this = None → onClick_selected serialize index this = TypeError this.
Proof. intros E. unfold onClick_selected. by rewrite E. Qed.

Lemma onClick_selected_nameless (index : Z) this (i : nat) t :
  textureAt index this = Some (i, t) → name t = None →
  onClick_selected serialize index this = TypeError this.
Proof. intros E Hn. unfold onClick_selected. by rewrite E, Hn. Qed.


(** It returns on a texture that has a name and, where the handler uses
    it, a serialization object. *)
Lemma onClick_selected_returns (index : Z) this (i : nat) t (n : string) :
  textureAt index this = Some (i, t) → name t = Some n →
  (needsSerialization t this = true → is_Some (serialize t)) →
  returns (onClick_selected serialize index this) = true.
Proof.
  intros E Hn Hser. unfold onClick_selected. rewrite E, Hn.
  destruct (negb _); [done|]. cbn zeta. rewrite guessTexture_disposeTarget.
  apply textureAt_Some in E as (_ & _ & Ht).
  assert (isRenderTarget t = true →
          returns (andThen (_configureRenderTarget
                              (set_currentRenderTarget (Some i) (disposeTarget this)))
                     (λ this, Returned (assignTexture i this))) = true) as Hconf.
  { intros _.
    destruct (configure_returns (set_currentRenderTarget (Some i) (disposeTarget this)) i t)
      as (c & -> & _); [done| |done].
    cbn. by destruct (disposeTarget_state this) as (-> & _). }
  unfold needsSerialization, inFilesTextures in Hser. rewrite Hn in Hser.
  unfold guessTexture.
  destruct (truthy (_buffer t)).
  { destruct Hser as [s ->]; [done|]. destruct (isRenderTarget t); [by apply Hconf|done]. }
  destruct (bool_decide (is_Some (filesTextures this !! n))).
  { destruct Hser as [s ->]; [done|]. destruct (isRenderTarget t); [by apply Hconf|done]. }
  cbn in Hser. destruct (isCube t); [done|].
  destruct (isRenderTarget t); [by apply Hconf|].
  by destruct Hser as [s ->].
Qed.

Lemma onClick_selected_assigns (index : Z) this (i : nat) t (n : string) o p :
  textureAt index this = Some (i, t) →
  name t = Some n →
  skipped t this = false →
  (needsSerialization t this = true → is_Some (serialize t)) →
  object this = Some o →
  propertyPath this = Some p →
  ∃ this',
    onClick_selected serialize index this = Returned this'
    ∧ object this' = Some (<[p := VTexture i]> o)
    ∧ propertyPath this' = Some p.
Proof.
  intros E Hn Hskip Hser Ho Hp.
  destruct (guessTexture_Guessed t n this Hn Hskip Hser) as (Hhdr & s & Hs & Hparse).
  unfold onClick_selected.
  rewrite E, Hn, Hhdr. replace (negb (-1 =? -1)%Z) with false by done. cbn zeta.
  rewrite guessTexture_disposeTarget, Hs.
  apply textureAt_Some in E as (_ & _ & Ht).
  destruct (disposeTarget_state this) as (Ht2 & _ & _ & _ & _ & Ho2 & Hp2 & _).
  destruct (isRenderTarget t).
  - destruct (configure_returns (set_currentRenderTarget (Some i) (disposeTarget this)) i t)
      as (c & -> & _ & _ & _ & _ & _ & Ho3 & Hp3 & _); [done|by cbn; rewrite Ht2|].
    cbn in Ho3, Hp3. cbn. eexists. split; [done|]. unfold assignTexture.
    rewrite Ho3, Ho2, Ho, Hp3, Hp2, Hp. cbn. by rewrite Hp3, Hp2, Hp.
  - destruct Hparse as [s' ->]; [done|].
    cbn. eexists. split; [done|]. unfold assignTexture. cbn.
    rewrite Ho2, Ho, Hp2, Hp. cbn. by rewrite Hp2, Hp.
Qed.

Lemma assignTexture_state (i : nat) this :
  textures (assignTexture i this) = textures this
  ∧ _currentRenderTarget (assignTexture i this) = _currentRenderTarget this
  ∧ _dynamicTexture (assignTexture i this) = _dynamicTexture this
  ∧ _currentOnAfterRender (assignTexture i this) = _currentOnAfterRender this
  ∧ log (assignTexture i this) = log this.
Proof. unfold assignTexture. by destruct (object this). Qed.

Lemma consistent_assignTexture (i : nat) this :
  consistent this → consistent (assignTexture i this).
Proof.
  destruct (assignTexture_state i this) as (? & ? & ? & ? & _).
  by apply consistent_ext.
Qed.

Lemma consistent_disposeTarget this : consistent this → consistent (disposeTarget this).
Proof.
  destruct (disposeTarget_state this) as (? & ? & ? & ? & _).
  by apply consistent_ext.
Qed.

(** The click handler keeps the editor consistent, whether it returns or
    throws. *)
Lemma onClick_selected_consistent (index : Z) this :
  idle this → consistent (stateOf (onClick_selected serialize index this)).
Proof.
  intros Hidle. pose proof (idle_consistent this Hidle) as Hcons.
  unfold onClick_selected. destruct (textureAt index this) as [[i t]|] eqn:E; [|done].
  destruct (name t) as [n|]; [|done].
  destruct (negb _); [done|]. cbn zeta.
  destruct (guessTexture _ _ _ _) as [s| |]; [|by apply consistent_disposeTarget..].
  apply textureAt_Some in E as (_ & _ & Ht).
  destruct (disposeTarget_state this) as (Ht2 & Hc2 & Hd2 & Hs2 & _).
  destruct (isRenderTarget t).
  - destruct (configure_returns (set_currentRenderTarget (Some i) (disposeTarget this)) i t)
      as (c & -> & Htc & Hsc & Hcc & Hdc & _); [done|by cbn; rewrite Ht2|].
    cbn [andThen stateOf]. apply consistent_assignTexture.
    cbn in Htc. rewrite Ht2 in Htc. split.
    + intros j. rewrite Hcc, Htc, length_alter, Hdc. intros [= <-].
      split; [by eapply lookup_lt_Some|done].
    + intros j rt. rewrite Htc, Hcc. destruct (decide (j = i)) as [->|Hne]; [done|].
      rewrite list_lookup_alter_ne by done. intros Hj Hp.
      by destruct (idle_preview this Hidle j rt Hj).
    + rewrite Hsc. by apply (idle_preview this Hidle i t).
  - destruct s as [s|]; cbn [parseTarget andThen stateOf].
    + apply consistent_assignTexture.
      by apply (consistent_ext (disposeTarget this)); [..|apply consistent_disposeTarget].
    + by apply consistent_disposeTarget.
Qed.

Lemma onClick_consistent (selected : list Z) this :
  consistent this → consistent (stateOf (onClick serialize selected this)).
Proof.
  intros Hcons. destruct selected as [|index rest]; [done|]. unfold onClick.
  destruct (restoreIfPreviewing_idle this Hcons) as (this1 & -> & Hidle & _).
  by apply onClick_selected_consistent.
Qed.

(** A render keeps the editor consistent, and its callback does not throw. *)
Lemma afterRender_consistent (i faceIndex : nat) (pixels : list Byte.byte) this :
  consistent this →
  ∃ this', afterRender i faceIndex pixels this = Returned this' ∧ consistent this'.
Proof.
  intros Hcons. unfold afterRender.
  destruct (textures this !! i) as [rt|] eqn:Ei; [|by exists this].
  destruct (onAfterRender rt) as [[id|width height imgData]|] eqn:Ecb; [| |by exists this].
  - eexists. split; [done|]. by apply (consistent_ext this).
  - assert (_currentRenderTarget this = Some i) as Hcur
      by (apply (consistent_preview this Hcons i rt Ei); by rewrite Ecb).
    destruct (consistent_current this Hcons i Hcur) as [_ [d Hd]].
    destruct (afterRender_preview i faceIndex pixels this rt width height imgData d)
      as (this' & Hr & Ht & Hd' & Hc & Hs); [done..|].
    unfold afterRender in Hr. rewrite Ei, Ecb in Hr.
    exists this'. split; [done|]. apply (consistent_ext this); congruence.
Qed.

(** A file that has been read keeps the editor consistent, when the engine
    makes textures without a replacement callback. *)
Lemma readFinished_consistent (k : nat) (data : string) this :
  (∀ data name, ¬ isPreview (onAfterRender (CreateFromBase64String data name))) →
  consistent this → consistent (stateOf (readFinished CreateFromBase64String k data this)).
Proof.
  intros Hnew Hcons. unfold readFinished.
  destruct (pendingReads this !! k) as [[f [name]]|]; [|done].
  destruct (onReadFileCallback_stateOf name data
              (set_pendingReads (delete k (pendingReads this)) this))
    as (t' & Ht & Hcb & Hc & Hd & Hs).
  cbn [textures set_pendingReads _currentRenderTarget _dynamicTexture
       _currentOnAfterRender] in Ht, Hc, Hd, Hs.
  split.
  - intros i. rewrite Hc, Ht, Hd, length_app. intros Hi.
    destruct (consistent_current this Hcons i Hi). split; [lia|done].
  - intros j rt. rewrite Ht, Hc. intros Hj Hp.
    apply lookup_app_Some in Hj as [Hj|[_ Hj]].
    + by apply (consistent_preview this Hcons j rt).
    + apply list_lookup_singleton_Some in Hj as [_ <-].
      destruct (Hnew data name). by rewrite <- Hcb.
  - rewrite Hs. apply Hcons.
Qed.

Lemma skipped_set_onAfterRender cb t this this1 :
  filesTextures this1 = filesTextures this →
  skipped (set_onAfterRender cb t) this1 = skipped t this.
Proof. intros Hf. unfold skipped. cbn. by rewrite Hf. Qed.

Lemma needsSerialization_set_onAfterRender cb t this this1 :
  filesTextures this1 = filesTextures this →
  needsSerialization (set_onAfterRender cb t) this1 = needsSerialization t this.
Proof. intros Hf. unfold needsSerialization, inFilesTextures. cbn. by rewrite Hf. Qed.

(** C3, as the handler has it: a click on a row whose position is in the
    scene's texture list assigns the texture at that position to
    [object[propertyPath]], unless the handler returns early (the
    lower-cased name of the texture contains [.hdr], or the texture is a
    cube texture without [_buffer] and without an entry in
    [FilesInput.FilesTextures]) or throws before the assignment (the name of
    the texture is [null], or its serialization object is [null] where the
    handler uses it). *)
Theorem C3_click_assigns_texture this (index : Z) (rest : list Z) (i : nat) t
    (n : string) (o : gmap string Value) (p : string) :
  consistent this →
  object this = Some o →
  propertyPath this = Some p →
  textureAt index this = Some (i, t) →
  name t = Some n →
  skipped t this = false →
  (needsSerialization t this = true → serializable serialize t) →
  ∃ this',
    onClick serialize (index :: rest) this = Returned this'
    ∧ object this' = Some (<[p := VTexture i]> o)
    ∧ propertyPath this' = Some p.
Proof.
  intros Hcons Ho Hp E Hn Hskip Hser. unfold onClick.
  destruct (restoreIfPreviewing_idle this Hcons)
    as (this1 & -> & _ & Htex & _ & _ & Hf & Ho1 & Hp1 & _).
  cbn [andThen]. apply textureAt_Some in E as (Hle & Hi & Ht).
  destruct (Htex i t Ht) as [cb Ht1].
  apply (onClick_selected_assigns index this1 i (set_onAfterRender cb t) n).
  - by apply textureAt_Some.
  - done.
  - by rewrite (skipped_set_onAfterRender cb t this this1).
  - rewrite (needsSerialization_set_onAfterRender cb t this this1) by done.
    intros Hneeds. by apply Hser.
  - congruence.
  - congruence.
Qed.


Lemma create_consistent objectName object0 propertyPath0 sceneTextures files :
  Forall (λ t, ¬ isPreview (onAfterRender t)) sceneTextures →
  consistent (create objectName object0 propertyPath0 sceneTextures files).
Proof.
  intros Hall. apply idle_consistent. split; [done| |by intros []].
  intros j rt Hj. cbn in Hj. by eapply Forall_lookup_1 in Hall.
Qed.


(** The click handler throws on a row outside the scene's texture list. *)
Lemma onClick_outside (selected : list Z) this :
  consistent this → ¬ inRange selected this →
  returns (onClick serialize selected this) = false.
Proof.
  intros Hcons Hout. destruct selected as [|index rest]; [done|]. unfold onClick, inRange in *.
  destruct (restoreIfPreviewing_idle this Hcons) as (this1 & -> & _ & _ & Hlen & _).
  cbn [andThen]. rewrite onClick_selected_outside; [done|].
  destruct (textureAt index this1) eqn:E; [|done].
  destruct Hout. rewrite <- Hlen. apply textureAt_is_Some. by rewrite E.
Qed.

(** It throws on a texture whose name is [null]. *)
Lemma onClick_nameless (index : Z) (rest : list Z) this (i : nat) t :
  consistent this → textureAt index this = Some (i, t) → name t = None →
  returns (onClick serialize (index :: rest) this) = false.
Proof.
  intros Hcons E Hn. unfold onClick.
  destruct (restoreIfPreviewing_idle this Hcons) as (this1 & -> & _ & Htex & _).
  cbn [andThen]. apply textureAt_Some in E as (Hle & Hi & Ht).
  destruct (Htex i t Ht) as [cb Ht1].
  rewrite (onClick_selected_nameless index this1 i (set_onAfterRender cb t)); [done| |done].
  by apply textureAt_Some.
Qed.

(** It returns on a texture that has a name and, where the handler uses
    it, a serialization object. *)
Lemma onClick_named (index : Z) (rest : list Z) this (i : nat) t (n : string) :
  consistent this → textureAt index this = Some (i, t) → name t = Some n →
  (needsSerialization t this = true → serializable serialize t) →
  returns (onClick serialize (index :: rest) this) = true.
Proof.
  intros Hcons E Hn Hser. unfold onClick.
  destruct (restoreIfPreviewing_idle this Hcons)
    as (this1 & -> & _ & Htex & _ & _ & Hf & _).
  cbn [andThen]. apply textureAt_Some in E as (Hle & Hi & Ht).
  destruct (Htex i t Ht) as [cb Ht1].
  apply (onClick_selected_returns index this1 i (set_onAfterRender cb t) n);
    [by apply textureAt_Some|done|].
  rewrite (needsSerialization_set_onAfterRender cb t this this1) by done.
  intros Hneeds. by apply Hser.
Qed.


Lemma consistent_fillTextureList this :
  consistent this → consistent (_fillTextureList this).
Proof. by apply consistent_ext. Qed.

(** Every editor that the handlers make of a new one is consistent, when
    the engine makes textures without a replacement callback. *)
Lemma reachable_consistent this :
  (∀ data name, ¬ isPreview (onAfterRender (CreateFromBase64String data name))) →
  reachable serialize CreateFromBase64String this → consistent this.
Proof.
  intros Hnew Hr.
  induction Hr as [? ? ? ? ? Hall|selected this _ IH|i f px this _ IH|this _ IH
                   |files this _ IH|k data this _ IH|ev this _ IH|this _ IH].
  - by apply create_consistent.
  - by apply onClick_consistent.
  - by destruct (afterRender_consistent i f px this IH) as (this' & -> & ?).
  - unfold onApply. destruct (_targetTexture this); [|done].
    by apply (consistent_ext this).
  - by apply (consistent_ext this).
  - by apply readFinished_consistent.
  - destruct ev as [[| |]|[|]|]; cbn; try done; by apply consistent_fillTextureList.
  - by apply consistent_fillTextureList.
Qed.


End handlers.

(** *** The editor of the demonstration scene *)

Lemma demoEditor_consistent : consistent demoEditor.
Proof.
  apply create_consistent. repeat constructor; by intros [].
Qed.

Lemma rawEditor_consistent : consistent rawEditor.
Proof.
  apply create_consistent. repeat constructor; by intros [].
Qed.

(** [demoSerialize] does not read the callback of a texture. *)
Lemma demoSerialize_serializable t :
  truthy (name t) = true → serializable demoSerialize t.
Proof. intros Hn cb. unfold demoSerialize. cbn. rewrite Hn. by eexists. Qed.

(** The click handler throws on the row of a texture without a name, and on
    the row of a texture with a buffer whose serialization is [null]. *)
Example click_nameless : onClick demoSerialize [1%Z] rawEditor = TypeError rawEditor.
Proof. reflexivity. Qed.

Example click_null_serialization :
  demoSerialize blank = None
  ∧ onClick demoSerialize [2%Z] rawEditor = TypeError rawEditor.
Proof. split; reflexivity. Qed.

(** C3 without its exceptions fails on an [.hdr] texture: the handler
    returns before the assignment and the property keeps its value. *)
Lemma C3_counterexample_hdr :
  object demoEditor = Some demoObject
  ∧ propertyPath demoEditor = Some "diffuseTexture"
  ∧ textureAt 1 demoEditor = Some (1, sky)
  ∧ onClick demoSerialize [1%Z] demoEditor = Returned demoEditor
  ∧ ¬ ∃ this',
        onClick demoSerialize [1%Z] demoEditor = Returned this'
        ∧ object this' = Some (<["diffuseTexture" := VTexture 1]> demoObject).
Proof.
  assert (onClick demoSerialize [1%Z] demoEditor = Returned demoEditor) as Hclick
    by (by vm_compute).
  repeat split; try done.
  intros (this' & Hr & Ho). rewrite Hclick in Hr. injection Hr as <-.
  apply (f_equal (λ o, o ≫= (.!! "diffuseTexture"))) in Ho.
  vm_compute in Ho. discriminate.
Qed.

Lemma C3_click_assigns_texture_witness :
  consistent demoEditor
  ∧ object demoEditor = Some demoObject
  ∧ propertyPath demoEditor = Some "diffuseTexture"
  ∧ textureAt 0 demoEditor = Some (0, wood)
  ∧ name wood = Some "wood.png"
  ∧ skipped wood demoEditor = false
  ∧ serializable demoSerialize wood
  ∧ ∃ this',
      onClick demoSerialize [0%Z] demoEditor = Returned this'
      ∧ object this' = Some (<["diffuseTexture" := VTexture 0]> demoObject)
      ∧ propertyPath this' = Some "diffuseTexture".
Proof.
  split; [exact demoEditor_consistent|]. do 5 (split; [reflexivity|]).
  split; [exact (demoSerialize_serializable wood eq_refl)|].
  exact (C3_click_assigns_texture demoSerialize demoEditor 0 [] 0 wood "wood.png" demoObject
           "diffuseTexture" demoEditor_consistent eq_refl eq_refl eq_refl eq_refl eq_refl
           (λ _, demoSerialize_serializable wood eq_refl)).
Defined.



Lemma C7_preview_after_render_witness :
  textures demoPreview !! 2 = Some (set_onAfterRender (Some (Preview 2 1 0)) mirror)
  ∧ _dynamicTexture demoPreview = Some {| dyn_id := 0; dyn_width := 2; dyn_height := 1 |}
  ∧ imageData demoPreview !! 0 = Some (replicate 8 Byte.x00)
  ∧ ∃ this',
      afterRender 2 0 demoPixels demoPreview = Returned this'
      ∧ log this' =
          log demoPreview ++
          [Call (Foreign 7) 0; ReadPixels 0 0 2 1;
           PutImageData {| dyn_id := 0; dyn_width := 2; dyn_height := 1 |} demoPixels 0 0;
           Update {| dyn_id := 0; dyn_width := 2; dyn_height := 1 |} false]
      ∧ imageData this' !! 0 = Some demoPixels.
Proof.
  do 3 (split; [reflexivity|]).
  destruct (C7_preview_after_render 2 0 demoPixels demoPreview
              (set_onAfterRender (Some (Preview 2 1 0)) mirror) 2 1 0
              {| dyn_id := 0; dyn_width := 2; dyn_height := 1 |} (replicate 8 Byte.x00)
              eq_refl eq_refl eq_refl eq_refl)
    as (this' & Hr & Hl & Hi & _ & Hall & _).
  exists this'. rewrite (Hall eq_refl) in Hl, Hi.
  exact (conj Hr (conj Hl Hi)).
Defined.

Lemma C8_file_read_adds_texture_witness :
  pendingReads (onchange [demoFile] demoEditor) !! 0
    = Some (demoFile, OnReadFile (file_name demoFile))
  ∧ name (demoCreate demoData (file_name demoFile)) = Some ("data:" +:+ "brick.png")
  ∧ ∃ this',
      readFinished demoCreate 0 demoData (onchange [demoFile] demoEditor) = Returned this'
      ∧ textures this' =
          [wood; sky; mirror; set_name (Some "brick.png") (demoCreate demoData "brick.png")]
      ∧ row_name <$> _texturesList this' =
          [Some "wood.png"; Some "sky.HDR"; Some "mirror"; Some "brick.png"]
      ∧ pendingReads this' = [].
Proof.
  do 2 (split; [reflexivity|]).
  destruct (C8_file_read_adds_texture demoCreate [demoFile] demoEditor
              (onchange [demoFile] demoEditor) 0 demoFile demoData "brick.png"
              eq_refl eq_refl) as (_ & this' & Hr & Ht & Hrows & Hp).
  exists this'. split; [exact Hr|]. split; [exact Ht|]. split; [|exact Hp].
  rewrite Hrows. reflexivity.
Defined.

Lemma C9_configure_restore_roundtrip_witness :
  _currentRenderTarget (set_currentRenderTarget (Some 2) demoEditor) = Some 2
  ∧ textures (set_currentRenderTarget (Some 2) demoEditor) !! 2 = Some mirror
  ∧ ∃ configured rendered restored,
      _configureRenderTarget (set_currentRenderTarget (Some 2) demoEditor)
        = Returned configured
      ∧ renders 2 [(0, demoPixels)] configured = Returned rendered
      ∧ _restorRenderTarget rendered = Returned restored
      ∧ onAfterRender <$> textures restored !! 2 = Some (Some (Foreign 7))
      ∧ textures restored = [wood; sky; mirror]
      ∧ _dynamicTexture restored = None
      ∧ _currentPixels restored = None
      ∧ _currentRenderTarget restored = None.
Proof.
  do 2 (split; [reflexivity|]).
  exact (C9_configure_restore_roundtrip (set_currentRenderTarget (Some 2) demoEditor) 2
           mirror [(0, demoPixels)] eq_refl eq_refl).
Defined.

(** *** More on the pixels, the rows and the events *)

(** X15: the copy loop writes the pixels over the start of the image data
    and keeps its length: pixels past the end of the image data are dropped,
    and image data past the end of the pixels keep their value. *)
Theorem X15_copyPixels_bounds (pixels data : list Byte.byte) :
  copyPixels pixels data = take (length data) pixels ++ drop (length pixels) data
  ∧ length (copyPixels pixels data) = length data.
Proof.
  split; [|apply copyPixels_length].
  apply list_eq. intros k. unfold copyPixels. rewrite lookup_copy by done.
  rewrite lookup_app, length_take, lookup_take, lookup_drop.
  destruct (decide (k < length pixels)) as [Hp|Hp];
    destruct (decide (k < length data)) as [Hd|Hd].
  - destruct (pixels !! k) eqn:E; [done|]. apply lookup_ge_None in E. lia.
  - symmetry. apply lookup_ge_None. lia.
  - rewrite (proj2 (lookup_ge_None pixels k)) by lia. f_equal. lia.
  - rewrite (proj2 (lookup_ge_None data k)) by lia.
    symmetry. apply lookup_ge_None. lia.
Qed.

Section rows.
Context (serialize : BaseTexture → option SerializationObject).
Context (CreateFromBase64String : string → string → BaseTexture).
Implicit Types (this : GUITextureEditor) (t : BaseTexture).

Lemma fillTextureList_state this :
  _texturesList (_fillTextureList this) =
    imap (λ i t, {| row_name := name t; recid := Z.of_nat i |}) (textures this)
  ∧ textures (_fillTextureList this) = textures this
  ∧ _currentRenderTarget (_fillTextureList this) = _currentRenderTarget this
  ∧ _dynamicTexture (_fillTextureList this) = _dynamicTexture this
  ∧ _currentOnAfterRender (_fillTextureList this) = _currentOnAfterRender this
  ∧ object (_fillTextureList this) = object this
  ∧ log (_fillTextureList this) = log this.
Proof. done. Qed.

(** X9: [_fillTextureList] (also run by [onReload] and by [onEvent] on a
    scene event that adds or removes an object) makes one row for each
    texture of the scene, row [k] with the name of texture [k], which may be
    [null], and [k] as its id; it changes nothing else, and [onEvent] never
    consumes the event.  A click on row [k] reads texture [k]: it throws
    when the name of that texture is [null], and returns when the texture
    has a name and, where the handler uses it, a serialization object. *)
Theorem X9_fillTextureList_mirrors this :
  consistent this →
  mirrored (_fillTextureList this)
  ∧ length (_texturesList (_fillTextureList this)) = length (textures this)
  ∧ (∀ k : nat, _texturesList (_fillTextureList this) !! k =
       (λ t, {| row_name := name t; recid := Z.of_nat k |}) <$> textures this !! k)
  ∧ _fillTextureList (_fillTextureList this) = _fillTextureList this
  ∧ onReload this = _fillTextureList this
  ∧ after (onEvent (SCENE_EVENT OBJECT_ADDED) this) = _fillTextureList this
  ∧ after (onEvent (SCENE_EVENT OBJECT_REMOVED) this) = _fillTextureList this
  ∧ (∀ ev, handled (onEvent ev this) = false
           ∧ textures (after (onEvent ev this)) = textures this)
  ∧ (∀ (k : nat) t rest, textures this !! k = Some t →
       textureAt (Z.of_nat k) (_fillTextureList this) = Some (k, t)
       ∧ match name t with
         | None =>
             returns (onClick serialize (Z.of_nat k :: rest) (_fillTextureList this))
             = false
         | Some n =>
             (needsSerialization t this = true → serializable serialize t) →
             returns (onClick serialize (Z.of_nat k :: rest) (_fillTextureList this))
             = true
         end).
Proof.
  intros Hcons. split; [done|]. split; [apply length_imap|].
  split; [intros k; apply list_lookup_imap|]. split; [by destruct this|].
  do 3 (split; [done|]). split.
  { intros [[| |]|[|]|]; done. }
  intros k t rest Hk.
  assert (textureAt (Z.of_nat k) (_fillTextureList this) = Some (k, t)) as E.
  { apply textureAt_Some. split; [lia|]. split; [lia|done]. }
  split; [done|]. pose proof (consistent_fillTextureList this Hcons) as Hcons'.
  destruct (name t) as [n|] eqn:Hn.
  - intros Hser. by apply (onClick_named serialize (Z.of_nat k) rest (_fillTextureList this) k t n).
  - by apply (onClick_nameless serialize (Z.of_nat k) rest (_fillTextureList this) k t).
Qed.

End rows.

Lemma X9_fillTextureList_mirrors_witness :
  consistent rawEditor
  ∧ _texturesList (_fillTextureList rawEditor) =
      [ {| row_name := Some "wood.png"; recid := 0 |};
        {| row_name := None; recid := 1 |};
        {| row_name := Some ""; recid := 2 |} ]
  ∧ returns (onClick demoSerialize [0%Z] (_fillTextureList rawEditor)) = true
  ∧ returns (onClick demoSerialize [1%Z] (_fillTextureList rawEditor)) = false.
Proof.
  destruct (X9_fillTextureList_mirrors demoSerialize rawEditor rawEditor_consistent)
    as (Hm & _ & _ & _ & _ & _ & _ & _ & Hc).
  split; [exact rawEditor_consistent|]. split; [exact Hm|].
  destruct (Hc 0 wood [] eq_refl) as [_ Hwood].
  destruct (Hc 1 noise [] eq_refl) as [_ Hnoise].
  exact (conj (Hwood (λ _, demoSerialize_serializable wood eq_refl)) Hnoise).
Defined.

(** *** More on the click handler *)

Section clicks.
Context (serialize : BaseTexture → option SerializationObject).
Context (CreateFromBase64String : string → string → BaseTexture).
Implicit Types (this : GUITextureEditor) (t : BaseTexture).

(** What [_restorRenderTarget] leaves of the editor. *)
Lemma restor_state this (j : nat) d :
  _currentRenderTarget this = Some j →
  _dynamicTexture this = Some d →
  ∃ this1,
    _restorRenderTarget this = Returned this1
    ∧ textures this1 = alter (set_onAfterRender (_currentOnAfterRender this)) j (textures this)
    ∧ _currentOnAfterRender this1 = _currentOnAfterRender this
    ∧ _dynamicTexture this1 = None
    ∧ _currentPixels this1 = None
    ∧ _currentRenderTarget this1 = None
    ∧ _targetTexture this1 = _targetTexture this
    ∧ _targetObject this1 = _targetObject this
    ∧ filesTextures this1 = filesTextures this
    ∧ object this1 = object this
    ∧ propertyPath this1 = propertyPath this
    ∧ imageData this1 = imageData this
    ∧ dynamicTextures this1 = dynamicTextures this
    ∧ _texturesList this1 = _texturesList this
    ∧ log this1 = log this ++ [Dispose (Dynamic d)].
Proof.
  intros Hcur Hd. unfold _restorRenderTarget. rewrite Hcur. cbn. rewrite Hd.
  by eexists.
Qed.

(** What [_configureRenderTarget] makes of the editor. *)
Lemma configure_state this (i : nat) rt :
  _currentRenderTarget this = Some i →
  textures this !! i = Some rt →
  ∃ configured,
    _configureRenderTarget this = Returned configured
    ∧ textures configured =
        alter (set_onAfterRender
                 (Some (Preview (getSize rt).1 (getSize rt).2 (length (imageData this)))))
          i (textures this)
    ∧ _currentOnAfterRender configured = onAfterRender rt
    ∧ _currentRenderTarget configured = Some i
    ∧ _dynamicTexture configured =
        Some {| dyn_id := dynamicTextures this; dyn_width := (getSize rt).1;
                dyn_height := (getSize rt).2 |}
    ∧ _targetTexture configured =
        Some (Dynamic {| dyn_id := dynamicTextures this; dyn_width := (getSize rt).1;
                         dyn_height := (getSize rt).2 |})
    ∧ imageData configured =
        imageData this ++ [replicate (4 * (getSize rt).1 * (getSize rt).2) Byte.x00]
    ∧ dynamicTextures configured = S (dynamicTextures this)
    ∧ _targetObject configured = _targetObject this
    ∧ object configured = object this
    ∧ propertyPath configured = propertyPath this
    ∧ _texturesList configured = _texturesList this
    ∧ log configured = log this.
Proof.
  intros Hcur Hrt. unfold _configureRenderTarget. rewrite Hcur, Hrt.
  destruct (getSize rt) as [width height]. by eexists.
Qed.

(** The click handler on a render target that it does not skip. *)
Lemma onClick_selected_preview (index : Z) this (i : nat) t (n : string) :
  textureAt index this = Some (i, t) →
  name t = Some n →
  skipped t this = false →
  (needsSerialization t this = true → is_Some (serialize t)) →
  isRenderTarget t = true →
  onClick_selected serialize index this =
  andThen (_configureRenderTarget (set_currentRenderTarget (Some i) (disposeTarget this)))
    (λ this, Returned (assignTexture i this)).
Proof.
  intros E Hn Hskip Hser Hrt.
  destruct (guessTexture_Guessed serialize t n this Hn Hskip Hser) as (Hhdr & s & Hs & _).
  unfold onClick_selected.
  rewrite E, Hn, Hhdr. replace (negb (-1 =? -1)%Z) with false by done. cbn zeta.
  by rewrite guessTexture_disposeTarget, Hs, Hrt.
Qed.

(** The click handler on another texture that it does not skip. *)
Lemma onClick_selected_parsed (index : Z) this (i : nat) t (n : string) :
  textureAt index this = Some (i, t) →
  name t = Some n →
  skipped t this = false →
  is_Some (serialize t) →
  isRenderTarget t = false →
  ∃ s,
    guessTexture t n (serialize t) this = Guessed (Some s)
    ∧ onClick_selected serialize index this =
        Returned (assignTexture i (set_targetTexture (Some (Parsed s)) (disposeTarget this))).
Proof.
  intros E Hn Hskip Hser Hrt.
  destruct (guessTexture_Guessed serialize t n this Hn Hskip (λ _, Hser))
    as (Hhdr & s & Hs & Hparse).
  destruct (Hparse Hrt) as [s' ->]. exists s'. split; [done|].
  unfold onClick_selected.
  rewrite E, Hn, Hhdr. replace (negb (-1 =? -1)%Z) with false by done. cbn zeta.
  by rewrite guessTexture_disposeTarget, Hs, Hrt.
Qed.

Lemma assignTexture_fields (i : nat) this :
  _targetTexture (assignTexture i this) = _targetTexture this
  ∧ imageData (assignTexture i this) = imageData this
  ∧ _targetObject (assignTexture i this) = _targetObject this
  ∧ propertyPath (assignTexture i this) = propertyPath this
  ∧ _texturesList (assignTexture i this) = _texturesList this.
Proof. unfold assignTexture. by destruct (object this). Qed.

(** X11: a click on a render target that is not skipped starts its preview:
    the render target becomes the current one, its [onAfterRender] is the
    replacement callback over a new zero-filled image data of 4 bytes per
    pixel, the target texture is a new dynamic texture of the render target's
    size, and the callback that is saved is the one that the render target
    had of other code, also when the render target was previewed already.
    The render target has a name, and a serialization object when it has a
    [_buffer] or an entry in [FilesInput.FilesTextures]; else the handler
    throws before. *)
Theorem X11_click_render_target_previews this (index : Z) (rest : list Z) (i : nat) t
    (n : string) :
  consistent this →
  textureAt index this = Some (i, t) →
  name t = Some n →
  skipped t this = false →
  (needsSerialization t this = true → serializable serialize t) →
  isRenderTarget t = true →
  ∃ this',
    onClick serialize (index :: rest) this = Returned this'
    ∧ _currentRenderTarget this' = Some i
    ∧ textures this' !! i =
        Some (set_onAfterRender
                (Some (Preview (getSize t).1 (getSize t).2 (length (imageData this)))) t)
    ∧ _currentOnAfterRender this' =
        (if decide (_currentRenderTarget this = Some i) then _currentOnAfterRender this
         else onAfterRender t)
    ∧ ¬ isPreview (_currentOnAfterRender this')
    ∧ _dynamicTexture this' =
        Some {| dyn_id := dynamicTextures this; dyn_width := (getSize t).1;
                dyn_height := (getSize t).2 |}
    ∧ _targetTexture this' =
        Some (Dynamic {| dyn_id := dynamicTextures this; dyn_width := (getSize t).1;
                         dyn_height := (getSize t).2 |})
    ∧ imageData this' =
        imageData this ++ [replicate (4 * (getSize t).1 * (getSize t).2) Byte.x00].
Proof.
  intros Hcons E Hn Hskip Hser Hrt. unfold onClick, restoreIfPreviewing.
  pose proof E as (Hle & Hi & Ht)%textureAt_Some.
  assert (∀ this1 t1,
    textures this1 !! i = Some t1 → filesTextures this1 = filesTextures this →
    (∃ cb, t1 = set_onAfterRender cb t) →
    ∃ this',
      onClick_selected serialize index this1 = Returned this'
      ∧ _currentRenderTarget this' = Some i
      ∧ textures this' !! i =
          Some (set_onAfterRender
                  (Some (Preview (getSize t).1 (getSize t).2 (length (imageData this1)))) t)
      ∧ _currentOnAfterRender this' = onAfterRender t1
      ∧ _dynamicTexture this' =
          Some {| dyn_id := dynamicTextures this1; dyn_width := (getSize t).1;
                  dyn_height := (getSize t).2 |}
      ∧ _targetTexture this' =
          Some (Dynamic {| dyn_id := dynamicTextures this1; dyn_width := (getSize t).1;
                           dyn_height := (getSize t).2 |})
      ∧ imageData this' =
          imageData this1 ++ [replicate (4 * (getSize t).1 * (getSize t).2) Byte.x00])
    as Hsel.
  { intros this1 t1 Ht1 Hf [cb ->].
    rewrite (onClick_selected_preview index this1 i (set_onAfterRender cb t) n);
      [|by apply textureAt_Some|done
       |by rewrite (skipped_set_onAfterRender cb t this this1)
       |rewrite (needsSerialization_set_onAfterRender cb t this this1) by done;
        intros Hneeds; by apply Hser
       |done].
    destruct (disposeTarget_state this1) as (Ht2 & _ & _ & _ & _ & _ & _ & Hi2 & Hn2).
    destruct (configure_state (set_currentRenderTarget (Some i) (disposeTarget this1)) i
                (set_onAfterRender cb t))
      as (c & -> & Htc & Hsc & Hcc & Hdc & Htt & Hic & _); [done|by cbn; rewrite Ht2|].
    cbn in Htc, Hdc, Htt, Hic. rewrite Ht2, Hi2 in Htc. rewrite Hn2 in Hdc, Htt.
    rewrite Hi2 in Hic.
    cbn [andThen]. eexists. split; [done|].
    destruct (assignTexture_state i c) as (-> & -> & -> & -> & _).
    destruct (assignTexture_fields i c) as (-> & -> & _).
    rewrite Hcc, Htc, Hsc, Hdc, Htt, Hic, list_lookup_alter_eq, Ht1. cbn.
    repeat split; done. }
  destruct (_currentRenderTarget this) as [j|] eqn:Ej.
  - destruct (consistent_current this Hcons j Ej) as [Hj [d Hd]].
    destruct (restor_state this j d Ej Hd)
      as (this1 & -> & Ht1 & Hs1 & _ & _ & _ & _ & _ & Hf1 & _ & _ & Hi1 & Hn1 & _).
    cbn [andThen]. destruct (decide (j = i)) as [->|Hne].
    + destruct (Hsel this1 (set_onAfterRender (_currentOnAfterRender this) t))
        as (this' & Hr & H1 & H2 & H3 & H4 & H5 & H6);
        [by rewrite Ht1, list_lookup_alter_eq, Ht|done|by eexists|].
      exists this'. rewrite decide_True by done. rewrite Hi1 in H2, H6. rewrite Hn1 in H4, H5.
      repeat split; try done. rewrite H3. apply Hcons.
    + destruct (Hsel this1 t) as (this' & Hr & H1 & H2 & H3 & H4 & H5 & H6);
        [by rewrite Ht1, list_lookup_alter_ne, Ht|done|exists (onAfterRender t); by destruct t|].
      exists this'. rewrite decide_False by congruence.
      rewrite Hi1 in H2, H6. rewrite Hn1 in H4, H5.
      repeat split; try done. rewrite H3. intros Hp.
      pose proof (consistent_preview this Hcons i t Ht Hp). congruence.
  - cbn [andThen].
    destruct (Hsel this t) as (this' & Hr & H1 & H2 & H3 & H4 & H5 & H6);
      [done|done|exists (onAfterRender t); by destruct t|].
    exists this'. repeat split; try done. rewrite H3. intros Hp.
    pose proof (consistent_preview this Hcons i t Ht Hp). congruence.
Qed.

(** After [if (this._currentRenderTarget) this._restorRenderTarget();] in a
    consistent editor. *)
Lemma restoreIfPreviewing_state this :
  consistent this →
  ∃ this1,
    restoreIfPreviewing this = Returned this1
    ∧ textures this1 =
        match _currentRenderTarget this with
        | Some j => alter (set_onAfterRender (_currentOnAfterRender this)) j (textures this)
        | None => textures this
        end
    ∧ log this1 =
        log this ++
        match _currentRenderTarget this, _dynamicTexture this with
        | Some _, Some d => [Dispose (Dynamic d)]
        | _, _ => []
        end
    ∧ _currentRenderTarget this1 = None
    ∧ _currentOnAfterRender this1 = _currentOnAfterRender this
    ∧ _targetTexture this1 = _targetTexture this
    ∧ filesTextures this1 = filesTextures this
    ∧ object this1 = object this
    ∧ propertyPath this1 = propertyPath this.
Proof.
  intros Hcons. unfold restoreIfPreviewing.
  destruct (_currentRenderTarget this) as [j|] eqn:Ej.
  - destruct (consistent_current this Hcons j Ej) as [_ [d Hd]].
    destruct (restor_state this j d Ej Hd)
      as (this1 & -> & Ht & Hs & _ & _ & Hc & Htt & _ & Hf & Ho & Hp & _ & _ & _ & Hl).
    exists this1. by rewrite Hd.
  - exists this. by rewrite app_nil_r.
Qed.

(** The texture at the selected position after the running preview has been
    stopped: the one that was there, up to its callback. *)
Lemma restoreIfPreviewing_textureAt this this1 (index : Z) (i : nat) t :
  consistent this → restoreIfPreviewing this = Returned this1 →
  textureAt index this = Some (i, t) →
  ∃ cb, textureAt index this1 = Some (i, set_onAfterRender cb t).
Proof.
  intros Hcons Hr E.
  destruct (restoreIfPreviewing_idle this Hcons) as (this1' & Hr' & _ & Htex & _).
  rewrite Hr in Hr'. injection Hr' as <-.
  apply textureAt_Some in E as (Hle & Hi & Ht).
  destruct (Htex i t Ht) as [cb Ht1]. exists cb. by apply textureAt_Some.
Qed.

(** X12: a click on a texture that has a name and a serialization object,
    and that is neither skipped nor a render target, stops the preview and
    makes the target texture the one parsed from the texture's
    serialization: with the texture's [_buffer] as base64 string when it has
    one, else with its [url] as name when the texture came from a file;
    [onApply] then samples that texture. *)
Theorem X12_click_texture_targets_parsed this (index : Z) (rest : list Z) (i : nat) t
    (n : string) (s0 : SerializationObject) :
  consistent this →
  textureAt index this = Some (i, t) →
  name t = Some n →
  serialize t = Some s0 →
  skipped t this = false →
  isRenderTarget t = false →
  _currentRenderTarget this ≠ Some i →
  ∃ this' s,
    onClick serialize (index :: rest) this = Returned this'
    ∧ guessTexture t n (serialize t) this = Guessed (Some s)
    ∧ _targetTexture this' = Some (Parsed s)
    ∧ (truthy (_buffer t) = true →
         ser_base64String s = _buffer t ∧ ser_name s = ser_name s0)
    ∧ (truthy (_buffer t) = false → is_Some (filesTextures this !! n) →
         ser_name s = url t)
    ∧ (truthy (_buffer t) = false → filesTextures this !! n = None →
         s = s0)
    ∧ _currentRenderTarget this' = None
    ∧ log (onApply this') = log this' ++ [SetTexture "textureSampler" (Parsed s)].
Proof.
  intros Hcons E Hn Hs0 Hskip Hrt Hne. unfold onClick.
  destruct (restoreIfPreviewing_state this Hcons)
    as (this1 & -> & Ht1 & _ & Hc1 & _ & _ & Hf1 & _).
  cbn [andThen]. pose proof E as (Hle & Hi & Ht)%textureAt_Some.
  assert (textures this1 !! i = Some t) as Hti.
  { rewrite Ht1. destruct (_currentRenderTarget this) as [j|]; [|done].
    rewrite list_lookup_alter_ne; [done|congruence]. }
  destruct (onClick_selected_parsed index this1 i t n) as (s & Hs & ->);
    [by apply textureAt_Some|done| |by rewrite Hs0|done|].
  { rewrite <- Hskip. unfold skipped. by rewrite Hf1. }
  assert (guessTexture t n (serialize t) this = Guessed (Some s)) as Hg.
  { rewrite <- Hs. unfold guessTexture. by rewrite Hf1. }
  exists (assignTexture i (set_targetTexture (Some (Parsed s)) (disposeTarget this1))), s.
  split; [done|]. split; [done|].
  destruct (assignTexture_state i (set_targetTexture (Some (Parsed s)) (disposeTarget this1)))
    as (_ & Hc & _).
  destruct (assignTexture_fields i (set_targetTexture (Some (Parsed s)) (disposeTarget this1)))
    as (Htt & _).
  destruct (disposeTarget_state this1) as (_ & Hc2 & _).
  split; [by rewrite Htt|].
  unfold guessTexture in Hg. rewrite Hs0 in Hg. split; [|split; [|split; [|split]]].
  - intros Hb. rewrite Hb in Hg. by injection Hg as <-.
  - intros Hb Hfile. rewrite Hb, bool_decide_eq_true_2 in Hg by done.
    by injection Hg as <-.
  - intros Hb Hfile. rewrite Hb, bool_decide_eq_false_2 in Hg by (by rewrite Hfile; intros []).
    destruct (isCube t); [done|]. by injection Hg as <-.
  - rewrite Hc. cbn. by rewrite Hc2.
  - unfold onApply. by rewrite Htt.
Qed.

(** The textures of the scene after the click handler, from the read of the
    selected texture on: only the render target that becomes the current one
    is changed. *)
Lemma onClick_selected_textures (index : Z) this (k : nat) :
  _currentRenderTarget (stateOf (onClick_selected serialize index this)) ≠ Some k →
  textures (stateOf (onClick_selected serialize index this)) !! k = textures this !! k.
Proof.
  unfold onClick_selected. destruct (textureAt index this) as [[i t]|] eqn:E; [|done].
  destruct (name t) as [n|]; [|done].
  destruct (negb _); [done|]. cbn zeta.
  destruct (disposeTarget_state this) as (Ht2 & _).
  destruct (guessTexture _ _ _ _) as [s| |]; [|by cbn; rewrite Ht2..].
  apply textureAt_Some in E as (_ & _ & Ht).
  destruct (isRenderTarget t).
  - destruct (configure_state (set_currentRenderTarget (Some i) (disposeTarget this)) i t)
      as (c & -> & Htc & _ & Hcc & _); [done|by cbn; rewrite Ht2|].
    cbn [andThen stateOf]. destruct (assignTexture_state i c) as (-> & -> & _).
    rewrite Hcc, Htc. cbn. rewrite Ht2. intros Hne.
    rewrite list_lookup_alter_ne; [done|congruence].
  - destruct s as [s|]; cbn [parseTarget andThen stateOf]; intros _; [|by rewrite Ht2].
    destruct (assignTexture_state i (set_targetTexture (Some (Parsed s)) (disposeTarget this)))
      as (-> & _).
    cbn [textures set_targetTexture]. by rewrite Ht2.
Qed.

(** X13: a click while a render target is previewed gives that render
    target the [onAfterRender] that was saved, whether the click then returns
    early, throws or selects another texture; the other textures that do not
    become the current render target are not changed. *)
Theorem X13_click_restores_previewed this (index : Z) (rest : list Z) (j k : nat) :
  consistent this →
  _currentRenderTarget this = Some j →
  _currentRenderTarget (stateOf (onClick serialize (index :: rest) this)) ≠ Some k →
  textures (stateOf (onClick serialize (index :: rest) this)) !! k =
    (if decide (k = j) then set_onAfterRender (_currentOnAfterRender this) <$> textures this !! k
     else textures this !! k)
  ∧ (k = j →
       onAfterRender <$> textures (stateOf (onClick serialize (index :: rest) this)) !! j
       = Some (_currentOnAfterRender this)).
Proof.
  intros Hcons Hj. unfold onClick.
  destruct (restoreIfPreviewing_state this Hcons) as (this1 & -> & Ht1 & _).
  cbn [andThen]. rewrite Hj in Ht1. intros Hk.
  rewrite (onClick_selected_textures index this1 k Hk), Ht1.
  destruct (decide (k = j)) as [->|Hne].
  - rewrite list_lookup_alter_eq. split; [done|]. intros _.
    rewrite (onClick_selected_textures index this1 j Hk), Ht1, list_lookup_alter_eq.
    destruct (consistent_current this Hcons j Hj) as [Hlt _].
    destruct (lookup_lt_is_Some_2 (textures this) j Hlt) as [t ->]. done.
  - rewrite list_lookup_alter_ne by done. split; [done|]. by intros ->.
Qed.

(** The calls of [dispose] by the click handler, from the read of the
    selected texture on. *)
Lemma onClick_selected_log (index : Z) this (i : nat) t :
  textureAt index this = Some (i, t) →
  log (stateOf (onClick_selected serialize index this)) =
  log this ++
  match name t with
  | Some n =>
      if negb (indexOf ".hdr" (toLowerCase n) =? -1)%Z then []
      else match _targetTexture this with
           | Some target => [Dispose target]
           | None => []
           end
  | None => []
  end.
Proof.
  intros E. unfold onClick_selected. rewrite E.
  destruct (name t) as [n|]; [|by rewrite app_nil_r].
  destruct (negb _); [by rewrite app_nil_r|]. cbn zeta.
  assert (log (disposeTarget this) =
          log this ++ match _targetTexture this with
                      | Some target => [Dispose target]
                      | None => []
                      end) as Hl.
  { unfold disposeTarget. destruct (_targetTexture this); [done|by rewrite app_nil_r]. }
  destruct (disposeTarget_state this) as (Ht2 & _).
  destruct (guessTexture _ _ _ _) as [s| |]; [|done..].
  apply textureAt_Some in E as (_ & _ & Ht).
  destruct (isRenderTarget t).
  - destruct (configure_state (set_currentRenderTarget (Some i) (disposeTarget this)) i t)
      as (c & -> & _ & _ & _ & _ & _ & _ & _ & _ & _ & _ & _ & Hlc);
      [done|by cbn; rewrite Ht2|].
    cbn [andThen stateOf]. destruct (assignTexture_state i c) as (_ & _ & _ & _ & ->).
    by rewrite Hlc.
  - destruct s as [s|]; cbn [parseTarget andThen stateOf]; [|done].
    by destruct (assignTexture_state i
         (set_targetTexture (Some (Parsed s)) (disposeTarget this))) as (_ & _ & _ & _ & ->).
Qed.

(** X14: when a click replaces a running preview, [dispose] is called twice
    on the dynamic texture of that preview: by [_restorRenderTarget], and
    again as the target texture, unless the click is on an [.hdr] texture or
    on a texture without a name, where the handler returns or throws before
    the second call. *)
Theorem X14_click_disposes_preview_twice this (index : Z) (rest : list Z) (i j : nat) t d :
  consistent this →
  _currentRenderTarget this = Some j →
  _dynamicTexture this = Some d →
  _targetTexture this = Some (Dynamic d) →
  textureAt index this = Some (i, t) →
  log (stateOf (onClick serialize (index :: rest) this)) =
  log this ++
  match name t with
  | Some n =>
      if negb (indexOf ".hdr" (toLowerCase n) =? -1)%Z then [Dispose (Dynamic d)]
      else [Dispose (Dynamic d); Dispose (Dynamic d)]
  | None => [Dispose (Dynamic d)]
  end.
Proof.
  intros Hcons Hj Hd Htt E. unfold onClick.
  destruct (restoreIfPreviewing_state this Hcons)
    as (this1 & Hr & Ht1 & Hl1 & _ & _ & Htt1 & _).
  destruct (restoreIfPreviewing_textureAt this this1 index i t Hcons Hr E) as [cb E1].
  rewrite Hr. cbn [andThen]. rewrite Hj, Hd in Hl1.
  rewrite (onClick_selected_log index this1 i _ E1), Hl1, Htt1, Htt. cbn [name set_onAfterRender].
  destruct (name t) as [n|]; [|by rewrite app_nil_r].
  destruct (negb _); by rewrite <- app_assoc.
Qed.

(** **** The early returns *)

Lemma toLowerCase_append (a b : string) :
  toLowerCase (a +:+ b) = toLowerCase a +:+ toLowerCase b.
Proof.
  induction a as [|c a IH]; [done|].
  change (String c a +:+ b) with (String c (a +:+ b)). cbn [toLowerCase].
  by rewrite IH.
Qed.

Lemma indexOf_lower_bound (p s : string) : (-1 ≤ indexOf p s)%Z.
Proof.
  induction s as [|c s IH]; cbn [indexOf].
  - destruct (String.prefix p ""); lia.
  - destruct (String.prefix p (String c s)); [lia|].
    destruct (Z.eqb_spec (indexOf p s) (-1)); lia.
Qed.

(** [indexOf] finds a string that occurs. *)
Lemma indexOf_occurs (p a b : string) : indexOf p (a +:+ p +:+ b) ≠ (-1)%Z.
Proof.
  induction a as [|c a IH].
  - change ("" +:+ p +:+ b) with (p +:+ b).
    pose proof (prefix_append p b) as Hp.
    destruct (p +:+ b); cbn [indexOf]; by rewrite Hp.
  - change (String c a +:+ p +:+ b) with (String c (a +:+ p +:+ b)). cbn [indexOf].
    destruct (String.prefix p (String c (a +:+ p +:+ b))); [done|].
    pose proof (indexOf_lower_bound p (a +:+ p +:+ b)).
    destruct (Z.eqb_spec (indexOf p (a +:+ p +:+ b)) (-1)); [done|lia].
Qed.

(** X19: a click on a texture whose name holds [.hdr], in any mix of upper
    and lower case, does nothing but stop the running preview: no texture is
    disposed of as target, parsed or assigned. *)
Theorem X19_click_skips_hdr this (index : Z) (rest : list Z) (i : nat) t
    (pre ext post : string) :
  consistent this →
  textureAt index this = Some (i, t) →
  name t = Some (pre +:+ ext +:+ post) →
  toLowerCase ext = ".hdr" →
  skipped t this = true
  ∧ onClick serialize (index :: rest) this = restoreIfPreviewing this
  ∧ object (stateOf (onClick serialize (index :: rest) this)) = object this
  ∧ _targetTexture (stateOf (onClick serialize (index :: rest) this)) = _targetTexture this.
Proof.
  intros Hcons E Hname Hext.
  assert (indexOf ".hdr" (toLowerCase (pre +:+ ext +:+ post)) ≠ (-1)%Z) as Hhdr.
  { rewrite !toLowerCase_append, Hext. apply indexOf_occurs. }
  assert (negb (indexOf ".hdr" (toLowerCase (pre +:+ ext +:+ post)) =? -1)%Z = true) as Hb.
  { by destruct (Z.eqb_spec (indexOf ".hdr" (toLowerCase (pre +:+ ext +:+ post))) (-1)). }
  split; [unfold skipped; by rewrite Hname, Hb|].
  unfold onClick.
  destruct (restoreIfPreviewing_state this Hcons)
    as (this1 & Hr & Ht1 & _ & _ & _ & Htt & _ & Ho & _).
  destruct (restoreIfPreviewing_textureAt this this1 index i t Hcons Hr E) as [cb E1].
  rewrite Hr. cbn [andThen].
  unfold onClick_selected. rewrite E1. cbn [name set_onAfterRender]. by rewrite Hname, Hb.
Qed.

(** X20: a click on a cube texture that has a name, no [_buffer] and no
    entry in [FilesInput.FilesTextures] stops the running preview, disposes
    of the target texture and returns: the target texture stays the one that
    was disposed of, and nothing is assigned. *)
Theorem X20_click_skips_unguessed_cube this (index : Z) (rest : list Z) (i : nat) t
    (n : string) :
  consistent this →
  textureAt index this = Some (i, t) →
  name t = Some n →
  indexOf ".hdr" (toLowerCase n) = (-1)%Z →
  truthy (_buffer t) = false →
  filesTextures this !! n = None →
  isCube t = true →
  ∃ this1,
    restoreIfPreviewing this = Returned this1
    ∧ onClick serialize (index :: rest) this = Returned (disposeTarget this1)
    ∧ _targetTexture (disposeTarget this1) = _targetTexture this
    ∧ object (disposeTarget this1) = object this
    ∧ log (disposeTarget this1) =
        log this1 ++ match _targetTexture this with
                     | Some target => [Dispose target]
                     | None => []
                     end.
Proof.
  intros Hcons E Hn Hhdr Hb Hfile Hcube. unfold onClick.
  destruct (restoreIfPreviewing_state this Hcons)
    as (this1 & Hr & Ht1 & _ & _ & _ & Htt & Hf & Ho & _).
  destruct (restoreIfPreviewing_textureAt this this1 index i t Hcons Hr E) as [cb E1].
  rewrite Hr. exists this1. split; [done|]. cbn [andThen].
  split.
  - unfold onClick_selected. rewrite E1. cbn [name set_onAfterRender]. rewrite Hn, Hhdr.
    replace (negb (-1 =? -1)%Z) with false by done. cbn zeta.
    rewrite guessTexture_disposeTarget. unfold guessTexture. cbn.
    by rewrite Hb, Hf, Hfile, Hcube.
  - unfold disposeTarget. rewrite Htt.
    destruct (_targetTexture this) eqn:Et; cbn; rewrite ?Htt, ?Ho, ?app_nil_r; done.
Qed.

(** **** What a click leaves alone *)

Lemma restoreIfPreviewing_object this :
  object (stateOf (restoreIfPreviewing this)) = object this
  ∧ propertyPath (stateOf (restoreIfPreviewing this)) = propertyPath this
  ∧ _targetObject (stateOf (restoreIfPreviewing this)) = _targetObject this.
Proof.
  unfold restoreIfPreviewing, _restorRenderTarget.
  destruct (_currentRenderTarget this); [|done]. cbn.
  by destruct (_dynamicTexture this).
Qed.

Lemma onClick_selected_object (index : Z) this :
  (object (stateOf (onClick_selected serialize index this)) = object this
   ∨ ∃ o i, object this = Some o
            ∧ object (stateOf (onClick_selected serialize index this)) =
                Some (<[default "undefined" (propertyPath this) := VTexture i]> o))
  ∧ propertyPath (stateOf (onClick_selected serialize index this)) = propertyPath this
  ∧ _targetObject (stateOf (onClick_selected serialize index this)) = _targetObject this.
Proof.
  unfold onClick_selected. destruct (textureAt index this) as [[i t]|] eqn:E; [|by split; [left|]].
  destruct (name t) as [n|]; [|by split; [left|]].
  destruct (negb _); [by split; [left|]|]. cbn zeta.
  destruct (disposeTarget_state this) as (Ht2 & _ & _ & _ & _ & Ho2 & Hp2 & _).
  assert (_targetObject (disposeTarget this) = _targetObject this) as Hto2
    by (unfold disposeTarget; by destruct (_targetTexture this)).
  destruct (guessTexture _ _ _ _) as [s| |]; [|by split; [left|]..].
  apply textureAt_Some in E as (_ & _ & Ht).
  assert (∀ c, object c = object this → propertyPath c = propertyPath this →
               _targetObject c = _targetObject this →
    (object (assignTexture i c) = object this
     ∨ ∃ o i0, object this = Some o
               ∧ object (assignTexture i c) =
                   Some (<[default "undefined" (propertyPath this) := VTexture i0]> o))
    ∧ propertyPath (assignTexture i c) = propertyPath this
    ∧ _targetObject (assignTexture i c) = _targetObject this) as Hassign.
  { intros c Ho Hp Hto. unfold assignTexture. rewrite Ho, Hp.
    destruct (object this) as [o|] eqn:Eo; [|by split; [left|]].
    split; [right; by exists o, i|]. by cbn. }
  destruct (isRenderTarget t).
  - destruct (configure_state (set_currentRenderTarget (Some i) (disposeTarget this)) i t)
      as (c & -> & _ & _ & _ & _ & _ & _ & _ & Hto & Ho & Hp & _);
      [done|by cbn; rewrite Ht2|].
    cbn [andThen stateOf]. apply Hassign; cbn in *; congruence.
  - destruct s as [s|]; cbn [parseTarget andThen stateOf]; [by apply Hassign|].
    by split; [left|].
Qed.

(** X21: of the edited object a click changes the property named by
    [propertyPath] at most ([undefined] as a name when the editor has no
    property path); it makes no object when the editor has none, and it never
    changes [propertyPath] or [_targetObject]. *)
Theorem X21_click_keeps_other_properties this (selected : list Z) (q : string) :
  q ≠ default "undefined" (propertyPath this) →
  object (stateOf (onClick serialize selected this)) ≫= (.!! q) = object this ≫= (.!! q)
  ∧ (object this = None → object (stateOf (onClick serialize selected this)) = None)
  ∧ propertyPath (stateOf (onClick serialize selected this)) = propertyPath this
  ∧ _targetObject (stateOf (onClick serialize selected this)) = _targetObject this.
Proof.
  intros Hq. destruct selected as [|index rest]; [done|]. unfold onClick.
  destruct (restoreIfPreviewing_object this) as (Ho & Hp & Hto).
  destruct (restoreIfPreviewing this) as [this1|this1]; cbn [andThen stateOf] in *.
  - destruct (onClick_selected_object index this1) as ([Ho1|(o & i & Ho1 & Ho2)] & Hp1 & Hto1).
    + rewrite Ho1, Ho, Hp1, Hp, Hto1, Hto. split; [done|]. by split.
    + rewrite Ho2, Hp1, Hp, Hto1, Hto, <- Ho, Ho1. cbn.
      split; [by rewrite lookup_insert_ne|by split].
  - rewrite Ho, Hp, Hto. split; [done|]. by split.
Qed.

(** **** The editors that the handlers lead to *)

(** X10: every editor that the handlers make of a new one is consistent;
    then no render callback throws, and the stop of the running preview does
    not throw.  The click handler throws on a row outside the scene's texture
    list and on a texture whose name is [null]; it returns on a texture that
    has a name and, where the handler uses it, a serialization object. *)
Theorem X10_reachable_consistent this :
  (∀ data name, ¬ isPreview (onAfterRender (CreateFromBase64String data name))) →
  reachable serialize CreateFromBase64String this →
  consistent this
  ∧ (∀ i faceIndex pixels, returns (afterRender i faceIndex pixels this) = true)
  ∧ returns (restoreIfPreviewing this) = true
  ∧ (∀ selected, ¬ inRange selected this →
       returns (onClick serialize selected this) = false)
  ∧ (∀ index rest i t, textureAt index this = Some (i, t) →
       match name t with
       | None => returns (onClick serialize (index :: rest) this) = false
       | Some n =>
           (needsSerialization t this = true → serializable serialize t) →
           returns (onClick serialize (index :: rest) this) = true
       end).
Proof.
  intros Hnew Hr.
  pose proof (reachable_consistent serialize CreateFromBase64String this Hnew Hr) as Hcons.
  split; [done|]. split.
  { intros i f px. by destruct (afterRender_consistent i f px this Hcons) as (this' & -> & ?). }
  split.
  { by destruct (restoreIfPreviewing_idle this Hcons) as (this1 & -> & _). }
  split; [intros selected; by apply onClick_outside|].
  intros index rest i t E. destruct (name t) as [n|] eqn:Hn.
  - by apply (onClick_named serialize index rest this i t n).
  - by apply (onClick_nameless serialize index rest this i t).
Qed.

End clicks.

(** *** Renders in a row, and files read in a row *)

Section frames.
Context (CreateFromBase64String : string → string → BaseTexture).
Implicit Types (this : GUITextureEditor) (rt : BaseTexture).

(** One render while the preview is on. *)
Lemma afterRender_frame (i faceIndex : nat) (pixels : list Byte.byte) this rt
    (width height imgData : nat) (d : DynamicTexture) (data : list Byte.byte) :
  textures this !! i = Some rt →
  onAfterRender rt = Some (Preview width height imgData) →
  _dynamicTexture this = Some d →
  imageData this !! imgData = Some data →
  ∃ this',
    afterRender i faceIndex pixels this = Returned this'
    ∧ textures this' = textures this
    ∧ _dynamicTexture this' = Some d
    ∧ imageData this' !! imgData = Some (copyPixels pixels data)
    ∧ (∀ k, k ≠ imgData → imageData this' !! k = imageData this !! k)
    ∧ _currentPixels this' = Some pixels.
Proof.
  intros Hrt Hcb Hd Hdata. unfold afterRender. rewrite Hrt, Hcb.
  unfold previewAfterRender. destruct this; cbn in *. subst.
  destruct _currentOnAfterRender0 as [cb|]; cbn;
    (eexists; split; [done|]); cbn;
    rewrite list_lookup_alter_eq, Hdata;
    (repeat split; try done); intros k Hk; by rewrite list_lookup_alter_ne.
Qed.

Lemma renders_snoc (i : nat) frames frame this :
  renders i (frames ++ [frame]) this =
  andThen (renders i frames this) (afterRender i frame.1 frame.2).
Proof. unfold renders. by rewrite foldl_app. Qed.

Lemma renders_frames (i : nat) frames : ∀ this rt width height imgData d data,
  textures this !! i = Some rt →
  onAfterRender rt = Some (Preview width height imgData) →
  _dynamicTexture this = Some d →
  imageData this !! imgData = Some data →
  ∃ this' data',
    renders i frames this = Returned this'
    ∧ textures this' = textures this
    ∧ _dynamicTexture this' = Some d
    ∧ imageData this' !! imgData = Some data'
    ∧ length data' = length data
    ∧ (∀ k, k ≠ imgData → imageData this' !! k = imageData this !! k).
Proof.
  induction frames as [|frame frames IH];
    intros this rt width height imgData d data Hrt Hcb Hd Hdata.
  - by exists this, data.
  - rewrite renders_cons.
    destruct (afterRender_frame i frame.1 frame.2 this rt width height imgData d data)
      as (this1 & -> & Ht1 & Hd1 & Hi1 & Ho1 & _); [done..|].
    cbn [andThen].
    destruct (IH this1 rt width height imgData d (copyPixels frame.2 data))
      as (this2 & data2 & -> & Ht2 & Hd2 & Hi2 & Hl2 & Ho2); [by rewrite Ht1|done..|].
    exists this2, data2. split; [done|]. split; [congruence|]. split; [done|].
    split; [done|]. split; [by rewrite Hl2, copyPixels_length|].
    intros k Hk. by rewrite Ho2, Ho1.
Qed.

(** X16: of the renders of a previewed render target the last one decides:
    when its pixels have the length of the image data, the image data are
    those pixels, whatever the renders before wrote; the other image data and
    the textures of the scene are not changed. *)
Theorem X16_last_render_decides (i faceIndex : nat) frames (pixels : list Byte.byte) this rt
    (width height imgData : nat) (d : DynamicTexture) (data : list Byte.byte) :
  textures this !! i = Some rt →
  onAfterRender rt = Some (Preview width height imgData) →
  _dynamicTexture this = Some d →
  imageData this !! imgData = Some data →
  length pixels = length data →
  ∃ this',
    renders i (frames ++ [(faceIndex, pixels)]) this = Returned this'
    ∧ imageData this' !! imgData = Some pixels
    ∧ _currentPixels this' = Some pixels
    ∧ (∀ k, k ≠ imgData → imageData this' !! k = imageData this !! k)
    ∧ textures this' = textures this.
Proof.
  intros Hrt Hcb Hd Hdata Hlen. rewrite renders_snoc.
  destruct (renders_frames i frames this rt width height imgData d data)
    as (this1 & data1 & -> & Ht1 & Hd1 & Hi1 & Hl1 & Ho1); [done..|].
  cbn [andThen fst snd].
  destruct (afterRender_frame i faceIndex pixels this1 rt width height imgData d data1)
    as (this2 & -> & Ht2 & _ & Hi2 & Ho2 & Hp2); [by rewrite Ht1|done..|].
  exists this2. split; [done|].
  rewrite copyPixels_all in Hi2 by congruence.
  split; [done|]. split; [done|]. split; [|congruence].
  intros k Hk. by rewrite Ho2, Ho1.
Qed.

Lemma readFinished_head (f : File) (name data : string) rest this :
  pendingReads this = (f, OnReadFile name) :: rest →
  readFinished CreateFromBase64String 0 data this =
  _onReadFileCallback CreateFromBase64String name data (set_pendingReads rest this).
Proof. intros Hp. unfold readFinished. by rewrite Hp. Qed.

Lemma readAll_files (files : list File) : ∀ (datas : list string) this,
  (∀ data n, name (CreateFromBase64String data n) = Some ("data:" +:+ n)) →
  pendingReads this = (λ f, (f, OnReadFile (file_name f))) <$> files →
  length datas = length files →
  name <$> textures (readAll CreateFromBase64String datas this) =
    (name <$> textures this) ++ ((λ f, Some (file_name f)) <$> files)
  ∧ row_name <$> _texturesList (readAll CreateFromBase64String datas this) =
      (row_name <$> _texturesList this) ++ ((λ f, Some (file_name f)) <$> files)
  ∧ pendingReads (readAll CreateFromBase64String datas this) = [].
Proof.
  induction files as [|f files IH]; intros [|data datas] this Hname Hp Hlen; try done.
  - cbn. by rewrite !app_nil_r.
  - cbn [readAll]. rewrite (readFinished_head f (file_name f) data
                              ((λ f, (f, OnReadFile (file_name f))) <$> files)) by done.
    destruct (onReadFileCallback_state CreateFromBase64String (file_name f) data
                ("data:" +:+ file_name f)
                (set_pendingReads ((λ f, (f, OnReadFile (file_name f))) <$> files) this)
                (Hname data (file_name f)))
      as (this1 & -> & Ht & Hr & Hpend).
    cbn [textures _texturesList pendingReads set_pendingReads] in Ht, Hr, Hpend.
    cbn [stateOf].
    destruct (IH datas this1) as (-> & -> & ->); [done|done|cbn in Hlen; lia|].
    rewrite Ht, Hr, !fmap_app, <- !app_assoc. cbn.
    rewrite replace_prefix. by destruct (file_name f).
Qed.

(** X17: when the files chosen are read one after the other, each leaves a
    texture in the current scene and a row in the grid, both with the file's
    name and in the order of the files, and no read stays pending. *)
Theorem X17_files_read_in_order (files : list File) (datas : list string) this :
  (∀ data n, name (CreateFromBase64String data n) = Some ("data:" +:+ n)) →
  pendingReads this = [] →
  length datas = length files →
  name <$> textures (readAll CreateFromBase64String datas (onchange files this)) =
    (name <$> textures this) ++ ((λ f, Some (file_name f)) <$> files)
  ∧ row_name <$> _texturesList (readAll CreateFromBase64String datas (onchange files this)) =
      (row_name <$> _texturesList this) ++ ((λ f, Some (file_name f)) <$> files)
  ∧ pendingReads (readAll CreateFromBase64String datas (onchange files this)) = [].
Proof.
  intros Hname Hp Hlen.
  apply (readAll_files files datas (onchange files this)); [done| |done].
  unfold onchange. cbn. by rewrite Hp.
Qed.

(** X18: in an editor whose rows mirror the scene, the row that the file
    callback gives to the grid has the file's name and, as id, the number of
    rows less one, which is the id of the row before it; [onReload] keeps the
    names of all rows and gives the new row its position as id. *)
Theorem X18_reload_renumbers_added_row (name data : string) this :
  mirrored this →
  TextureEditor.name (CreateFromBase64String data name) = Some ("data:" +:+ name) →
  ∃ this',
    _onReadFileCallback CreateFromBase64String name data this = Returned this'
    ∧ _texturesList this' =
        _texturesList this ++
        [{| row_name := Some name; recid := (Z.of_nat (length (textures this)) - 1)%Z |}]
    ∧ _texturesList (onReload this') =
        _texturesList this ++
        [{| row_name := Some name; recid := Z.of_nat (length (textures this)) |}]
    ∧ row_name <$> _texturesList (onReload this') = row_name <$> _texturesList this'
    ∧ ¬ mirrored this'.
Proof.
  intros Hm Hname.
  destruct (onReadFileCallback_state CreateFromBase64String name data ("data:" +:+ name)
              this Hname) as (this' & -> & Ht & Hr & _).
  exists this'. split; [done|].
  assert (length (_texturesList this) = length (textures this)) as Hlen
    by (rewrite Hm; apply length_imap).
  assert (imap (λ i t, {| row_name := TextureEditor.name t; recid := Z.of_nat i |})
            (textures this') =
          _texturesList this ++
          [{| row_name := Some name; recid := Z.of_nat (length (textures this)) |}]) as Hfill.
  { rewrite Ht, imap_app, <- Hm. cbn.
    rewrite replace_prefix, Nat.add_0_r. by destruct name. }
  rewrite Hlen in Hr. split; [done|]. split; [done|]. split.
  - unfold onReload, _fillTextureList. cbn [_texturesList set_texturesList].
    rewrite Hfill, Hr, !fmap_app. done.
  - unfold mirrored. rewrite Hfill, Hr. intros Heq%app_inv_head.
    injection Heq as Heq. lia.
Qed.

End frames.

(** *** The editor of the demonstration scene, again *)

Lemma demoPreview_consistent : consistent demoPreview.
Proof. apply onClick_consistent, demoEditor_consistent. Qed.

Lemma demoCreate_callback (data n : string) : ¬ isPreview (onAfterRender (demoCreate data n)).
Proof. by intros []. Qed.

Lemma demoCreate_name (data n : string) : name (demoCreate data n) = Some ("data:" +:+ n).
Proof. done. Qed.

Lemma X10_reachable_consistent_witness :
  (∀ data n, ¬ isPreview (onAfterRender (demoCreate data n)))
  ∧ reachable demoSerialize demoCreate demoPreview
  ∧ consistent demoPreview
  ∧ returns (afterRender 2 0 demoPixels demoPreview) = true
  ∧ returns (onClick demoSerialize [3%Z] demoPreview) = false
  ∧ returns (onClick demoSerialize [0%Z] demoPreview) = true.
Proof.
  assert (reachable demoSerialize demoCreate demoPreview) as Hr.
  { apply reachable_onClick, reachable_create. repeat constructor; by intros []. }
  assert (¬ inRange [3%Z] demoPreview) as Hout.
  { intros [_ Hlt]. exact (Z.lt_irrefl _ Hlt). }
  destruct (X10_reachable_consistent demoSerialize demoCreate demoPreview
              demoCreate_callback Hr) as (Hc & Ha & _ & Ho & Hn).
  exact (conj demoCreate_callback (conj Hr (conj Hc (conj (Ha 2 0 demoPixels)
           (conj (Ho [3%Z] Hout)
              (Hn 0%Z [] 0 wood eq_refl
                 (λ _, demoSerialize_serializable wood eq_refl))))))).
Defined.

Lemma X11_click_render_target_previews_witness :
  consistent demoPreview
  ∧ textureAt 2 demoPreview = Some (2, set_onAfterRender (Some (Preview 2 1 0)) mirror)
  ∧ name (set_onAfterRender (Some (Preview 2 1 0)) mirror) = Some "mirror"
  ∧ skipped (set_onAfterRender (Some (Preview 2 1 0)) mirror) demoPreview = false
  ∧ serializable demoSerialize (set_onAfterRender (Some (Preview 2 1 0)) mirror)
  ∧ isRenderTarget (set_onAfterRender (Some (Preview 2 1 0)) mirror) = true
  ∧ ∃ this',
      onClick demoSerialize [2%Z] demoPreview = Returned this'
      ∧ _currentRenderTarget this' = Some 2
      ∧ _currentOnAfterRender this' = Some (Foreign 7)
      ∧ _targetTexture this' =
          Some (Dynamic {| dyn_id := 1; dyn_width := 2; dyn_height := 1 |}).
Proof.
  split; [exact demoPreview_consistent|]. do 3 (split; [reflexivity|]).
  split;
    [exact (demoSerialize_serializable (set_onAfterRender (Some (Preview 2 1 0)) mirror)
              eq_refl)|].
  split; [reflexivity|].
  destruct (X11_click_render_target_previews demoSerialize demoPreview 2 [] 2
              (set_onAfterRender (Some (Preview 2 1 0)) mirror) "mirror"
              demoPreview_consistent eq_refl eq_refl eq_refl
              (λ _, demoSerialize_serializable
                      (set_onAfterRender (Some (Preview 2 1 0)) mirror) eq_refl)
              eq_refl)
    as (this' & Hr & Hc & _ & Hs & _ & _ & Ht & _).
  exists this'. exact (conj Hr (conj Hc (conj Hs Ht))).
Defined.

Lemma X12_click_texture_targets_parsed_witness :
  consistent demoPreview
  ∧ textureAt 0 demoPreview = Some (0, wood)
  ∧ name wood = Some "wood.png"
  ∧ demoSerialize wood =
      Some {| ser_name := "wood.png"; ser_base64String := None; ser_rest := 0 |}
  ∧ skipped wood demoPreview = false
  ∧ isRenderTarget wood = false
  ∧ _currentRenderTarget demoPreview ≠ Some 0
  ∧ ∃ this',
      onClick demoSerialize [0%Z] demoPreview = Returned this'
      ∧ _targetTexture this' =
          Some (Parsed {| ser_name := "wood.png"; ser_base64String := None;
                          ser_rest := 0 |})
      ∧ _currentRenderTarget this' = None.
Proof.
  assert (_currentRenderTarget demoPreview ≠ Some 0) as Hne by (by intros [=]).
  split; [exact demoPreview_consistent|]. do 5 (split; [reflexivity|]).
  split; [exact Hne|].
  destruct (X12_click_texture_targets_parsed demoSerialize demoPreview 0 [] 0 wood
              "wood.png" {| ser_name := "wood.png"; ser_base64String := None; ser_rest := 0 |}
              demoPreview_consistent eq_refl eq_refl eq_refl eq_refl eq_refl Hne)
    as (this' & s & Hr & _ & Ht & _ & _ & Hs & Hc & _).
  exists this'. rewrite (Hs eq_refl eq_refl) in Ht. exact (conj Hr (conj Ht Hc)).
Defined.

Lemma X13_click_restores_previewed_witness :
  consistent demoPreview
  ∧ _currentRenderTarget demoPreview = Some 2
  ∧ _currentRenderTarget (stateOf (onClick demoSerialize [0%Z] demoPreview)) ≠ Some 2
  ∧ onAfterRender <$> textures demoPreview !! 2 = Some (Some (Preview 2 1 0))
  ∧ onAfterRender <$> textures (stateOf (onClick demoSerialize [0%Z] demoPreview)) !! 2
    = Some (Some (Foreign 7)).
Proof.
  assert (_currentRenderTarget (stateOf (onClick demoSerialize [0%Z] demoPreview)) ≠ Some 2)
    as Hne by (by intros [=]).
  split; [exact demoPreview_consistent|]. split; [reflexivity|]. split; [exact Hne|].
  split; [reflexivity|].
  destruct (X13_click_restores_previewed demoSerialize demoPreview 0 [] 2 2
              demoPreview_consistent eq_refl Hne) as (_ & H).
  exact (H eq_refl).
Defined.

Lemma X14_click_disposes_preview_twice_witness :
  consistent demoPreview
  ∧ _currentRenderTarget demoPreview = Some 2
  ∧ _dynamicTexture demoPreview = Some {| dyn_id := 0; dyn_width := 2; dyn_height := 1 |}
  ∧ _targetTexture demoPreview =
      Some (Dynamic {| dyn_id := 0; dyn_width := 2; dyn_height := 1 |})
  ∧ textureAt 0 demoPreview = Some (0, wood)
  ∧ log (stateOf (onClick demoSerialize [0%Z] demoPreview)) =
      log demoPreview ++
      [Dispose (Dynamic {| dyn_id := 0; dyn_width := 2; dyn_height := 1 |});
       Dispose (Dynamic {| dyn_id := 0; dyn_width := 2; dyn_height := 1 |})].
Proof.
  split; [exact demoPreview_consistent|]. do 4 (split; [reflexivity|]).
  exact (X14_click_disposes_preview_twice demoSerialize demoPreview 0 [] 0 2 wood
           {| dyn_id := 0; dyn_width := 2; dyn_height := 1 |}
           demoPreview_consistent eq_refl eq_refl eq_refl eq_refl).
Defined.

Lemma X16_last_render_decides_witness :
  textures demoPreview !! 2 = Some (set_onAfterRender (Some (Preview 2 1 0)) mirror)
  ∧ _dynamicTexture demoPreview = Some {| dyn_id := 0; dyn_width := 2; dyn_height := 1 |}
  ∧ imageData demoPreview !! 0 = Some (replicate 8 Byte.x00)
  ∧ length demoPixels = length (replicate 8 Byte.x00)
  ∧ ∃ this',
      renders 2 ([(0, [Byte.x09; Byte.x09; Byte.x09]); (1, [])] ++ [(2, demoPixels)])
        demoPreview = Returned this'
      ∧ imageData this' !! 0 = Some demoPixels
      ∧ _currentPixels this' = Some demoPixels.
Proof.
  do 4 (split; [reflexivity|]).
  destruct (X16_last_render_decides 2 2 [(0, [Byte.x09; Byte.x09; Byte.x09]); (1, [])]
              demoPixels demoPreview (set_onAfterRender (Some (Preview 2 1 0)) mirror)
              2 1 0 {| dyn_id := 0; dyn_width := 2; dyn_height := 1 |}
              (replicate 8 Byte.x00) eq_refl eq_refl eq_refl eq_refl eq_refl)
    as (this' & Hr & Hi & Hp & _).
  exists this'. exact (conj Hr (conj Hi Hp)).
Defined.

Lemma X17_files_read_in_order_witness :
  (∀ data n, name (demoCreate data n) = Some ("data:" +:+ n))
  ∧ pendingReads demoEditor = []
  ∧ length [demoData; demoData] = length [demoFile; {| file_name := "grass.png" |}]
  ∧ name <$> textures (readAll demoCreate [demoData; demoData]
                         (onchange [demoFile; {| file_name := "grass.png" |}] demoEditor)) =
      [Some "wood.png"; Some "sky.HDR"; Some "mirror"; Some "brick.png"; Some "grass.png"]
  ∧ pendingReads (readAll demoCreate [demoData; demoData]
                    (onchange [demoFile; {| file_name := "grass.png" |}] demoEditor)) = [].
Proof.
  split; [exact demoCreate_name|]. do 2 (split; [reflexivity|]).
  destruct (X17_files_read_in_order demoCreate [demoFile; {| file_name := "grass.png" |}]
              [demoData; demoData] demoEditor demoCreate_name eq_refl eq_refl)
    as (Ht & _ & Hp).
  exact (conj Ht Hp).
Defined.

Lemma X18_reload_renumbers_added_row_witness :
  mirrored demoEditor
  ∧ name (demoCreate demoData "brick.png") = Some ("data:" +:+ "brick.png")
  ∧ ∃ this',
      _onReadFileCallback demoCreate "brick.png" demoData demoEditor = Returned this'
      ∧ _texturesList this' !! 3 = Some {| row_name := Some "brick.png"; recid := 2 |}
      ∧ _texturesList (onReload this') !! 3 =
          Some {| row_name := Some "brick.png"; recid := 3 |}.
Proof.
  do 2 (split; [reflexivity|]).
  destruct (X18_reload_renumbers_added_row demoCreate "brick.png" demoData demoEditor
              eq_refl eq_refl) as (this' & Hr & H1 & H2 & _).
  exists this'. split; [exact Hr|]. rewrite H1, H2. split; reflexivity.
Defined.

Lemma X19_click_skips_hdr_witness :
  consistent demoEditor
  ∧ textureAt 1 demoEditor = Some (1, sky)
  ∧ name sky = Some ("sky" +:+ ".HDR" +:+ "")
  ∧ toLowerCase ".HDR" = ".hdr"
  ∧ onClick demoSerialize [1%Z] demoEditor = restoreIfPreviewing demoEditor
  ∧ object (stateOf (onClick demoSerialize [1%Z] demoEditor)) = object demoEditor.
Proof.
  split; [exact demoEditor_consistent|]. do 3 (split; [reflexivity|]).
  destruct (X19_click_skips_hdr demoSerialize demoEditor 1 [] 1 sky "sky" ".HDR" ""
              demoEditor_consistent eq_refl eq_refl eq_refl) as (_ & H1 & H2 & _).
  exact (conj H1 H2).
Defined.

Lemma cubeEditor_consistent : consistent cubeEditor.
Proof. apply create_consistent. repeat constructor; by intros []. Qed.

Lemma X20_click_skips_unguessed_cube_witness :
  consistent cubeEditor
  ∧ textureAt 1 cubeEditor = Some (1, skybox)
  ∧ name skybox = Some "skybox"
  ∧ indexOf ".hdr" (toLowerCase "skybox") = (-1)%Z
  ∧ truthy (_buffer skybox) = false
  ∧ filesTextures cubeEditor !! "skybox" = None
  ∧ isCube skybox = true
  ∧ ∃ this1,
      restoreIfPreviewing cubeEditor = Returned this1
      ∧ onClick demoSerialize [1%Z] cubeEditor = Returned (disposeTarget this1)
      ∧ object (disposeTarget this1) = object cubeEditor.
Proof.
  split; [exact cubeEditor_consistent|]. do 6 (split; [reflexivity|]).
  destruct (X20_click_skips_unguessed_cube demoSerialize cubeEditor 1 [] 1 skybox "skybox"
              cubeEditor_consistent eq_refl eq_refl eq_refl eq_refl eq_refl eq_refl)
    as (this1 & H1 & H2 & _ & H3 & _).
  exists this1. exact (conj H1 (conj H2 H3)).
Defined.

Lemma X21_click_keeps_other_properties_witness :
  "emissiveTexture" ≠ default "undefined" (propertyPath materialEditor)
  ∧ object materialEditor ≫= (.!! "emissiveTexture") = Some (VTexture 1)
  ∧ object (stateOf (onClick demoSerialize [0%Z] materialEditor)) ≫= (.!! "emissiveTexture")
    = Some (VTexture 1)
  ∧ object (stateOf (onClick demoSerialize [0%Z] materialEditor)) ≫= (.!! "diffuseTexture")
    = Some (VTexture 0)
  ∧ propertyPath (stateOf (onClick demoSerialize [0%Z] materialEditor))
    = Some "diffuseTexture".
Proof.
  assert ("emissiveTexture" ≠ default "undefined" (propertyPath materialEditor)) as Hq
    by (by intros [=]).
  destruct (X21_click_keeps_other_properties demoSerialize materialEditor [0%Z]
              "emissiveTexture" Hq) as (H1 & _ & H2 & _).
  split; [exact Hq|]. split; [by vm_compute|]. split; [|split; [by vm_compute|exact H2]].
  rewrite H1. by vm_compute.
Defined.

End TextureEditorSpec.
